(** * J-Agent: resume parsing and job matching

    A shallow embedding of [src/services/resumeParser.js] (class
    [ResumeParser]) and of the job matcher (class [JobMatcher]), with the
    properties their specification states about them.

    Conventions of the embedding.
    - A JavaScript string is a [string]: a sequence of code units, of which
      the 8-bit ones (U+0000 to U+00FF) are covered.  Code units above U+00FF
      (the en dash U+2013 of [yearPattern], for one) are outside the model.
    - Integer-valued JavaScript numbers are [Z]; the fractional ones (the
      weighted total, the confidence before rounding) are exact rationals
      [Q], so a double is read as the rational it approximates.
    - [null] and [undefined] are [None].
    - A regular expression is a term of [Regex.regex], run by a backtracking
      matcher that tries alternatives in the order ECMAScript does.
    - What the classes call outside the repository is a parameter: the
      calendar year of [new Date()], [path.extname] and the file decoders;
      so is the number of arguments the engine takes in one call.
    - An object used as a map and walked with [Object.entries] is an
      association list in insertion order. *)

From Stdlib Require Import List Bool Arith ZArith QArith Qround Ascii String Lia Lqa.
From Stdlib Require Import Permutation Sorted.
Import ListNotations.

Local Open Scope string_scope.
Local Open Scope Z_scope.

(* ================================================================== *)
(** ** JavaScript strings *)

Module JSString.

Definition code (c : ascii) : N := N_of_ascii c.

Definition between (lo hi : N) (c : ascii) : bool :=
  (N.leb lo (code c) && N.leb (code c) hi)%bool.

Definition isUpperAZ (c : ascii) : bool := between 65 90 c.
Definition isLowerAZ (c : ascii) : bool := between 97 122 c.
Definition isDigit (c : ascii) : bool := between 48 57 c.
Definition isLetter (c : ascii) : bool := (isUpperAZ c || isLowerAZ c)%bool.

(** [\w] of a regular expression: [A-Za-z0-9_]. *)
Definition isWordChar (c : ascii) : bool :=
  (isLetter c || isDigit c || N.eqb (code c) 95)%bool.

(** White space and line terminators below U+0100: TAB, LF, VT, FF, CR,
    SPACE and NO-BREAK SPACE.  This is the set [String.prototype.trim]
    strips and the class [\s] matches. *)
Definition isWhiteSpace (c : ascii) : bool :=
  (between 9 13 c || N.eqb (code c) 32 || N.eqb (code c) 160)%bool.

(** Line terminators below U+0100 (what [.] does not match). *)
Definition isLineTerminator (c : ascii) : bool :=
  (N.eqb (code c) 10 || N.eqb (code c) 13)%bool.

(** [toLowerCase] on one code unit: A-Z, and the Latin-1 capitals U+00C0 to
    U+00DE except the multiplication sign U+00D7. *)
Definition lowerChar (c : ascii) : ascii :=
  if (isUpperAZ c || (between 192 222 c && negb (N.eqb (code c) 215)))%bool
  then ascii_of_N (code c + 32) else c.

(** [toUpperCase] on one code unit.  The three Latin-1 letters whose upper
    case is not one 8-bit code unit (U+00B5, U+00DF, U+00FF) are left as they
    are; the source applies [toUpperCase] to lexicon entries only, which are
    ASCII. *)
Definition upperChar (c : ascii) : ascii :=
  if (isLowerAZ c || (between 224 254 c && negb (N.eqb (code c) 247)))%bool
  then ascii_of_N (code c - 32) else c.

Fixpoint smap (f : ascii -> ascii) (s : string) : string :=
  match s with
  | EmptyString => EmptyString
  | String c s' => String (f c) (smap f s')
  end.

Definition toLowerCase (s : string) : string := smap lowerChar s.
Definition toUpperCase (s : string) : string := smap upperChar s.

(** [s.includes(sub)] *)
Fixpoint includes (s sub : string) : bool :=
  (prefix sub s ||
   match s with
   | EmptyString => false
   | String _ s' => includes s' sub
   end)%bool.

(** [s.indexOf(sub)], [None] for -1. *)
Fixpoint indexOf (s sub : string) : option nat :=
  if prefix sub s then Some 0%nat
  else match s with
       | EmptyString => None
       | String _ s' => option_map S (indexOf s' sub)
       end.

Fixpoint trimStart (s : string) : string :=
  match s with
  | EmptyString => EmptyString
  | String c s' => if isWhiteSpace c then trimStart s' else s
  end.

Fixpoint trimEnd (s : string) : string :=
  match s with
  | EmptyString => EmptyString
  | String c s' =>
      match trimEnd s' with
      | EmptyString => if isWhiteSpace c then EmptyString else String c EmptyString
      | t => String c t
      end
  end.

Definition trim (s : string) : string := trimEnd (trimStart s).

(** [s.split(sep)] for a separator of one code unit: never the empty list,
    [''.split(sep)] is [['']]. *)
Fixpoint split (sep : ascii) (s : string) : list string :=
  match s with
  | EmptyString => [EmptyString]
  | String c s' =>
      if Ascii.eqb c sep then EmptyString :: split sep s'
      else match split sep s' with
           | [] => [String c EmptyString]
           | w :: ws => String c w :: ws
           end
  end.

Fixpoint join (sep : string) (l : list string) : string :=
  match l with
  | [] => EmptyString
  | [w] => w
  | w :: ws => w ++ sep ++ join sep ws
  end.

(** [s.charAt(0)] and [s.slice(1)] *)
Definition charAt0 (s : string) : string :=
  match s with
  | EmptyString => EmptyString
  | String c _ => String c EmptyString
  end.

Definition slice1 (s : string) : string :=
  match s with
  | EmptyString => EmptyString
  | String _ s' => s'
  end.

(** The first [n] code units of [s]. *)
Fixpoint take (n : nat) (s : string) : string :=
  match n, s with
  | S n', String c s' => String c (take n' s')
  | _, _ => EmptyString
  end.

(** [parseInt] of a string of decimal digits. *)
Fixpoint parseDigits (acc : Z) (s : string) : Z :=
  match s with
  | EmptyString => acc
  | String c s' => parseDigits (10 * acc + (Z.of_N (code c) - 48)) s'
  end.

Definition parseInt (s : string) : Z := parseDigits 0 s.

End JSString.

(* ================================================================== *)
(** ** Regular expressions

    The patterns of the source are written as terms of [regex] and run by a
    backtracking matcher in continuation-passing style: [Alt] tries its left
    branch first, a greedy [Star] tries one more iteration before it tries
    to stop, a lazy one the other way round, and an iteration that consumes
    nothing is rejected, as in ECMAScript. *)

Module Regex.
Import JSString.

Inductive regex : Type :=
| Eps : regex
| Cls : (ascii -> bool) -> regex
| Seq : regex -> regex -> regex
| Alt : regex -> regex -> regex
| Star : bool -> regex -> regex
| Grp : nat -> regex -> regex
| WordB : regex.

(** The matcher's state: the code unit before the current position (for
    [\b]), the input from the current position on, and the captures. *)
Record mstate : Type := MState {
  prev : option ascii;
  rest : string;
  caps : list (nat * string)
}.

Definition wordBefore (st : mstate) : bool :=
  match prev st with Some c => isWordChar c | None => false end.

Definition wordAfter (st : mstate) : bool :=
  match rest st with String c _ => isWordChar c | EmptyString => false end.

Definition atBoundary (st : mstate) : bool := xorb (wordBefore st) (wordAfter st).

(** What a group captured: the input between where it started and [st]. *)
Definition captured (start : mstate) (st : mstate) : string :=
  take (String.length (rest start) - String.length (rest st)) (rest start).

Definition setCap (n : nat) (start st : mstate) : mstate :=
  MState (prev st) (rest st) ((n, captured start st) :: caps st).

Definition orElse {A : Type} (a b : option A) : option A :=
  match a with Some _ => a | None => b end.

Fixpoint run (r : regex) (st : mstate) (k : mstate -> option mstate)
  {struct r} : option mstate :=
  match r with
  | Eps => k st
  | Cls p =>
      match rest st with
      | String c s' => if p c then k (MState (Some c) s' (caps st)) else None
      | EmptyString => None
      end
  | Seq r1 r2 => run r1 st (fun st1 => run r2 st1 k)
  | Alt r1 r2 => orElse (run r1 st k) (run r2 st k)
  | Star greedy r1 =>
      (fix loop (fuel : nat) (st0 : mstate) {struct fuel} : option mstate :=
         match fuel with
         | O => k st0
         | S fuel' =>
             let again :=
               run r1 st0 (fun st1 =>
                 if Nat.ltb (String.length (rest st1)) (String.length (rest st0))
                 then loop fuel' st1 else None) in
             if greedy then orElse again (k st0) else orElse (k st0) again
         end) (String.length (rest st)) st
  | Grp n r1 => run r1 st (fun st1 => k (setCap n st st1))
  | WordB => if atBoundary st then k st else None
  end.

(** Derived forms. *)
Definition plus (r : regex) : regex := Seq r (Star true r).
Definition opt (r : regex) : regex := Alt r Eps.
Definition star (r : regex) : regex := Star true r.
Definition lazyStar (r : regex) : regex := Star false r.

(** One code unit; under the flag [i] the comparison ignores case. *)
Definition chr (ci : bool) (c : ascii) : regex :=
  Cls (fun x => if ci then Ascii.eqb (lowerChar x) (lowerChar c) else Ascii.eqb x c).

Fixpoint lit (ci : bool) (s : string) : regex :=
  match s with
  | EmptyString => Eps
  | String c EmptyString => chr ci c
  | String c s' => Seq (chr ci c) (lit ci s')
  end.

Fixpoint alts (l : list regex) : regex :=
  match l with
  | [] => Cls (fun _ => false)
  | [r] => r
  | r :: l' => Alt r (alts l')
  end.

Fixpoint seqs (l : list regex) : regex :=
  match l with
  | [] => Eps
  | [r] => r
  | r :: l' => Seq r (seqs l')
  end.

Definition digit : regex := Cls isDigit.
Definition space : regex := Cls isWhiteSpace.
Definition dot : regex := Cls (fun c => negb (isLineTerminator c)).

(** The result of a successful match. *)
Record result : Type := Result {
  index : nat;
  matched : string;
  groups : list (nat * string);
  final : mstate
}.

(** The capture of group [n]; [None] when the group took no part. *)
Fixpoint group (n : nat) (l : list (nat * string)) : option string :=
  match l with
  | [] => None
  | (m, s) :: l' => if Nat.eqb m n then Some s else group n l'
  end.

Definition matchAt (r : regex) (p : option ascii) (s : string) : option mstate :=
  run r (MState p s []) Some.

(** The leftmost match at or after the current position, which has offset
    [i]. *)
Fixpoint search (r : regex) (p : option ascii) (s : string) (i : nat)
  : option result :=
  match matchAt r p s with
  | Some st => Some (Result i (captured (MState p s []) st) (caps st) st)
  | None =>
      match s with
      | EmptyString => None
      | String c s' => search r (Some c) s' (S i)
      end
  end.

(** [s.match(r)] and a first [r.exec(s)], for [r] without the flag [g]. *)
Definition exec (r : regex) (s : string) : option result := search r None s 0.

(** [r.test(s)] *)
Definition test (r : regex) (s : string) : bool :=
  match exec r s with Some _ => true | None => false end.

(** Every match of a pattern with the flag [g], left to right: the loop
    [while ((m = r.exec(s)) !== null)] and [s.match(r)].  The next search
    starts where the match ended; after an empty match it starts one code
    unit further, which no pattern of the source needs, as none of them
    matches the empty string. *)
Fixpoint matchAllFrom (fuel : nat) (r : regex) (p : option ascii) (s : string)
  (i : nat) : list result :=
  match fuel with
  | O => []
  | S fuel' =>
      match search r p s i with
      | None => []
      | Some res =>
          let st := final res in
          let j := (index res + String.length (matched res))%nat in
          match matched res, rest st with
          | EmptyString, EmptyString => [res]
          | EmptyString, String c s' =>
              res :: matchAllFrom fuel' r (Some c) s' (S j)
          | _, _ => res :: matchAllFrom fuel' r (prev st) (rest st) j
          end
      end
  end.

Definition matchAll (r : regex) (s : string) : list result :=
  matchAllFrom (S (String.length s)) r None s 0.

End Regex.

(* ================================================================== *)
(** ** The candidate profile (the object [extractInformation] returns) *)

Module Profile.

(** A role found in the resume: [{ title, years, rawLine }] from the
    lexicon scan, [{ title, company, years: null }] from the patterns. *)
Record RoleRecord : Type := Role {
  title : string;
  years : option Z;
  company : option string;
  rawLine : option string
}.

(** The keys of [roleTypes], and ['General'] of [determinePrimaryRole]. *)
Inductive RoleType : Type :=
| Engineering | Product | Design | Data | Management | General.

Definition RoleType_eqb (a b : RoleType) : bool :=
  match a, b with
  | Engineering, Engineering | Product, Product | Design, Design
  | Data, Data | Management, Management | General, General => true
  | _, _ => false
  end.

(** An entry of [experienceMap]: [{ years, roles }]. *)
Record Experience : Type := Exp {
  expYears : Z;
  expRoles : list string
}.

Definition ExperienceMap : Type := list (RoleType * Experience).

(** [experienceMap[type]] *)
Fixpoint lookup (t : RoleType) (m : ExperienceMap) : option Experience :=
  match m with
  | [] => None
  | (t', e) :: m' => if RoleType_eqb t' t then Some e else lookup t m'
  end.

Record Skills : Type := MkSkills {
  technical : list string;
  tools : list string;
  other : list string
}.

Inductive Seniority : Type := entry | mid | senior | manager.

(** [{ type, title, yearsInRole }]; the object built for a resume without
    roles has no [yearsInRole]. *)
Record PrimaryRole : Type := Primary {
  type : RoleType;
  primaryTitle : string;
  yearsInRole : option Z
}.

Record t : Type := MkProfile {
  rawText : string;
  roles : list RoleRecord;
  experienceByRole : ExperienceMap;
  totalYearsExperience : Z;
  skills : Skills;
  seniorityLevel : Seniority;
  education : list string;
  primaryRole : option PrimaryRole;
  keywords : list string
}.

End Profile.

(* ================================================================== *)
(** ** [ResumeParser] (src/services/resumeParser.js) *)

Module ResumeParser.
Import JSString Regex Profile.

Definition LF : ascii := "010"%char.

Definition roleTitles : list string := [
  (* Engineering *)
  "software engineer"; "senior software engineer"; "staff engineer"; "principal engineer";
  "frontend engineer"; "backend engineer"; "full stack engineer"; "fullstack engineer";
  "devops engineer"; "site reliability engineer"; "sre"; "platform engineer";
  "data engineer"; "machine learning engineer"; "ml engineer"; "ai engineer";
  "qa engineer"; "test engineer"; "automation engineer";
  (* Product & Design *)
  "product manager"; "senior product manager"; "product owner"; "program manager";
  "product designer"; "ux designer"; "ui designer"; "ux/ui designer";
  "graphic designer"; "visual designer"; "interaction designer";
  (* Data *)
  "data scientist"; "data analyst"; "business analyst"; "analytics engineer";
  (* Management *)
  "engineering manager"; "technical lead"; "tech lead"; "team lead";
  "director of engineering"; "vp of engineering"; "cto"; "ceo";
  "project manager"; "scrum master"; "agile coach";
  (* Marketing & Sales *)
  "marketing manager"; "digital marketing"; "content manager"; "seo specialist";
  "sales manager"; "account executive"; "business development";
  (* Other *)
  "consultant"; "analyst"; "specialist"; "coordinator"; "administrator";
  "intern"; "associate"; "junior"; "senior"; "lead"; "head of"; "chief"
].

Definition technicalSkills : list string := [
  (* Programming Languages *)
  "javascript"; "typescript"; "python"; "java"; "c++"; "c#"; "go"; "golang"; "rust";
  "ruby"; "php"; "swift"; "kotlin"; "scala"; "r"; "matlab"; "sql";
  (* Frontend *)
  "react"; "reactjs"; "react.js"; "angular"; "vue"; "vuejs"; "vue.js"; "svelte";
  "next.js"; "nextjs"; "nuxt"; "gatsby"; "html"; "css"; "sass"; "scss"; "tailwind";
  (* Backend *)
  "node.js"; "nodejs"; "express"; "django"; "flask"; "fastapi"; "spring"; "spring boot";
  ".net"; "rails"; "laravel"; "graphql"; "rest api"; "microservices";
  (* Databases *)
  "mysql"; "postgresql"; "postgres"; "mongodb"; "redis"; "elasticsearch";
  "dynamodb"; "cassandra"; "sqlite"; "oracle"; "sql server";
  (* Cloud & DevOps *)
  "aws"; "amazon web services"; "azure"; "gcp"; "google cloud";
  "docker"; "kubernetes"; "k8s"; "terraform"; "ansible"; "jenkins";
  "ci/cd"; "github actions"; "gitlab"; "circleci";
  (* Data & ML *)
  "tensorflow"; "pytorch"; "scikit-learn"; "pandas"; "numpy"; "spark";
  "hadoop"; "kafka"; "airflow"; "tableau"; "power bi";
  (* Tools *)
  "git"; "jira"; "confluence"; "figma"; "sketch"; "adobe xd"; "photoshop";
  "agile"; "scrum"; "kanban"
].

Definition seniorityIndicators : list (Seniority * list string) := [
  (entry, ["intern"; "internship"; "junior"; "entry level"; "associate"; "graduate"; "trainee"]);
  (mid, ["mid-level"; "mid level"; "intermediate"; "2+ years"; "3+ years"; "2-4 years"]);
  (senior, ["senior"; "sr."; "lead"; "principal"; "5+ years"; "6+ years"; "7+ years"]);
  (manager, ["manager"; "director"; "head of"; "vp"; "chief"; "c-level"; "executive"])
].

(** [title.split(' ').map(w => w.charAt(0).toUpperCase() + w.slice(1).toLowerCase()).join(' ')] *)
Definition capitalizeTitle (title : string) : string :=
  join " "
    (map (fun word => toUpperCase (charAt0 word) ++ toLowerCase (slice1 word))
         (split " " title)).

(** The capture of group [n] of a match. *)
Definition capture (n : nat) (m : result) : string :=
  match group n (groups m) with Some s => s | None => EmptyString end.

Definition fourDigits : regex := seqs [digit; digit; digit; digit].

(** [/(\d{4})\s*[-\u2013]\s*(\d{4}|present|current)/i]; of the class of the
    two dashes the hyphen, the en dash U+2013 being above U+00FF. *)
Definition yearPattern : regex :=
  seqs [ Grp 1 fourDigits; star space; chr true "-"; star space;
         Grp 2 (alts [fourDigits; lit true "present"; lit true "current"]) ].

(** The outcome of a call that may throw. *)
Inductive Outcome (A : Type) : Type :=
| Returned : A -> Outcome A
| Thrown : string -> Outcome A.

Arguments Returned {A} _.
Arguments Thrown {A} _.

Section WithClock.

(** [new Date().getFullYear()] *)
Variable currentYear : Z.

Definition parseRoleLine (line matchedRole : string) : RoleRecord :=
  let cleanLine := trim line in
  let years :=
    match exec yearPattern cleanLine with
    | Some yearMatch =>
        let startYear := parseInt (capture 1 yearMatch) in
        let endYear :=
          if (String.eqb (toLowerCase (capture 2 yearMatch)) "present"
              || String.eqb (toLowerCase (capture 2 yearMatch)) "current")%bool
          then currentYear
          else parseInt (capture 2 yearMatch) in
        Some (endYear - startYear)
    | None => None
    end in
  let title := capitalizeTitle matchedRole in
  Role title years None (Some cleanLine).

(** [r.title.toLowerCase() === title.toLowerCase()] *)
Definition sameTitle (a b : string) : bool :=
  String.eqb (toLowerCase a) (toLowerCase b).

(** [if (!foundRoles.some(r => sameTitle r info)) foundRoles.push(info)] *)
Definition pushRole (foundRoles : list RoleRecord) (info : RoleRecord)
  : list RoleRecord :=
  if existsb (fun r => sameTitle (title r) (title info)) foundRoles
  then foundRoles else (foundRoles ++ [info])%list.

(** The title shared by the two [rolePatterns]:
    [([A-Z][a-zA-Z\s]+(?:Engineer|Developer|...|Consultant))], under the
    flag [i], so [[A-Z]] is any ASCII letter. *)
Definition titleSuffixes : list string :=
  ["Engineer"; "Developer"; "Designer"; "Manager"; "Analyst"; "Scientist";
   "Lead"; "Director"; "Specialist"; "Consultant"].

Definition titleGroup : regex :=
  Grp 1 (seqs [ Cls isLetter;
                plus (Cls (fun c => isLetter c || isWhiteSpace c)%bool);
                alts (map (lit true) titleSuffixes) ]).

(** [([A-Za-z0-9\s&.]+)] *)
Definition companyGroup : regex :=
  Grp 2 (plus (Cls (fun c => isLetter c || isDigit c || isWhiteSpace c
                            || Ascii.eqb c "&" || Ascii.eqb c ".")%bool)).

Definition rolePatterns : list regex := [
  (* /(title)\s+(?:at|@|\||-)\s+(company)/gi *)
  seqs [ titleGroup; plus space;
         alts [lit true "at"; chr true "@"; chr true "|"; chr true "-"];
         plus space; companyGroup ];
  (* /(title)\s*[\n,]\s*(company)/gi *)
  seqs [ titleGroup; star space;
         Cls (fun c => Ascii.eqb c LF || Ascii.eqb c ",")%bool;
         star space; companyGroup ]
].

(** The roles the first loop of [extractRoles] offers to [foundRoles],
    in the order it meets them: line by line, and on a line in the order of
    [roleTitles]. *)
Definition lexiconCandidates (text : string) : list RoleRecord :=
  flat_map
    (fun line =>
       let normalizedLine := trim (toLowerCase line) in
       flat_map
         (fun role =>
            if includes normalizedLine role then [parseRoleLine line role] else [])
         roleTitles)
    (split LF text).

(** The roles its second loop offers: every match of the first pattern, then
    every match of the second. *)
Definition patternCandidates (text : string) : list RoleRecord :=
  flat_map
    (fun pattern =>
       map (fun m => Role (trim (capture 1 m)) None (Some (trim (capture 2 m))) None)
           (matchAll pattern text))
    rolePatterns.

Definition extractRoles (text normalizedText : string) : list RoleRecord :=
  fold_left pushRole (lexiconCandidates text ++ patternCandidates text)%list [].

Definition roleTypes : list (RoleType * list string) := [
  (Engineering, ["engineer"; "developer"; "architect"; "devops"; "sre"]);
  (Product, ["product manager"; "product owner"; "program manager"]);
  (Design, ["designer"; "ux"; "ui"]);
  (Data, ["data scientist"; "data analyst"; "data engineer"; "ml engineer"]);
  (Management, ["manager"; "director"; "lead"; "head of"; "vp"; "chief"])
].

(** What [if (role.years) years += role.years] adds: nothing for [null]
    and for 0. *)
Definition truthyYears (y : option Z) : Z :=
  match y with Some n => n | None => 0 end.

(** One pass of the inner loop body for a type the role belongs to: create
    the entry if it is missing, push the title, add the years. *)
Fixpoint addRole (t : RoleType) (role : RoleRecord) (m : ExperienceMap)
  : ExperienceMap :=
  match m with
  | [] => [(t, Exp (0 + truthyYears (years role)) [title role])]
  | (t', e) :: m' =>
      if RoleType_eqb t' t
      then (t', Exp (expYears e + truthyYears (years role))
                    (expRoles e ++ [title role])%list) :: m'
      else (t', e) :: addRole t role m'
  end.

Definition classify (role : RoleRecord) (m : ExperienceMap) : ExperienceMap :=
  let roleTitle := toLowerCase (title role) in
  fold_left
    (fun acc '(t, keywords) =>
       if existsb (fun kw => includes roleTitle kw) keywords
       then addRole t role acc else acc)
    roleTypes m.

(** The second loop: two years per role where no years were found. *)
Definition estimate (e : Experience) : Experience :=
  if (Z.eqb (expYears e) 0 && Nat.ltb 0 (List.length (expRoles e)))%bool
  then Exp (Z.of_nat (List.length (expRoles e)) * 2) (expRoles e)
  else e.

Definition calculateExperienceByRole (text : string) (roles : list RoleRecord)
  : ExperienceMap :=
  let experienceMap := fold_left (fun acc role => classify role acc) roles [] in
  map (fun '(t, e) => (t, estimate e)) experienceMap.

Definition calculateTotalExperience (experienceByRole : ExperienceMap) : Z :=
  let total := fold_left (fun total e => total + expYears (snd e)) experienceByRole 0 in
  Z.min total 30.

(** [[...new Set(l)]]: the first occurrence of every element, in order. *)
Definition unique (l : list string) : list string :=
  fold_left (fun acc s => if existsb (String.eqb s) acc then acc else (acc ++ [s])%list) l [].

(** [new RegExp('\\b' + escaped(skill) + '\\b', 'i')] *)
Definition skillPattern (skill : string) : regex :=
  seqs [WordB; lit true skill; WordB].

Definition extractSkills (normalizedText : string) : Skills :=
  let found :=
    flat_map
      (fun skill =>
         if test (skillPattern skill) normalizedText
         then [capitalizeTitle skill] else [])
      technicalSkills in
  MkSkills (unique found) [] [].

Fixpoint firstIndicator (normalizedText : string)
  (l : list (Seniority * list string)) : option Seniority :=
  match l with
  | [] => None
  | (level, indicators) :: l' =>
      if existsb (fun indicator => includes normalizedText indicator) indicators
      then Some level else firstIndicator normalizedText l'
  end.

Definition determineSeniorityLevel (normalizedText : string)
  (experienceByRole : ExperienceMap) : Seniority :=
  let totalYears := calculateTotalExperience experienceByRole in
  match firstIndicator normalizedText seniorityIndicators with
  | Some level => level
  | None =>
      if totalYears <=? 2 then entry
      else if totalYears <=? 5 then mid
      else if totalYears <=? 10 then senior
      else manager
  end.

(** A letter followed by an optional full stop: [b\.?] *)
Definition abbr (c : ascii) : regex := Seq (chr true c) (opt (chr true ".")).

(** [/\b(level)\b.*?(field)/gi] *)
Definition degreePattern (level : regex) (fields : list string) : regex :=
  seqs [WordB; Grp 1 level; WordB; lazyStar dot; Grp 2 (alts (map (lit true) fields))].

Definition degreePatterns : list regex := [
  (* bachelor'?s?|b\.?s\.?|b\.?a\.? *)
  degreePattern
    (alts [ seqs [lit true "bachelor"; opt (chr true "'"); opt (chr true "s")];
            Seq (abbr "b") (abbr "s"); Seq (abbr "b") (abbr "a") ])
    ["computer science"; "engineering"; "business"; "design"; "mathematics"; "physics"];
  (* master'?s?|m\.?s\.?|m\.?a\.?|mba *)
  degreePattern
    (alts [ seqs [lit true "master"; opt (chr true "'"); opt (chr true "s")];
            Seq (abbr "m") (abbr "s"); Seq (abbr "m") (abbr "a"); lit true "mba" ])
    ["computer science"; "engineering"; "business"; "design"; "data science"];
  (* ph\.?d\.?|doctorate *)
  degreePattern
    (alts [ seqs [chr true "p"; abbr "h"; abbr "d"]; lit true "doctorate" ])
    ["computer science"; "engineering"]
].

Definition extractEducation (normalizedText : string) : list string :=
  let degrees :=
    flat_map
      (fun pattern => map (fun m => trim (matched m)) (matchAll pattern normalizedText))
      degreePatterns in
  unique degrees.

Definition determinePrimaryRole (roles : list RoleRecord)
  (experienceByRole : ExperienceMap) : PrimaryRole :=
  match roles with
  | [] => Primary General "Professional" None
  | recentRole :: _ =>
      let '(maxYears, primaryType) :=
        fold_left
          (fun '(maxYears, primaryType) '(t, data) =>
             if expYears data >? maxYears then (expYears data, t)
             else (maxYears, primaryType))
          experienceByRole (0, General) in
      Primary primaryType
        (if String.eqb (title recentRole) "" then "Professional" else title recentRole)
        (Some maxYears)
  end.

(** [/\b[A-Z][a-zA-Z]+(?:\s+[A-Z][a-zA-Z]+)*\b/g]: no flag [i] here. *)
Definition capitalizedPattern : regex :=
  let word := Seq (Cls isUpperAZ) (plus (Cls isLetter)) in
  seqs [WordB; word; star (Seq (plus space) word); WordB].

Definition commonWords : list string :=
  ["the"; "and"; "for"; "with"; "from"; "this"; "that"; "have"; "been"].

Definition extractKeywords (text : string) : list string :=
  let capitalizedWords := map matched (matchAll capitalizedPattern text) in
  let filtered :=
    filter
      (fun word =>
         (negb (existsb (String.eqb (toLowerCase word)) commonWords)
          && Nat.ltb 2 (String.length word))%bool)
      capitalizedWords in
  firstn 50 (unique filtered).

Definition extractInformation (text : string) : Profile.t :=
  let normalizedText := toLowerCase text in
  let roles := extractRoles text normalizedText in
  let experienceByRole := calculateExperienceByRole text roles in
  let skills := extractSkills normalizedText in
  let seniorityLevel := determineSeniorityLevel normalizedText experienceByRole in
  let education := extractEducation normalizedText in
  let primaryRole := determinePrimaryRole roles experienceByRole in
  MkProfile text roles experienceByRole
    (calculateTotalExperience experienceByRole)
    skills seniorityLevel education (Some primaryRole)
    (extractKeywords text).

Section WithFiles.

(** What [parse] gets from outside the class: [path.extname], and the three
    decoders, which read the file and return its text or throw. *)
Variable extname : string -> string.
Variables parsePDF parseDOCX parseTXT : string -> Outcome string.

(** What the engine adds: one call takes at most [maxArguments] arguments,
    and a call with more throws a RangeError. *)
Variable maxArguments : nat.

(** [degrees.push(...matches.map(m => m.trim()))] in [extractEducation] is a
    call with one argument for every match of the pattern: whether each of
    the three calls is within what the engine takes. *)
Definition spreads (normalizedText : string) : bool :=
  forallb
    (fun pattern =>
       Nat.leb (List.length (matchAll pattern normalizedText)) maxArguments)
    degreePatterns.

(** [this.extractInformation(text)] as a call that may throw: it throws
    where that spread does, and returns its profile otherwise. *)
Definition extractInformationOutcome (text : string) : Outcome Profile.t :=
  if spreads (toLowerCase text)
  then Returned (extractInformation text)
  else Thrown "RangeError: Maximum call stack size exceeded".

(** [async parse(filePath)]: the [catch] logs the error and throws it
    again. *)
Definition parse (filePath : string) : Outcome Profile.t :=
  let ext := toLowerCase (extname filePath) in
  let text :=
    if String.eqb ext ".pdf" then parsePDF filePath
    else if String.eqb ext ".docx" then parseDOCX filePath
    else if String.eqb ext ".txt" then parseTXT filePath
    else Thrown ("Unsupported file format: " ++ ext) in
  match text with
  | Returned text => extractInformationOutcome text
  | Thrown error => Thrown error
  end.

End WithFiles.

End WithClock.

End ResumeParser.

(* ================================================================== *)
(** ** JavaScript numbers and arrays *)

Module JSMath.

Local Open Scope Q_scope.

(** [Math.round]: the nearest integer, halves upwards. *)
Definition round (q : Q) : Z := Qfloor (q + (1 # 2)).

(** [Math.min] on fractional numbers. *)
Definition min (a b : Q) : Q := if Qle_bool a b then a else b.

Section Sort.

Context {A : Type}.

(** The comparator of [Array.prototype.sort]: negative when its first
    argument goes first. *)
Variable compareFn : A -> A -> Q.

(** [x], which came before every element of [l] in the array, is put in
    front of the first element it does not have to follow. *)
Fixpoint insert (x : A) (l : list A) : list A :=
  match l with
  | [] => [x]
  | y :: l' => if Qle_bool (compareFn x y) 0 then x :: l else y :: insert x l'
  end.

(** [Array.prototype.sort], which ECMAScript requires to be stable: for a
    comparator that is a consistent ordering the result is that of a stable
    insertion sort, whatever algorithm the engine runs. *)
Definition sort (l : list A) : list A := fold_right insert [] l.

End Sort.

End JSMath.

(* ================================================================== *)
(** ** [JobMatcher] (the job matching service) *)

Module JobMatcher.
Import JSString Regex Profile.

(** A job listing; [description] may be missing. *)
Record Job : Type := MkJob {
  title : string;
  company : string;
  location : string;
  description : option string;
  url : string;
  salary : string;
  postedDate : string;
  source : string
}.

Definition roleSynonyms : list (string * list string) := [
  ("software engineer", ["developer"; "programmer"; "swe"; "software developer"; "application developer"]);
  ("frontend engineer", ["frontend developer"; "front-end developer"; "ui developer"; "react developer"; "angular developer"]);
  ("backend engineer", ["backend developer"; "back-end developer"; "server developer"; "api developer"]);
  ("full stack engineer", ["fullstack developer"; "full-stack developer"; "full stack developer"]);
  ("data scientist", ["ml engineer"; "machine learning engineer"; "ai engineer"; "research scientist"]);
  ("data analyst", ["business analyst"; "analytics specialist"; "bi analyst"]);
  ("product manager", ["product owner"; "pm"; "program manager"]);
  ("ux designer", ["product designer"; "ui designer"; "interaction designer"; "user experience designer"]);
  ("devops engineer", ["sre"; "site reliability engineer"; "platform engineer"; "infrastructure engineer"])
].

(** [{ min, max }] in years. *)
Record Level : Type := MkLevel { min : Z; max : Z }.

Definition experienceLevels : list (string * Level) := [
  ("intern", MkLevel 0 0);
  ("entry", MkLevel 0 2);
  ("junior", MkLevel 0 2);
  ("mid", MkLevel 2 5);
  ("senior", MkLevel 5 10);
  ("staff", MkLevel 7 15);
  ("principal", MkLevel 10 20);
  ("lead", MkLevel 5 15);
  ("manager", MkLevel 5 15);
  ("director", MkLevel 8 20);
  ("vp", MkLevel 10 25)
].

Fixpoint levelOf (name : string) (l : list (string * Level)) : option Level :=
  match l with
  | [] => None
  | (n, lv) :: l' => if String.eqb n name then Some lv else levelOf name l'
  end.

Definition titlesMatch (title1 title2 : string) : bool :=
  if (String.eqb title1 "" || String.eqb title2 "")%bool then false
  else if (includes title1 title2 || includes title2 title1)%bool then true
  else
    existsb
      (fun '(canonical, synonyms) =>
         let allVariants := canonical :: synonyms in
         let title1Matches := existsb (fun v => includes title1 v) allVariants in
         let title2Matches := existsb (fun v => includes title2 v) allVariants in
         (title1Matches && title2Matches)%bool)
      roleSynonyms.

Definition families : list (string * list string) := [
  ("engineering", ["engineer"; "developer"; "programmer"; "architect"]);
  ("product", ["product manager"; "product owner"; "program manager"]);
  ("design", ["designer"; "ux"; "ui"]);
  ("data", ["data scientist"; "data analyst"; "data engineer"; "ml engineer"])
].

Definition sameRoleFamily (jobTitle candidateRole : string) : bool :=
  existsb
    (fun '(family, keywords) =>
       let jobInFamily := existsb (fun kw => includes jobTitle kw) keywords in
       let candidateInFamily := existsb (fun kw => includes candidateRole kw) keywords in
       (jobInFamily && candidateInFamily)%bool)
    families.

(** [typeKeywords[roleType] || []] *)
Definition typeKeywords (roleType : RoleType) : list string :=
  match roleType with
  | Engineering => ["engineer"; "developer"; "technical"]
  | Product => ["product"; "program"; "project"]
  | Design => ["design"; "ux"; "ui"; "creative"]
  | Data => ["data"; "analytics"; "ml"; "ai"]
  | Management => ["manager"; "lead"; "director"; "head"]
  | General => []
  end.

Definition relatedRoleType (jobTitle : string) (roleType : option RoleType) : bool :=
  match roleType with
  | None => false
  | Some ty => existsb (fun kw => includes jobTitle kw) (typeKeywords ty)
  end.

Definition calculateRoleScore (resumeData : Profile.t) (job : Job) : Z :=
  let jobTitle := toLowerCase (title job) in
  let candidateRoles := map (fun r => toLowerCase (Profile.title r)) (roles resumeData) in
  let primaryRole :=
    match primaryRole resumeData with
    | Some p => toLowerCase (primaryTitle p)
    | None => ""
    end in
  if titlesMatch jobTitle primaryRole then 100
  else if existsb (fun role => titlesMatch jobTitle role) candidateRoles then 85
  else if sameRoleFamily jobTitle primaryRole then 70
  else if relatedRoleType jobTitle (option_map type (Profile.primaryRole resumeData)) then 50
  else 20.

(** [experienceByRole[type]?.years || 0] *)
Definition yearsOf (t : RoleType) (experienceByRole : ExperienceMap) : Z :=
  match lookup t experienceByRole with
  | Some e => expYears e
  | None => 0
  end.

Definition getRelevantExperience (resumeData : Profile.t) (job : Job) : Z :=
  let jobTitle := toLowerCase (title job) in
  let experienceByRole := experienceByRole resumeData in
  if (includes jobTitle "engineer" || includes jobTitle "developer")%bool
  then yearsOf Engineering experienceByRole
  else if (includes jobTitle "product manager" || includes jobTitle "program manager")%bool
  then yearsOf Product experienceByRole
  else if (includes jobTitle "designer" || includes jobTitle "ux" || includes jobTitle "ui")%bool
  then yearsOf Design experienceByRole
  else if (includes jobTitle "data" || includes jobTitle "analyst" || includes jobTitle "ml")%bool
  then yearsOf Data experienceByRole
  else if (includes jobTitle "manager" || includes jobTitle "director" || includes jobTitle "lead")%bool
  then yearsOf Management experienceByRole
  else totalYearsExperience resumeData.

Definition extractJobLevel (jobTitle : string) : string :=
  let title := toLowerCase jobTitle in
  if includes title "intern" then "intern"
  else if (includes title "junior" || includes title "jr." || includes title "entry")%bool then "junior"
  else if includes title "principal" then "principal"
  else if includes title "staff" then "staff"
  else if (includes title "senior" || includes title "sr.")%bool then "senior"
  else if (includes title "lead" || includes title "tech lead")%bool then "lead"
  else if (includes title "manager" && negb (includes title "product manager"))%bool then "manager"
  else if includes title "director" then "director"
  else if (includes title "vp" || includes title "vice president")%bool then "vp"
  else "mid".

(** [years?] *)
Definition yearsWord : regex := Seq (lit true "year") (opt (chr true "s")).

Definition requirementPatterns : list regex := [
  (* /(\d+)\+?\s*(?:years?|yrs?)\s*(?:of\s{0,})?experience/i, where the source
     writes the last quantifier as a star *)
  seqs [ Grp 1 (plus digit); opt (chr true "+"); star space;
         Alt yearsWord (Seq (lit true "yr") (opt (chr true "s")));
         star space; opt (Seq (lit true "of") (star space)); lit true "experience" ];
  (* /(\d+)\s*-\s*(\d+)\s*years?/i *)
  seqs [ Grp 1 (plus digit); star space; chr true "-"; star space;
         Grp 2 (plus digit); star space; yearsWord ];
  (* /minimum\s*(\d+)\s*years?/i *)
  seqs [ lit true "minimum"; star space; Grp 1 (plus digit); star space; yearsWord ];
  (* /at least\s*(\d+)\s*years?/i *)
  seqs [ lit true "at least"; star space; Grp 1 (plus digit); star space; yearsWord ]
].

Fixpoint firstMatch (patterns : list regex) (s : string) : option result :=
  match patterns with
  | [] => None
  | pattern :: rest =>
      match exec pattern s with
      | Some m => Some m
      | None => firstMatch rest s
      end
  end.

Definition descriptionOf (job : Job) : string :=
  match description job with Some d => d | None => "" end.

Definition extractRequiredExperience (job : Job) : Z :=
  let description := toLowerCase (descriptionOf job) in
  match firstMatch requirementPatterns description with
  | Some m => parseInt (ResumeParser.capture 1 m)
  | None =>
      let level := extractJobLevel (title job) in
      match levelOf level experienceLevels with
      | Some lv => if Z.eqb (min lv) 0 then 2 else min lv
      | None => 2
      end
  end.

Definition calculateExperienceScore (resumeData : Profile.t) (job : Job) : Z :=
  let jobTitle := toLowerCase (title job) in
  let requiredYears := extractRequiredExperience job in
  let jobLevel := extractJobLevel jobTitle in
  let relevantExperience := getRelevantExperience resumeData job in
  let candidateLevel := seniorityLevel resumeData in
  let levelRequirements :=
    match levelOf jobLevel experienceLevels with
    | Some lv => lv
    | None => MkLevel 0 100
    end in
  let score :=
    if ((min levelRequirements <=? relevantExperience)
        && (relevantExperience <=? max levelRequirements + 2))%bool
    then 100
    else if ((min levelRequirements - 1 <=? relevantExperience)
             && (relevantExperience <=? max levelRequirements + 3))%bool
    then 80
    else if relevantExperience <? min levelRequirements
    then
      let gap := min levelRequirements - relevantExperience in
      Z.max 0 (70 - gap * 15)
    else
      let gap := relevantExperience - max levelRequirements in
      Z.max 40 (90 - gap * 10) in
  if ((totalYearsExperience resumeData >? 5) && (relevantExperience <? 3))%bool
  then
    if (String.eqb jobLevel "senior" || String.eqb jobLevel "lead"
        || String.eqb jobLevel "manager")%bool
    then Z.min score 40
    else if (String.eqb jobLevel "mid" || String.eqb jobLevel "junior"
             || String.eqb jobLevel "entry")%bool
    then Z.max score 70
    else score
  else score.

Definition technicalTerms : list string := [
  "javascript"; "python"; "java"; "react"; "node"; "aws"; "sql"; "docker";
  "kubernetes"; "agile"; "scrum"; "typescript"; "angular"; "vue"; "go";
  "postgresql"; "mongodb"; "redis"; "graphql"; "rest"; "api"; "ci/cd";
  "figma"; "sketch"; "adobe"; "analytics"; "tableau"; "spark"
].

(** How many strings of [l] occur in [text]: the two counting loops. *)
Definition countIncluded (text : string) (l : list string) : Z :=
  fold_left (fun n s => if includes text s then n + 1 else n) l 0.

(** [`${jobTitle} ${jobDescription}`], both in lower case. *)
Definition textOf (job : Job) : string :=
  let jobDescription := toLowerCase (descriptionOf job) in
  let jobTitle := toLowerCase (title job) in
  jobTitle ++ " " ++ jobDescription.

Definition calculateContentScore (resumeData : Profile.t) (job : Job) : Z :=
  let candidateSkills := map toLowerCase (technical (skills resumeData)) in
  let candidateKeywords := map toLowerCase (keywords resumeData) in
  let allCandidateTerms := (candidateSkills ++ candidateKeywords)%list in
  let jobText := textOf job in
  let matchedSkills := countIncluded jobText candidateSkills in
  let totalJobSkills := countIncluded jobText technicalTerms in
  if Z.eqb totalJobSkills 0
  then (if Nat.ltb 0 (List.length candidateSkills) then 75 else 50)
  else
    let matchRatio := (inject_Z matchedSkills / inject_Z (Z.max totalJobSkills 1))%Q in
    let score := JSMath.min 100 (matchRatio * 120)%Q in
    JSMath.round score.

(** [{ role, experience, content, total }] *)
Record Scores : Type := MkScores {
  role : Z;
  experience : Z;
  content : Z;
  total : Q
}.

Definition calculateMatchScore (resumeData : Profile.t) (job : Job) : Scores :=
  let roleScore := calculateRoleScore resumeData job in
  let experienceScore := calculateExperienceScore resumeData job in
  let contentScore := calculateContentScore resumeData job in
  let total := (inject_Z roleScore * 0.40 + inject_Z experienceScore * 0.35
                + inject_Z contentScore * 0.25)%Q in
  MkScores roleScore experienceScore contentScore
    (inject_Z (JSMath.round (total * 100)) / 100)%Q.

Definition calculateConfidence (scores : Scores) : Z :=
  let total := total scores in
  if Qle_bool 85 total
  then Z.min 95 (JSMath.round (90 + (total - 85) * 0.33))
  else if Qle_bool 60 total
  then JSMath.round (70 + (total - 60) * 0.76)
  else if Qle_bool 40 total
  then JSMath.round (50 + (total - 40) * 0.95)
  else JSMath.round (total * 1.25).

(** [{ ...job, matchScore, scores, confidence }] *)
Record ScoredJob : Type := MkScored {
  job : Job;
  matchScore : Q;
  scores : Scores;
  confidence : Z
}.

(** [{ recommended, worthExploring, all }] *)
Record Matches : Type := MkMatches {
  recommended : list ScoredJob;
  worthExploring : list ScoredJob;
  all : list ScoredJob
}.

Definition scoreJob (resumeData : Profile.t) (job : Job) : ScoredJob :=
  let scores := calculateMatchScore resumeData job in
  MkScored job (total scores) scores (calculateConfidence scores).

(** [(a, b) => b.matchScore - a.matchScore] *)
Definition byScoreDescending (a b : ScoredJob) : Q :=
  (matchScore b - matchScore a)%Q.

Definition matchJobs (resumeData : Profile.t) (jobs : list Job) : Matches :=
  let scoredJobs := JSMath.sort byScoreDescending (map (scoreJob resumeData) jobs) in
  let recommended :=
    filter (fun job => (90 <=? confidence job) && (confidence job <=? 95))%bool scoredJobs in
  let worthExploring :=
    filter (fun job => (70 <=? confidence job) && (confidence job <? 90))%bool scoredJobs in
  MkMatches recommended worthExploring scoredJobs.

(** [resumeData.primaryRole?.title || 'background'] *)
Definition backgroundOf (resumeData : Profile.t) : string :=
  match primaryRole resumeData with
  | Some p => if String.eqb (primaryTitle p) "" then "background" else primaryTitle p
  | None => "background"
  end.

(** The explanations shown with a match: about the role, then about the
    experience, then about the skills. *)
Definition generateMatchExplanation (scores : Scores) (resumeData : Profile.t)
  (job : Job) : list string :=
  let roleExplanation :=
    if 85 <=? role scores
    then ["Strong role alignment with your " ++ backgroundOf resumeData]
    else if 60 <=? role scores
    then ["Related to your career experience"]
    else [] in
  let experienceExplanation :=
    if 80 <=? experience scores
    then ["Experience level matches well"]
    else if 60 <=? experience scores
    then ["Slight stretch for experience level"]
    else if experience scores <? 50
    then ["May require more experience in this specific area"]
    else [] in
  let skillsExplanation :=
    if 70 <=? content scores
    then ["Many of your skills match the requirements"]
    else [] in
  (roleExplanation ++ experienceExplanation ++ skillsExplanation)%list.

End JobMatcher.

(* ================================================================== *)
(** ** [JobSearchService] (src/services/jobSearch.js)

    A job listing is a [JobMatcher.Job]; of its fields the functions below
    read the title and the company only. *)

Module JobSearch.
Import JSString Profile.

Definition LF : string := String ResumeParser.LF EmptyString.

(** [prefixes[level] || ''] *)
Definition getSeniorityPrefix (level : Seniority) : string :=
  match level with
  | entry => "Junior"
  | mid => ""
  | senior => "Senior"
  | manager => "Lead"
  end.

(** [roleKeywords[type] || []] *)
Definition roleKeywords (ty : RoleType) : list string :=
  match ty with
  | Engineering => ["Software Engineer"; "Developer"; "Full Stack Engineer"]
  | Product => ["Product Manager"; "Program Manager"; "Product Owner"]
  | Design => ["Product Designer"; "UX Designer"; "UI Designer"]
  | Data => ["Data Scientist"; "Data Analyst"; "Data Engineer"; "Business Analyst"; "Analyst"]
  | Management => ["Engineering Manager"; "Technical Lead"; "Team Lead"]
  | General => []
  end.

(** The pushes of [buildSearchQueries], in order, before duplicates are
    removed. *)
Definition candidateQueries (resumeData : Profile.t) : list string :=
  let seniorityPrefix := getSeniorityPrefix (seniorityLevel resumeData) in
  let primaryTitle :=
    match primaryRole resumeData with Some p => primaryTitle p | None => "" end in
  let forTitle :=
    if String.eqb primaryTitle "" then []
    else [primaryTitle; trim (seniorityPrefix ++ " " ++ primaryTitle)] in
  let forType :=
    match primaryRole resumeData with
    | Some p => map (fun keyword => trim (seniorityPrefix ++ " " ++ keyword))
                    (roleKeywords (type p))
    | None => []
    end in
  let titleLower := toLowerCase primaryTitle in
  let forAnalyst :=
    if includes titleLower "analyst"
    then ["Analyst"; "Business Analyst"; "Data Analyst";
          trim (seniorityPrefix ++ " Analyst")]
    else [] in
  let topSkills := firstn 2 (technical (skills resumeData)) in
  let forSkills :=
    if (Nat.ltb 0 (List.length topSkills) && negb (String.eqb primaryTitle ""))%bool
    then map (fun skill => skill ++ " " ++ primaryTitle) topSkills
    else [] in
  (forTitle ++ forType ++ forAnalyst ++ forSkills)%list.

(** [[...new Set(queries)].slice(0, 5)] *)
Definition buildSearchQueries (resumeData : Profile.t) : list string :=
  firstn 5 (ResumeParser.unique (candidateQueries resumeData)).

Definition getTitleVariations (baseTitle : string) (seniorityLevel : Seniority)
  : list string :=
  let variations := [baseTitle] in
  if (includes baseTitle "Senior" || includes baseTitle "Junior"
      || includes baseTitle "Lead" || includes baseTitle "Staff")%bool
  then variations
  else
    match seniorityLevel with
    | entry =>
        (variations ++ [("Junior " ++ baseTitle)%string; ("Associate " ++ baseTitle)%string])%list
    | mid =>
        (variations ++ [baseTitle; (baseTitle ++ " II")%string])%list
    | senior =>
        (variations ++ [("Senior " ++ baseTitle)%string; ("Staff " ++ baseTitle)%string])%list
    | manager =>
        (variations ++ [("Lead " ++ baseTitle)%string; ("Principal " ++ baseTitle)%string])%list
    end.

Definition responsibilities : list string := [
  "Design and implement scalable solutions";
  "Collaborate with cross-functional teams";
  "Write clean, maintainable code";
  "Participate in code reviews";
  "Mentor junior team members";
  "Drive technical decisions";
  "Optimize application performance";
  "Work with stakeholders to define requirements"
].

(** [skills.slice(0, 3).join(', ') || 'modern technologies'] *)
Definition skillsPhrase (skills : list string) : string :=
  let joined := join ", " (firstn 3 skills) in
  if String.eqb joined "" then "modern technologies" else joined.

Definition requirements (skills : list string) : list string := [
  "Experience with " ++ skillsPhrase skills;
  "Strong problem-solving skills";
  "Excellent communication abilities";
  "Bachelor's degree in Computer Science or related field";
  "Experience working in agile environments"
].

Definition generateJobDescription (title company : string) (skills : list string)
  : string :=
  "Join " ++ company ++ " as a " ++ title ++ "!" ++ LF ++ LF
  ++ "Responsibilities:" ++ LF ++ "- "
  ++ join (LF ++ "- ") (firstn 4 responsibilities) ++ LF ++ LF
  ++ "Requirements:" ++ LF ++ "- "
  ++ join (LF ++ "- ") (firstn 3 (requirements skills)).

(** [`${job.title.toLowerCase()}-${job.company.toLowerCase()}`] *)
Definition keyOf (job : JobMatcher.Job) : string :=
  toLowerCase (JobMatcher.title job) ++ "-" ++ toLowerCase (JobMatcher.company job).

(** The filter of [deduplicateJobs], with the set [seen] it fills. *)
Fixpoint keepUnseen (seen : list string) (jobs : list JobMatcher.Job)
  : list JobMatcher.Job :=
  match jobs with
  | [] => []
  | job :: jobs' =>
      let key := keyOf job in
      if existsb (String.eqb key) seen then keepUnseen seen jobs'
      else job :: keepUnseen (key :: seen) jobs'
  end.

Definition deduplicateJobs (jobs : list JobMatcher.Job) : list JobMatcher.Job :=
  keepUnseen [] jobs.

Section Shuffle.

Context {A : Type}.

(** [random k] is what the call number [k] of [Math.random()] returns, a
    number from 0 up to but not including 1. *)
Variable random : nat -> Q.

(** [array[i] = x] for an index of the array. *)
Fixpoint assign (i : nat) (x : A) (array : list A) : list A :=
  match array, i with
  | [], _ => []
  | _ :: rest, O => x :: rest
  | y :: rest, S i' => y :: assign i' x rest
  end.

(** [[shuffled[i], shuffled[j]] = [shuffled[j], shuffled[i]]].  Both
    indices are indices of the array, [j] being at most [i] for a random
    number below 1; for other indices, which the loop does not produce, the
    array is left as it is. *)
Definition swap (i j : nat) (shuffled : list A) : list A :=
  match nth_error shuffled j, nth_error shuffled i with
  | Some atJ, Some atI => assign j atI (assign i atJ shuffled)
  | _, _ => shuffled
  end.

(** The loop [for (let i = length - 1; i > 0; i--)], whose next call of
    [Math.random()] is the call number [k]. *)
Fixpoint shuffleFrom (k : nat) (i : nat) (shuffled : list A) : list A :=
  match i with
  | O => shuffled
  | S i' =>
      let j := Z.to_nat (Qfloor (random k * inject_Z (Z.of_nat (i + 1)))) in
      shuffleFrom (S k) i' (swap i j shuffled)
  end.

Definition shuffleArray (array : list A) : list A :=
  shuffleFrom 0 (List.length array - 1) array.

End Shuffle.

Section WithSources.

(** The API keys of the environment, [None] when a variable is not set. *)
Variables linkedinScraperApiKey jsearchApiKey adzunaAppId adzunaAppKey : option string.

(** How the promise of each source settles for a list of queries: fulfilled
    with listings, or rejected. *)
Variables searchLinkedIn searchJSearch searchAdzuna :
  list string -> ResumeParser.Outcome (list JobMatcher.Job).

(** The mock listings, which are drawn at random. *)
Variable getMockJobs : Profile.t -> list JobMatcher.Job.

(** A key as a condition: set, and not the empty string. *)
Definition configured (key : option string) : bool :=
  match key with
  | Some k => negb (String.eqb k "")
  | None => false
  end.

(** The calls [searchJobs] starts, in order. *)
Definition apiCalls (searchQueries : list string)
  : list (ResumeParser.Outcome (list JobMatcher.Job)) :=
  ((if configured linkedinScraperApiKey then [searchLinkedIn searchQueries] else [])
   ++ (if configured jsearchApiKey then [searchJSearch searchQueries] else [])
   ++ (if (configured adzunaAppId && configured adzunaAppKey)%bool
       then [searchAdzuna searchQueries] else []))%list.

(** [results.forEach]: the listings of the fulfilled promises, in order. *)
Definition collect (results : list (ResumeParser.Outcome (list JobMatcher.Job)))
  : list JobMatcher.Job :=
  fold_left
    (fun allJobs result =>
       match result with
       | ResumeParser.Returned value => (allJobs ++ value)%list
       | ResumeParser.Thrown _ => allJobs
       end)
    results [].

Definition searchJobs (resumeData : Profile.t) : list JobMatcher.Job :=
  let searchQueries := buildSearchQueries resumeData in
  let allJobs := collect (apiCalls searchQueries) in
  let allJobs :=
    if Nat.eqb (List.length allJobs) 0 then getMockJobs resumeData else allJobs in
  deduplicateJobs allJobs.

End WithSources.

End JobSearch.

(* ================================================================== *)
(** * The vocabulary of the statements *)

Import JSString Regex Profile.

Definition seniorLevels : list string := ["senior"; "lead"; "manager"].
Definition accessibleLevels : list string := ["junior"; "entry"; "mid"].

Definition job_titled (t : string) (d : option string) : JobMatcher.Job :=
  JobMatcher.MkJob t "" "" d "" "" "" "".

(** A candidate with 8 years in all, 2 of them in Product. *)
Definition pivoter : Profile.t :=
  MkProfile "" [] [(Engineering, Exp 6 []); (Product, Exp 2 [])] 8
    (MkSkills [] [] []) senior [] None [].

Definition primaryTitleOf (p : Profile.t) : string :=
  match primaryRole p with Some r => primaryTitle r | None => "" end.

(** The lower-case titles of the roles the candidate held. *)
Definition historicalTitles (p : Profile.t) : list string :=
  map (fun r => toLowerCase (Profile.title r)) (roles p).

(** A candidate whose one role, [title], is the primary role. *)
Definition with_primary (ty : RoleType) (title : string) : Profile.t :=
  MkProfile "" [Role title None None None] [(ty, Exp 2 [title])] 2
    (MkSkills [] [] []) entry []
    (Some (Primary ty title (Some 2))) [].

(** A designer who was a software engineer before. *)
Definition designer_was_engineer : Profile.t :=
  MkProfile ""
    [Role "UX Designer" None None None; Role "Software Engineer" None None None]
    [(Design, Exp 2 ["UX Designer"]); (Engineering, Exp 2 ["Software Engineer"])] 4
    (MkSkills [] [] []) mid []
    (Some (Primary Design "UX Designer" (Some 2))) [].

(** The scores of a posting whose total is [t]. *)
Definition scores_with_total (t : Q) : JobMatcher.Scores := JobMatcher.MkScores 0 0 0 t.

(** [steps r a b]: the matcher can go from state [a] to state [b] through
    [r]. *)
Inductive steps : regex -> mstate -> mstate -> Prop :=
| steps_eps : forall a, steps Eps a a
| steps_cls : forall (p : ascii -> bool) pv c s cs,
    p c = true ->
    steps (Cls p) (MState pv (String c s) cs) (MState (Some c) s cs)
| steps_seq : forall r1 r2 a b c,
    steps r1 a b -> steps r2 b c -> steps (Seq r1 r2) a c
| steps_alt_l : forall r1 r2 a b, steps r1 a b -> steps (Alt r1 r2) a b
| steps_alt_r : forall r1 r2 a b, steps r2 a b -> steps (Alt r1 r2) a b
| steps_star_stop : forall g r a, steps (Star g r) a a
| steps_star_more : forall g r a b c,
    steps r a b -> steps (Star g r) b c -> steps (Star g r) a c
| steps_grp : forall n r a b, steps r a b -> steps (Grp n r) a (setCap n a b)
| steps_wordb : forall a, atBoundary a = true -> steps WordB a a.

(** Whether [r] has a group numbered [n]. *)
Fixpoint mentions (n : nat) (r : regex) : bool :=
  match r with
  | Grp m r1 => (Nat.eqb m n || mentions n r1)%bool
  | Seq r1 r2 | Alt r1 r2 => (mentions n r1 || mentions n r2)%bool
  | Star _ r1 => mentions n r1
  | Eps | Cls _ | WordB => false
  end.

(** A result comes from a run of the pattern that started without
    captures. *)
Definition from_run (r : regex) (res : result) : Prop :=
  exists a, caps a = [] /\ steps r a (final res) /\ groups res = caps (final res).

(** The title of a role as [extractRoles] compares it. *)
Definition normalizedTitle (r : RoleRecord) : string := toLowerCase (Profile.title r).

(** [l1] is [l2] with some elements left out. *)
Inductive inOrderOf {A : Type} : list A -> list A -> Prop :=
| inOrderOf_nil : inOrderOf [] []
| inOrderOf_skip : forall x l1 l2, inOrderOf l1 l2 -> inOrderOf l1 (x :: l2)
| inOrderOf_keep : forall x l1 l2, inOrderOf l1 l2 -> inOrderOf (x :: l1) (x :: l2).

(** The first role of every normalized title that is not in [seen], in the
    order of [l]: duplicates suppressed by normalized title, first
    occurrence retained. *)
Fixpoint firstOccurrences (seen : list string) (l : list RoleRecord) : list RoleRecord :=
  match l with
  | [] => []
  | r :: l' =>
      if existsb (String.eqb (normalizedTitle r)) seen
      then firstOccurrences seen l'
      else r :: firstOccurrences (seen ++ [normalizedTitle r]) l'
  end.

(** The roles [extractRoles] offers to [foundRoles], in the order it
    meets them. *)
Definition detected (currentYear : Z) (text : string) : list RoleRecord :=
  (ResumeParser.lexiconCandidates currentYear text
   ++ ResumeParser.patternCandidates text)%list.

(** A resume whose first line names a role that only the patterns find. *)
Definition two_line_resume : string :=
  "Growth Developer at Acme" ++ String ResumeParser.LF "Intern 2019 - 2020".

(** The title of [role] holds no keyword of any of the five role types. *)
Definition inNoCategory (role : RoleRecord) : bool :=
  forallb
    (fun '(_, keywords) =>
       negb (existsb (fun kw => includes (toLowerCase (Profile.title role)) kw) keywords))
    ResumeParser.roleTypes.

(** The sum of the years of all role types. *)
Definition sumYears (m : ExperienceMap) : Z :=
  fold_right (fun e acc => expYears (snd e) + acc) 0 m.

(** Every role type has a non-negative number of years. *)
Definition nonNegative (m : ExperienceMap) : Prop :=
  Forall (fun e => 0 <= expYears (snd e)) m.

(** The decoder [parse] calls for an extension, if it has one. *)
Definition decoderFor (parsePDF parseDOCX parseTXT : string -> ResumeParser.Outcome string)
  (ext : string) : option (string -> ResumeParser.Outcome string) :=
  if String.eqb ext ".pdf" then Some parsePDF
  else if String.eqb ext ".docx" then Some parseDOCX
  else if String.eqb ext ".txt" then Some parseTXT
  else None.

(** The profile of a text in which nothing is found. *)
Definition emptyProfile (text : string) : Profile.t :=
  MkProfile text [] [] 0 (MkSkills [] [] []) entry []
    (Some (Primary General "Professional" None)) [].

(** The resume of the specification's example. *)
Definition sample_resume : string :=
  "Jane Roe" ++ String ResumeParser.LF
  ("Senior Software Engineer 2015 - Present" ++ String ResumeParser.LF
   "Skills: Python, React").

Section Ranking.

Context {A : Type}.
Variable score : A -> Q.

(** [a] may stand before [b]. *)
Definition notBelow (a b : A) : Prop := (score b <= score a)%Q.

(** The elements whose score is [q]. *)
Definition scoring (q : Q) (l : list A) : list A :=
  filter (fun a => Qeq_bool (score a) q) l.

End Ranking.

(** The ten levels [extractJobLevel] can return. *)
Definition jobLevels : list string :=
  ["intern"; "junior"; "principal"; "staff"; "senior"; "lead"; "manager";
   "director"; "vp"; "mid"].

(** The requirements of the level of a posting: [levelRequirements] of
    [calculateExperienceScore]. *)
Definition requirementsOf (j : JobMatcher.Job) : JobMatcher.Level :=
  match JobMatcher.levelOf (JobMatcher.extractJobLevel (JobMatcher.title j))
          JobMatcher.experienceLevels with
  | Some lv => lv
  | None => JobMatcher.MkLevel 0 100
  end.

(** The score of [calculateExperienceScore] before its special case for
    career pivoters: the four bands. *)
Definition bandScore (p : Profile.t) (j : JobMatcher.Job) : Z :=
  let relevantExperience := JobMatcher.getRelevantExperience p j in
  let levelRequirements := requirementsOf j in
  if ((JobMatcher.min levelRequirements <=? relevantExperience)
      && (relevantExperience <=? JobMatcher.max levelRequirements + 2))%bool
  then 100
  else if ((JobMatcher.min levelRequirements - 1 <=? relevantExperience)
           && (relevantExperience <=? JobMatcher.max levelRequirements + 3))%bool
  then 80
  else if relevantExperience <? JobMatcher.min levelRequirements
  then Z.max 0 (70 - (JobMatcher.min levelRequirements - relevantExperience) * 15)
  else Z.max 40 (90 - (relevantExperience - JobMatcher.max levelRequirements) * 10).

(** The upper case of [c] is one 8-bit code unit: so for every code unit
    but U+00B5, U+00DF and U+00FF, which [toUpperCase] turns into U+039C,
    into the two letters SS and into U+0178. *)
Definition upperInModel (c : ascii) : bool :=
  negb (N.eqb (code c) 181 || N.eqb (code c) 223 || N.eqb (code c) 255).

(** The titles on which [capitalizeTitle] stays within the model: no word
    starts with a code unit whose upper case leaves it. *)
Definition capitalizable (title : string) : bool :=
  forallb
    (fun word =>
       match word with
       | String c _ => upperInModel c
       | EmptyString => true
       end)
    (split " " title).

(** The title and the description of a posting as one text, in lower
    case; a posting without a description has the empty one. *)
Definition postingText (j : JobMatcher.Job) : string :=
  toLowerCase
    (JobMatcher.title j ++ " "
     ++ match JobMatcher.description j with Some d => d | None => "" end).

(** [term] stands somewhere in [text]. *)
Definition occursIn (text term : string) : Prop :=
  exists before after, text = before ++ term ++ after.

(** The terms of a list that stand in [text], each as often as the list
    has it. *)
Definition termsIn (text : string) (terms : list string) : list string :=
  filter (fun term => includes text term) terms.

(** The four bands of [calculateConfidence] before rounding, each named by
    the total it starts at: [total * 1.25], [50 + (total - 40) * 0.95],
    [70 + (total - 60) * 0.76] and [90 + (total - 85) * 0.33]. *)
Definition bandFrom0 (total : Q) : Q := (total * 1.25)%Q.
Definition bandFrom40 (total : Q) : Q := (50 + (total - 40) * 0.95)%Q.
Definition bandFrom60 (total : Q) : Q := (70 + (total - 60) * 0.76)%Q.
Definition bandFrom85 (total : Q) : Q := (90 + (total - 85) * 0.33)%Q.

(** No code unit of [s] is a letter from A to Z or from a to z. *)
Fixpoint letterFree (s : string) : bool :=
  match s with
  | EmptyString => true
  | String c s' => (negb (isLetter c) && letterFree s')%bool
  end.

(** The 256 code units of the model. *)
Definition allCodeUnits : list ascii := map ascii_of_nat (seq 0 256).

(** A test on a pattern that is enough for every match of it to hold a
    letter: one of the classes it must go through has letters only. *)
Fixpoint takesLetter (r : regex) : bool :=
  match r with
  | Cls p => forallb (fun c => implb (p c) (isLetter c)) allCodeUnits
  | Seq r1 r2 => (takesLetter r1 || takesLetter r2)%bool
  | Alt r1 r2 => (takesLetter r1 && takesLetter r2)%bool
  | Grp _ r1 => takesLetter r1
  | Eps | Star _ _ | WordB => false
  end.

Section Bands.

Context {A : Type}.
Variable score : A -> Q.
Variables high low : Q.

(** The bands of a score: at least [high]; at least [low] and below
    [high]; below [low]. *)
Definition top (x : A) : bool := Qle_bool high (score x).
Definition middle (x : A) : bool :=
  (Qle_bool low (score x) && negb (Qle_bool high (score x)))%bool.
Definition bottom (x : A) : bool := negb (Qle_bool low (score x)).

End Bands.


(** The index the loop of [shuffleArray] draws at [i] from the random
    number [r]: [Math.floor(r * (i + 1))]. *)
Definition drawnIndex (r : Q) (i : nat) : nat :=
  Z.to_nat (Qfloor (r * inject_Z (Z.of_nat (i + 1)))).

(** A result of a search in [s]: the match stands in [s] after [before],
    and came from a run of the pattern there. *)
Definition found_in (r : regex) (s : string) (res : result) : Prop :=
  exists before a,
    s = before ++ rest a /\
    steps r a (final res) /\
    matched res = captured a (final res) /\
    groups res = caps (final res) /\
    caps a = [].

(** The title of [role] holds one of [keywords]: the test of the inner
    loop of [calculateExperienceByRole]. *)
Definition inType (keywords : list string) (role : RoleRecord) : bool :=
  existsb (fun kw => includes (toLowerCase (Profile.title role)) kw) keywords.

(** The roles of a type, in order, and the years they add up to. *)
Definition rolesIn (keywords : list string) (l : list RoleRecord) : list RoleRecord :=
  filter (inType keywords) l.

Definition yearsIn (l : list RoleRecord) : Z :=
  fold_right (fun r acc => ResumeParser.truthyYears (years r) + acc) 0 l.

(** The entry of a type before the estimate: none without roles. *)
Definition tally (keywords : list string) (l : list RoleRecord) : option Experience :=
  match rolesIn keywords l with
  | [] => None
  | rs => Some (Exp (yearsIn rs) (map Profile.title rs))
  end.

(** The entry [addRole] leaves for its type. *)
Definition added (role : RoleRecord) (e : option Experience) : Experience :=
  match e with
  | Some e => Exp (expYears e + ResumeParser.truthyYears (years role))
                  (expRoles e ++ [Profile.title role])
  | None => Exp (0 + ResumeParser.truthyYears (years role)) [Profile.title role]
  end.

(** The keys of a map fed by [classify] are different, and keys of
    [roleTypes]. *)
Definition wellKeyed (m : ExperienceMap) : Prop :=
  NoDup (map fst m) /\
  forall t, In t (map fst m) -> In t (map fst ResumeParser.roleTypes).

(** No indicator phrase of any tier stands in the text. *)
Definition noIndicator (normalizedText : string) : bool :=
  forallb
    (fun '(_, indicators) =>
       negb (existsb (fun indicator => includes normalizedText indicator) indicators))
    ResumeParser.seniorityIndicators.

(* ================================================================== *)
(** * Properties *)

(** ** Strings *)

Lemma lowerChar_idempotent (c : ascii) : lowerChar (lowerChar c) = lowerChar c.
Proof.
  destruct c as [[] [] [] [] [] [] [] []]; vm_compute; reflexivity.
Qed.

Lemma toLowerCase_idempotent (s : string) :
  toLowerCase (toLowerCase s) = toLowerCase s.
Proof.
  unfold toLowerCase.
  induction s as [|c s IH]; simpl; [reflexivity|].
  now rewrite lowerChar_idempotent, IH.
Qed.

(** ** The experience score *)

Lemma extractJobLevel_lower (jobTitle : string) :
  JobMatcher.extractJobLevel (toLowerCase jobTitle) = JobMatcher.extractJobLevel jobTitle.
Proof.
  unfold JobMatcher.extractJobLevel.
  now rewrite toLowerCase_idempotent.
Qed.

(** C1.  Career-pivot override: for a profile with more than 5 years in all
    and less than 3 relevant years for the posting, the experience score is
    at most 40 when the posting's level is senior, lead or manager, and at
    least 70 when it is junior, entry or mid.  In particular a profile with
    8 years in all and 2 in Product scores at most 40 on "Senior Product
    Manager" and at least 70 on "Product Manager". *)
Theorem career_pivot_override :
  (forall (p : Profile.t) (j : JobMatcher.Job),
      5 < totalYearsExperience p ->
      JobMatcher.getRelevantExperience p j < 3 ->
      (In (JobMatcher.extractJobLevel (JobMatcher.title j)) seniorLevels ->
       JobMatcher.calculateExperienceScore p j <= 40) /\
      (In (JobMatcher.extractJobLevel (JobMatcher.title j)) accessibleLevels ->
       70 <= JobMatcher.calculateExperienceScore p j)) /\
  (forall (p : Profile.t) (j : JobMatcher.Job),
      totalYearsExperience p = 8 ->
      JobMatcher.yearsOf Product (experienceByRole p) = 2 ->
      (JobMatcher.title j = "Senior Product Manager" ->
       JobMatcher.extractJobLevel (JobMatcher.title j) = "senior" /\
       JobMatcher.calculateExperienceScore p j <= 40) /\
      (JobMatcher.title j = "Product Manager" ->
       JobMatcher.extractJobLevel (JobMatcher.title j) = "mid" /\
       70 <= JobMatcher.calculateExperienceScore p j)).
Proof.
  assert (general : forall (p : Profile.t) (j : JobMatcher.Job),
      5 < totalYearsExperience p ->
      JobMatcher.getRelevantExperience p j < 3 ->
      (In (JobMatcher.extractJobLevel (JobMatcher.title j)) seniorLevels ->
       JobMatcher.calculateExperienceScore p j <= 40) /\
      (In (JobMatcher.extractJobLevel (JobMatcher.title j)) accessibleLevels ->
       70 <= JobMatcher.calculateExperienceScore p j)).
  { intros p j Htotal Hrelevant.
    unfold JobMatcher.calculateExperienceScore.
    rewrite extractJobLevel_lower.
    apply Z.gtb_lt in Htotal. apply Z.ltb_lt in Hrelevant.
    rewrite Htotal, Hrelevant. cbn [andb].
    set (score := if (_ && _)%bool then 100 else _).
    split; intros Hlevel.
    - assert (Hs : (String.eqb (JobMatcher.extractJobLevel (JobMatcher.title j)) "senior"
                    || String.eqb (JobMatcher.extractJobLevel (JobMatcher.title j)) "lead"
                    || String.eqb (JobMatcher.extractJobLevel (JobMatcher.title j)) "manager")%bool
                   = true).
      { destruct Hlevel as [<-|[<-|[<-|[]]]]; reflexivity. }
      rewrite Hs. lia.
    - destruct Hlevel as [<-|[<-|[<-|[]]]]; cbn; lia. }
  split; [exact general|].
  intros p j Htotal Hproduct.
  split; intros Htitle.
  - assert (Hlevel : JobMatcher.extractJobLevel (JobMatcher.title j) = "senior")
      by (rewrite Htitle; reflexivity).
    split; [exact Hlevel|].
    apply general.
    + lia.
    + unfold JobMatcher.getRelevantExperience. rewrite Htitle. cbn. 
      fold (JobMatcher.yearsOf Product (experienceByRole p)). lia.
    + rewrite Hlevel. cbn. auto.
  - assert (Hlevel : JobMatcher.extractJobLevel (JobMatcher.title j) = "mid")
      by (rewrite Htitle; reflexivity).
    split; [exact Hlevel|].
    apply general.
    + lia.
    + unfold JobMatcher.getRelevantExperience. rewrite Htitle. cbn. 
      fold (JobMatcher.yearsOf Product (experienceByRole p)). lia.
    + rewrite Hlevel. cbn. auto.
Qed.

Lemma career_pivot_override_witness :
  JobMatcher.calculateExperienceScore pivoter (job_titled "Senior Product Manager" None) <= 40 /\
  70 <= JobMatcher.calculateExperienceScore pivoter (job_titled "Product Manager" None).
Proof.
  split.
  - apply (proj1 career_pivot_override pivoter (job_titled "Senior Product Manager" None)).
    + reflexivity.
    + reflexivity.
    + left. reflexivity.
  - apply (proj1 career_pivot_override pivoter (job_titled "Product Manager" None)).
    + reflexivity.
    + reflexivity.
    + right. right. left. reflexivity.
Defined.

(** ** The role score *)

Lemma calculateRoleScore_ladder (p : Profile.t) (j : JobMatcher.Job) :
  In (JobMatcher.calculateRoleScore p j) [100; 85; 70; 50; 20].
Proof.
  unfold JobMatcher.calculateRoleScore.
  repeat match goal with
         | |- context [if ?b then _ else _] => destruct b
         end; simpl; auto 6.
Qed.

(** C6, as stated, fails: with primary role "UX Designer" and no family
    keyword shared with "Software Engineer", a profile whose history holds
    a matching role scores 85 on that posting, which is more than 50. *)
Lemma role_score_unrelated_primary_counterexample :
  primaryTitleOf designer_was_engineer = "UX Designer" /\
  JobMatcher.sameRoleFamily "software engineer" "ux designer" = false /\
  JobMatcher.calculateRoleScore designer_was_engineer (job_titled "Software Engineer" None) = 85 /\
  50 < JobMatcher.calculateRoleScore designer_was_engineer (job_titled "Software Engineer" None).
Proof.
  repeat split; reflexivity.
Qed.

(** C6, amended.  The role score is one of 100, 85, 70, 50 and 20, never 0;
    "Frontend Developer" against the primary role "Frontend Engineer" scores
    100; and "Software Engineer" against the primary role "UX Designer"
    scores at most 50 when no role of the candidate's history matches the
    posting's title (85 when one does), the two titles sharing no family
    keyword.  Each of the five scores is reached. *)
Theorem role_score_ladder :
  (forall (p : Profile.t) (j : JobMatcher.Job),
      In (JobMatcher.calculateRoleScore p j) [100; 85; 70; 50; 20] /\
      JobMatcher.calculateRoleScore p j <> 0) /\
  (forall (p : Profile.t) (j : JobMatcher.Job),
      primaryTitleOf p = "Frontend Engineer" ->
      JobMatcher.title j = "Frontend Developer" ->
      JobMatcher.calculateRoleScore p j = 100) /\
  (forall (p : Profile.t) (j : JobMatcher.Job),
      primaryTitleOf p = "UX Designer" ->
      JobMatcher.title j = "Software Engineer" ->
      JobMatcher.sameRoleFamily "software engineer" "ux designer" = false /\
      (existsb (JobMatcher.titlesMatch "software engineer") (historicalTitles p) = false ->
       JobMatcher.calculateRoleScore p j <= 50) /\
      (existsb (JobMatcher.titlesMatch "software engineer") (historicalTitles p) = true ->
       JobMatcher.calculateRoleScore p j = 85)) /\
  (forall v : Z,
      In v [100; 85; 70; 50; 20] ->
      exists (p : Profile.t) (j : JobMatcher.Job), JobMatcher.calculateRoleScore p j = v).
Proof.
  split; [|split; [|split]]; cycle 3.
  - intros v Hv.
    destruct Hv as [<-|[<-|[<-|[<-|[<-|[]]]]]].
    + exists (with_primary Engineering "Frontend Engineer"),
             (job_titled "Frontend Developer" None). reflexivity.
    + exists designer_was_engineer, (job_titled "Software Engineer" None). reflexivity.
    + exists (with_primary Engineering "Backend Engineer"),
             (job_titled "Cloud Architect" None). reflexivity.
    + exists (with_primary Design "UX Designer"),
             (job_titled "Creative Director" None). reflexivity.
    + exists (with_primary Design "UX Designer"),
             (job_titled "Software Engineer" None). reflexivity.
  - intros p j. split; [apply calculateRoleScore_ladder|].
    pose proof (calculateRoleScore_ladder p j) as H. simpl in H.
    intuition lia.
  - intros p j Hp Hj.
    unfold JobMatcher.calculateRoleScore, primaryTitleOf in *.
    rewrite Hj. destruct (primaryRole p) as [r|]; [|discriminate].
    rewrite Hp. reflexivity.
  - intros p j Hp Hj.
    split; [reflexivity|].
    unfold JobMatcher.calculateRoleScore, primaryTitleOf, historicalTitles in *.
    rewrite Hj. destruct (primaryRole p) as [r|]; [|discriminate].
    rewrite Hp.
    change (toLowerCase "Software Engineer") with "software engineer".
    change (toLowerCase "UX Designer") with "ux designer".
    change (JobMatcher.titlesMatch "software engineer" "ux designer") with false.
    change (JobMatcher.sameRoleFamily "software engineer" "ux designer") with false.
    cbv iota.
    split; intros Hhist;
      match goal with
      | |- context [existsb ?f ?l] =>
          change (existsb f l) with (existsb (JobMatcher.titlesMatch "software engineer") l)
      end.
    + rewrite Hhist.
      destruct (JobMatcher.relatedRoleType _ _); lia.
    + rewrite Hhist. reflexivity.
Qed.

Lemma role_score_ladder_witness :
  JobMatcher.calculateRoleScore (with_primary Engineering "Frontend Engineer")
    (job_titled "Frontend Developer" None) = 100 /\
  JobMatcher.calculateRoleScore (with_primary Design "UX Designer")
    (job_titled "Software Engineer" None) <= 50.
Proof.
  split.
  - apply (proj1 (proj2 role_score_ladder)); reflexivity.
  - apply (proj1 (proj2 (proj2 role_score_ladder))); reflexivity.
Defined.

(** ** Rounding *)

Lemma round_monotone (a b : Q) : (a <= b)%Q -> JSMath.round a <= JSMath.round b.
Proof.
  intros H. unfold JSMath.round. apply Qfloor_resp_le. lra.
Qed.

Lemma round_comp (a b : Q) : (a == b)%Q -> JSMath.round a = JSMath.round b.
Proof.
  intros H. unfold JSMath.round. apply Qfloor_comp. now rewrite H.
Qed.

Lemma round_integer (n : Z) : JSMath.round (inject_Z n) = n.
Proof.
  unfold JSMath.round.
  assert (Hlo : n <= Qfloor (inject_Z n + (1 # 2))).
  { rewrite <- (Qfloor_Z n) at 1. apply Qfloor_resp_le. lra. }
  assert (Hhi : Qfloor (inject_Z n + (1 # 2)) < n + 1).
  { rewrite Zlt_Qlt.
    pose proof (Qfloor_le (inject_Z n + (1 # 2))) as Hf.
    rewrite inject_Z_plus. change (inject_Z 1) with 1%Q. lra. }
  lia.
Qed.

(** [Math.round(Math.min(100, x))] is [Math.min(100, Math.round(x))]. *)
Lemma round_min_100 (x : Q) :
  JSMath.round (JSMath.min 100 x) = Z.min 100 (JSMath.round x).
Proof.
  unfold JSMath.min.
  destruct (Qle_bool 100 x) eqn:E.
  - apply Qle_bool_iff in E.
    pose proof (round_monotone _ _ E) as H.
    change 100%Q with (inject_Z 100) in H |- *.
    rewrite round_integer in *. lia.
  - assert (Hx : (x <= 100)%Q).
    { destruct (Qlt_le_dec 100 x) as [Hlt|Hle]; [|exact Hle].
      apply Qlt_le_weak in Hlt. apply Qle_bool_iff in Hlt. congruence. }
    pose proof (round_monotone _ _ Hx) as H.
    change 100%Q with (inject_Z 100) in H.
    rewrite round_integer in H. lia.
Qed.

(** ** The content score *)

Lemma countIncluded_from (text : string) (l : list string) (n : Z) :
  n <= fold_left (fun n s => if includes text s then n + 1 else n) l n.
Proof.
  revert n. induction l as [|s l IH]; intros n; simpl; [lia|].
  destruct (includes text s).
  - specialize (IH (n + 1)). lia.
  - apply IH.
Qed.

Lemma countIncluded_nonneg (text : string) (l : list string) :
  0 <= JobMatcher.countIncluded text l.
Proof.
  apply countIncluded_from.
Qed.

(** The score in the counts of its two loops. *)
Lemma calculateContentScore_counts (p : Profile.t) (j : JobMatcher.Job) :
  let matchedSkills :=
    JobMatcher.countIncluded (JobMatcher.textOf j)
      (map toLowerCase (technical (skills p))) in
  let referenceCount :=
    JobMatcher.countIncluded (JobMatcher.textOf j) JobMatcher.technicalTerms in
  JobMatcher.calculateContentScore p j =
    if referenceCount =? 0
    then match technical (skills p) with [] => 50 | _ :: _ => 75 end
    else Z.min 100
           (JSMath.round (120 * inject_Z matchedSkills / inject_Z referenceCount)%Q).
Proof.
  intros matchedSkills referenceCount.
  unfold JobMatcher.calculateContentScore.
  fold matchedSkills referenceCount.
  destruct (referenceCount =? 0) eqn:E.
  - destruct (technical (skills p)); reflexivity.
  - apply Z.eqb_neq in E.
    pose proof (countIncluded_nonneg (JobMatcher.textOf j) JobMatcher.technicalTerms) as Hpos.
    fold referenceCount in Hpos.
    replace (Z.max referenceCount 1) with referenceCount by lia.
    rewrite round_min_100. f_equal.
    apply round_comp.
    assert (Hq : ~ (inject_Z referenceCount == 0)%Q).
    { change 0%Q with (inject_Z 0). rewrite inject_Z_injective. exact E. }
    field. exact Hq.
Qed.

(** A counting loop counts the terms of its list that stand in the text. *)
Lemma countIncluded_termsIn (text : string) (l : list string) :
  JobMatcher.countIncluded text l = Z.of_nat (List.length (termsIn text l)).
Proof.
  unfold JobMatcher.countIncluded, termsIn.
  assert (H : forall n,
    fold_left (fun n s => if includes text s then n + 1 else n) l n
    = n + Z.of_nat (List.length (filter (fun term => includes text term) l))).
  { induction l as [|s l IH]; intros n; cbn [fold_left filter].
    - cbn [List.length]. lia.
    - rewrite IH. destruct (includes text s); cbn [List.length]; lia. }
  apply (H 0).
Qed.

Lemma smap_app (f : ascii -> ascii) (a b : string) :
  smap f (a ++ b) = smap f a ++ smap f b.
Proof.
  induction a as [|c a IH]; cbn [smap String.append]; [reflexivity|].
  now rewrite IH.
Qed.

(** The text the loops search is the title and the description, in lower
    case. *)
Lemma textOf_postingText (j : JobMatcher.Job) :
  JobMatcher.textOf j = postingText j.
Proof.
  unfold JobMatcher.textOf, JobMatcher.descriptionOf, postingText, toLowerCase.
  now rewrite !smap_app.
Qed.

Lemma prefix_occurs (t s : string) :
  prefix t s = true <-> exists after, s = t ++ after.
Proof.
  revert s. induction t as [|c t IH]; intros s.
  - split; [intros _; now exists s | intros _; now destruct s].
  - destruct s as [|d s]; cbn [prefix].
    + split; [discriminate | intros [after H]; discriminate].
    + destruct (Ascii.ascii_dec c d) as [->|Hcd].
      * rewrite IH. split; intros [after H]; exists after.
        -- now rewrite H.
        -- cbn [String.append] in H. now injection H.
      * split; [discriminate|].
        intros [after H]. cbn [String.append] in H. injection H as H _. congruence.
Qed.

(** [text.includes(term)] holds exactly when [term] stands in [text]. *)
Lemma includes_occursIn (text term : string) :
  includes text term = true <-> occursIn text term.
Proof.
  unfold occursIn. induction text as [|c text IH]; cbn [includes].
  - rewrite orb_false_r, prefix_occurs. split.
    + intros [after H]. now exists "", after.
    + intros [before [after H]].
      destruct before; [now exists after|discriminate].
  - rewrite orb_true_iff, prefix_occurs, IH. split.
    + intros [[after H]|[before [after H]]].
      * now exists "", after.
      * exists (String c before), after. cbn [String.append]. now rewrite H.
    + intros [before [after H]]. destruct before as [|d before].
      * left. now exists after.
      * right. exists before, after. cbn [String.append] in H. now injection H.
Qed.

(** C7.  Content score.  Let [matchedSkills] be the number of the
    candidate's technical skills that, in lower case, stand in the posting's
    title and description in lower case, and [referenceCount] the number of
    terms of the reference vocabulary that stand there.  When
    [referenceCount] is 0 the score is 75 for a candidate with at least one
    technical skill and 50 otherwise; when it is positive the score is
    min(100, round(120 * matchedSkills / referenceCount)). *)
Theorem content_score_formula (p : Profile.t) (j : JobMatcher.Job) :
  let text := postingText j in
  let matchedSkills :=
    Z.of_nat (List.length (termsIn text (map toLowerCase (technical (skills p))))) in
  let referenceCount :=
    Z.of_nat (List.length (termsIn text JobMatcher.technicalTerms)) in
  (forall terms term,
      In term (termsIn text terms) <-> In term terms /\ occursIn text term) /\
  JobMatcher.calculateContentScore p j =
    if referenceCount =? 0
    then match technical (skills p) with [] => 50 | _ :: _ => 75 end
    else Z.min 100
           (JSMath.round (120 * inject_Z matchedSkills / inject_Z referenceCount)%Q).
Proof.
  intros text matchedSkills referenceCount. split.
  - intros terms term. unfold termsIn.
    now rewrite filter_In, includes_occursIn.
  - rewrite calculateContentScore_counts.
    rewrite !countIncluded_termsIn, textOf_postingText.
    reflexivity.
Qed.

(** ** The confidence mapping *)

Lemma Qle_bool_false (a b : Q) : Qle_bool a b = false -> (b < a)%Q.
Proof.
  intros H. destruct (Qlt_le_dec b a) as [Hlt|Hle]; [exact Hlt|].
  apply Qle_bool_iff in Hle. congruence.
Qed.

(** Splits the bands of [calculateConfidence] on every total in sight. *)
Ltac bands :=
  repeat match goal with
         | |- context [Qle_bool ?a ?b] =>
             let E := fresh "E" in
             destruct (Qle_bool a b) eqn:E;
             [apply Qle_bool_iff in E | apply Qle_bool_false in E]
         end.

(** A rounded value lies between the rounded bounds of its argument. *)
Ltac round_bounds x lo hi :=
  let Hlo := fresh "Hlo" in
  let Hhi := fresh "Hhi" in
  assert (Hlo : JSMath.round lo <= JSMath.round x) by (apply round_monotone; lra);
  assert (Hhi : JSMath.round x <= JSMath.round hi) by (apply round_monotone; lra);
  vm_compute (JSMath.round lo) in Hlo;
  vm_compute (JSMath.round hi) in Hhi.

Lemma calculateConfidence_monotone (s1 s2 : JobMatcher.Scores) :
  (JobMatcher.total s1 <= JobMatcher.total s2)%Q ->
  JobMatcher.calculateConfidence s1 <= JobMatcher.calculateConfidence s2.
Proof.
  intros H. unfold JobMatcher.calculateConfidence.
  set (t1 := JobMatcher.total s1) in *. set (t2 := JobMatcher.total s2) in *.
  bands; try lra.
  - pose proof (round_monotone (90 + (t1 - 85) * 0.33) (90 + (t2 - 85) * 0.33)) as Hm.
    assert (JSMath.round (90 + (t1 - 85) * 0.33) <= JSMath.round (90 + (t2 - 85) * 0.33))
      by (apply Hm; lra).
    lia.
  - round_bounds (70 + (t1 - 60) * 0.76)%Q (70 + (t1 - 60) * 0.76)%Q 89%Q.
    round_bounds (90 + (t2 - 85) * 0.33)%Q 90%Q (90 + (t2 - 85) * 0.33)%Q.
    lia.
  - apply round_monotone. lra.
  - round_bounds (50 + (t1 - 40) * 0.95)%Q (50 + (t1 - 40) * 0.95)%Q 69%Q.
    round_bounds (90 + (t2 - 85) * 0.33)%Q 90%Q (90 + (t2 - 85) * 0.33)%Q.
    lia.
  - round_bounds (50 + (t1 - 40) * 0.95)%Q (50 + (t1 - 40) * 0.95)%Q 69%Q.
    round_bounds (70 + (t2 - 60) * 0.76)%Q 70%Q (70 + (t2 - 60) * 0.76)%Q.
    lia.
  - apply round_monotone. lra.
  - round_bounds (t1 * 1.25)%Q (t1 * 1.25)%Q 50%Q.
    round_bounds (90 + (t2 - 85) * 0.33)%Q 90%Q (90 + (t2 - 85) * 0.33)%Q.
    lia.
  - round_bounds (t1 * 1.25)%Q (t1 * 1.25)%Q 50%Q.
    round_bounds (70 + (t2 - 60) * 0.76)%Q 70%Q (70 + (t2 - 60) * 0.76)%Q.
    lia.
  - round_bounds (t1 * 1.25)%Q (t1 * 1.25)%Q 50%Q.
    round_bounds (50 + (t2 - 40) * 0.95)%Q 50%Q (50 + (t2 - 40) * 0.95)%Q.
    lia.
  - apply round_monotone. lra.
Qed.

Lemma calculateConfidence_total (s : JobMatcher.Scores) :
  JobMatcher.calculateConfidence s =
  JobMatcher.calculateConfidence (scores_with_total (JobMatcher.total s)).
Proof. reflexivity. Qed.

Lemma confidence_around_40 (t : Q) :
  (39.6 <= t <= 40.5)%Q ->
  JobMatcher.calculateConfidence (scores_with_total t) = 50.
Proof.
  intros [Hlo Hhi].
  unfold JobMatcher.calculateConfidence, scores_with_total, JobMatcher.total.
  bands; try lra.
  - round_bounds (50 + (t - 40) * 0.95)%Q 50%Q (50 + (40.5 - 40) * 0.95)%Q. lia.
  - round_bounds (t * 1.25)%Q (39.6 * 1.25)%Q 50%Q. lia.
Qed.

Lemma confidence_below_60 (t : Q) :
  (59.5 <= t)%Q -> (t < 60)%Q ->
  JobMatcher.calculateConfidence (scores_with_total t) = 69.
Proof.
  intros Hlo Hhi.
  unfold JobMatcher.calculateConfidence, scores_with_total, JobMatcher.total.
  bands; try lra.
  round_bounds (50 + (t - 40) * 0.95)%Q (50 + (59.5 - 40) * 0.95)%Q 69%Q. lia.
Qed.

Lemma confidence_from_60 (t : Q) :
  (60 <= t <= 60.5)%Q ->
  JobMatcher.calculateConfidence (scores_with_total t) = 70.
Proof.
  intros [Hlo Hhi].
  unfold JobMatcher.calculateConfidence, scores_with_total, JobMatcher.total.
  bands; try lra.
  round_bounds (70 + (t - 60) * 0.76)%Q 70%Q (70 + (60.5 - 60) * 0.76)%Q. lia.
Qed.

Lemma confidence_below_85 (t : Q) :
  (84.5 <= t)%Q -> (t < 85)%Q ->
  JobMatcher.calculateConfidence (scores_with_total t) = 89.
Proof.
  intros Hlo Hhi.
  unfold JobMatcher.calculateConfidence, scores_with_total, JobMatcher.total.
  bands; try lra.
  round_bounds (70 + (t - 60) * 0.76)%Q (70 + (84.5 - 60) * 0.76)%Q 89%Q. lia.
Qed.

Lemma confidence_from_85 (t : Q) :
  (85 <= t <= 86)%Q ->
  JobMatcher.calculateConfidence (scores_with_total t) = 90.
Proof.
  intros [Hlo Hhi].
  unfold JobMatcher.calculateConfidence, scores_with_total, JobMatcher.total.
  bands; try lra.
  round_bounds (90 + (t - 85) * 0.33)%Q 90%Q (90 + (86 - 85) * 0.33)%Q. lia.
Qed.

(** C4, as stated, fails: at the total 60 the band from 40 ends at 69 and
    the band from 60 starts at 70, both without any rounding, so the two do
    not agree there; the confidence is 69 just below 60 and 70 at 60.  It is
    the same at 85, with 89 and 90. *)
Lemma confidence_bands_counterexample :
  (bandFrom40 60 == 69)%Q /\ (bandFrom60 60 == 70)%Q /\
  JobMatcher.calculateConfidence (scores_with_total 59.999999) = 69 /\
  JobMatcher.calculateConfidence (scores_with_total 60) = 70 /\
  (bandFrom60 85 == 89)%Q /\ (bandFrom85 85 == 90)%Q /\
  JobMatcher.calculateConfidence (scores_with_total 84.999999) = 89 /\
  JobMatcher.calculateConfidence (scores_with_total 85) = 90.
Proof.
  repeat split; reflexivity.
Qed.

(** C4, amended.  The confidence is the rounded value of the band the
    total lies in, and a non-decreasing function of the total.  The bands
    agree at the total 40, where both give 50: the confidence is 50 on both
    sides of 40.  They do not agree at 60 and at 85, where the lower band
    ends one point under the start of the upper one: the confidence is 69
    below 60 and 70 from 60 on, 89 below 85 and 90 from 85 on. *)
Theorem confidence_monotone_bands :
  (forall s1 s2 : JobMatcher.Scores,
      (JobMatcher.total s1 <= JobMatcher.total s2)%Q ->
      JobMatcher.calculateConfidence s1 <= JobMatcher.calculateConfidence s2) /\
  (forall s : JobMatcher.Scores,
      let t := JobMatcher.total s in
      let c := JobMatcher.calculateConfidence s in
      ((t < 40)%Q -> c = JSMath.round (bandFrom0 t)) /\
      ((40 <= t)%Q -> (t < 60)%Q -> c = JSMath.round (bandFrom40 t)) /\
      ((60 <= t)%Q -> (t < 85)%Q -> c = JSMath.round (bandFrom60 t)) /\
      ((85 <= t)%Q -> c = Z.min 95 (JSMath.round (bandFrom85 t)))) /\
  ((bandFrom0 40 == 50)%Q /\ (bandFrom40 40 == 50)%Q /\
   (bandFrom40 60 == 69)%Q /\ (bandFrom60 60 == 70)%Q /\
   (bandFrom60 85 == 89)%Q /\ (bandFrom85 85 == 90)%Q) /\
  (forall s : JobMatcher.Scores,
      let t := JobMatcher.total s in
      let c := JobMatcher.calculateConfidence s in
      ((39.6 <= t)%Q -> (t <= 40.5)%Q -> c = 50) /\
      ((59.5 <= t)%Q -> (t < 60)%Q -> c = 69) /\
      ((60 <= t)%Q -> (t <= 60.5)%Q -> c = 70) /\
      ((84.5 <= t)%Q -> (t < 85)%Q -> c = 89) /\
      ((85 <= t)%Q -> (t <= 86)%Q -> c = 90)).
Proof.
  split; [exact calculateConfidence_monotone|].
  split; [|split; [repeat split; reflexivity|]].
  - intros s t c. subst c. unfold JobMatcher.calculateConfidence.
    fold t. unfold bandFrom0, bandFrom40, bandFrom60, bandFrom85.
    repeat split; intros; bands; solve [reflexivity | lra].
  - intros s t c. subst c t. rewrite (calculateConfidence_total s).
    repeat split; intros.
    + now apply confidence_around_40.
    + now apply confidence_below_60.
    + now apply confidence_from_60.
    + now apply confidence_below_85.
    + now apply confidence_from_85.
Qed.

Lemma confidence_monotone_bands_witness :
  JobMatcher.calculateConfidence (scores_with_total 59.99)
  <= JobMatcher.calculateConfidence (scores_with_total 60) /\
  JobMatcher.calculateConfidence (scores_with_total 84.75) = 89.
Proof.
  split.
  - apply (proj1 confidence_monotone_bands). vm_compute. discriminate.
  - apply (proj2 (proj2 (proj2 confidence_monotone_bands)) (scores_with_total 84.75)).
    + vm_compute. discriminate.
    + vm_compute. reflexivity.
Defined.

(** ** Sorting by score *)

Section SortByScore.

Context {A : Type}.
Variable score : A -> Q.

(** The comparator [(a, b) => score(b) - score(a)]. *)
Let descending (a b : A) : Q := (score b - score a)%Q.

Lemma insert_length (x : A) (l : list A) :
  List.length (JSMath.insert descending x l) = S (List.length l).
Proof.
  induction l as [|y l IH]; simpl; [reflexivity|].
  destruct (Qle_bool (descending x y) 0); simpl; [reflexivity|].
  now rewrite IH.
Qed.

Lemma sort_length (l : list A) :
  List.length (JSMath.sort descending l) = List.length l.
Proof.
  induction l as [|x l IH]; simpl; [reflexivity|].
  now rewrite insert_length, IH.
Qed.

Lemma insert_permutation (x : A) (l : list A) :
  Permutation (x :: l) (JSMath.insert descending x l).
Proof.
  induction l as [|y l IH]; simpl; [apply Permutation_refl|].
  destruct (Qle_bool (descending x y) 0); [apply Permutation_refl|].
  eapply perm_trans; [apply perm_swap|].
  now apply perm_skip.
Qed.

Lemma sort_permutation (l : list A) : Permutation l (JSMath.sort descending l).
Proof.
  induction l as [|x l IH]; simpl; [apply perm_nil|].
  eapply perm_trans; [apply perm_skip, IH|].
  apply insert_permutation.
Qed.

Lemma insert_sorted (x : A) (l : list A) :
  StronglySorted (notBelow score) l -> StronglySorted (notBelow score) (JSMath.insert descending x l).
Proof.
  induction 1 as [|y l Hl IH Hy]; simpl.
  - constructor; constructor.
  - destruct (Qle_bool (descending x y) 0) eqn:E.
    + apply Qle_bool_iff in E. unfold descending in E.
      assert (Hxy : notBelow score x y) by (unfold notBelow; lra).
      constructor; [now constructor|].
      constructor; [exact Hxy|].
      eapply Forall_impl; [|exact Hy].
      unfold notBelow in *. intros z Hz. lra.
    + apply Qle_bool_false in E. unfold descending in E.
      constructor; [exact IH|].
      eapply Permutation_Forall; [apply insert_permutation|].
      constructor; [unfold notBelow; lra | exact Hy].
Qed.

Lemma sort_sorted (l : list A) : StronglySorted (notBelow score) (JSMath.sort descending l).
Proof.
  induction l as [|x l IH]; simpl; [constructor|].
  now apply insert_sorted.
Qed.

(** Inserting [x] leaves the elements of every score in their order, [x]
    in front of those of its own score. *)
Lemma insert_scoring (q : Q) (x : A) (l : list A) :
  scoring score q (JSMath.insert descending x l) = scoring score q (x :: l).
Proof.
  induction l as [|y l IH]; simpl; [reflexivity|].
  destruct (Qle_bool (descending x y) 0) eqn:E; [reflexivity|].
  apply Qle_bool_false in E. unfold descending in E.
  unfold scoring in *. simpl in *. rewrite IH.
  destruct (Qeq_bool (score x) q) eqn:Ex; [|reflexivity].
  destruct (Qeq_bool (score y) q) eqn:Ey; [|reflexivity].
  apply Qeq_bool_iff in Ex. apply Qeq_bool_iff in Ey. lra.
Qed.

Lemma sort_scoring (q : Q) (l : list A) :
  scoring score q (JSMath.sort descending l) = scoring score q l.
Proof.
  induction l as [|x l IH]; simpl; [reflexivity|].
  rewrite insert_scoring. unfold scoring in *. simpl. now rewrite IH.
Qed.

End SortByScore.

(** ** [matchJobs] *)

Lemma matchJobs_all (p : Profile.t) (jobs : list JobMatcher.Job) :
  JobMatcher.all (JobMatcher.matchJobs p jobs) =
  JSMath.sort (fun a b => (JobMatcher.matchScore b - JobMatcher.matchScore a)%Q)
    (map (JobMatcher.scoreJob p) jobs).
Proof. reflexivity. Qed.

(** C2.  The list [all] of [matchJobs] has one scored job for every
    posting, is sorted by total score in descending order, and the sort is
    stable: the postings of any one score stand in their input order. *)
Theorem matchJobs_all_sorted_stable (p : Profile.t) (jobs : list JobMatcher.Job) :
  let scored := map (JobMatcher.scoreJob p) jobs in
  let all := JobMatcher.all (JobMatcher.matchJobs p jobs) in
  List.length all = List.length jobs /\
  Permutation scored all /\
  Forall (fun s => JobMatcher.matchScore s = JobMatcher.total (JobMatcher.scores s)) all /\
  StronglySorted (notBelow JobMatcher.matchScore) all /\
  (forall q : Q, scoring JobMatcher.matchScore q all = scoring JobMatcher.matchScore q scored).
Proof.
  intros scored all. subst all. rewrite matchJobs_all. fold scored.
  split; [|split; [|split; [|split]]].
  - rewrite sort_length. subst scored. apply length_map.
  - apply sort_permutation.
  - eapply Permutation_Forall; [apply sort_permutation|].
    subst scored. apply Forall_forall. intros s Hs.
    apply in_map_iff in Hs. destruct Hs as [j [<- _]]. reflexivity.
  - apply sort_sorted.
  - intros q. apply sort_scoring.
Qed.

(** The scored jobs of [all] are the postings, scored. *)
Lemma matchJobs_all_In (p : Profile.t) (jobs : list JobMatcher.Job)
  (s : JobMatcher.ScoredJob) :
  In s (JobMatcher.all (JobMatcher.matchJobs p jobs)) <->
  exists j, In j jobs /\ s = JobMatcher.scoreJob p j.
Proof.
  rewrite matchJobs_all. split.
  - intros Hs.
    eapply Permutation_in in Hs; [|apply Permutation_sym, sort_permutation].
    apply in_map_iff in Hs. destruct Hs as [j [<- Hj]]. eauto.
  - intros [j [Hj ->]].
    eapply Permutation_in; [apply sort_permutation|].
    now apply in_map.
Qed.

(** C5.  The scored jobs are the postings of the input, each with the
    confidence of its scores.  Such a scored job is in [recommended] exactly
    when its confidence is in [90, 95] and in [worthExploring] exactly when
    it is in [70, 90): so a posting is recommended exactly when
    [calculateConfidence] of its scores is from 90 to 95.  The two lists are
    disjoint and both are within [all]. *)
Theorem matchJobs_categories (p : Profile.t) (jobs : list JobMatcher.Job) :
  let m := JobMatcher.matchJobs p jobs in
  let scored (s : JobMatcher.ScoredJob) :=
    exists j, In j jobs /\ s = JobMatcher.scoreJob p j in
  (forall s, In s (JobMatcher.all m) <-> scored s) /\
  (forall s, In s (JobMatcher.recommended m) <->
             scored s /\ 90 <= JobMatcher.confidence s <= 95) /\
  (forall s, In s (JobMatcher.worthExploring m) <->
             scored s /\ 70 <= JobMatcher.confidence s < 90) /\
  (forall j, In j jobs ->
     let c := JobMatcher.calculateConfidence (JobMatcher.calculateMatchScore p j) in
     JobMatcher.confidence (JobMatcher.scoreJob p j) = c /\
     (In (JobMatcher.scoreJob p j) (JobMatcher.recommended m) <-> 90 <= c <= 95) /\
     (In (JobMatcher.scoreJob p j) (JobMatcher.worthExploring m) <-> 70 <= c < 90)) /\
  (forall s, ~ (In s (JobMatcher.recommended m) /\ In s (JobMatcher.worthExploring m))) /\
  (forall s, In s (JobMatcher.recommended m) -> In s (JobMatcher.all m)) /\
  (forall s, In s (JobMatcher.worthExploring m) -> In s (JobMatcher.all m)).
Proof.
  intros m scored.
  assert (Ha : forall s, In s (JobMatcher.all m) <-> scored s).
  { intros s. apply matchJobs_all_In. }
  assert (Hr : forall s, In s (JobMatcher.recommended m) <->
                         In s (JobMatcher.all m) /\ 90 <= JobMatcher.confidence s <= 95).
  { intros s. subst m. unfold JobMatcher.matchJobs.
    cbn [JobMatcher.recommended JobMatcher.all].
    rewrite filter_In, andb_true_iff, !Z.leb_le. tauto. }
  assert (Hw : forall s, In s (JobMatcher.worthExploring m) <->
                         In s (JobMatcher.all m) /\ 70 <= JobMatcher.confidence s < 90).
  { intros s. subst m. unfold JobMatcher.matchJobs.
    cbn [JobMatcher.worthExploring JobMatcher.all].
    rewrite filter_In, andb_true_iff, Z.leb_le, Z.ltb_lt. tauto. }
  split; [exact Ha|].
  split; [intros s; rewrite Hr, Ha; tauto|].
  split; [intros s; rewrite Hw, Ha; tauto|].
  split; [|split; [|split]].
  - intros j Hj c.
    assert (Hs : In (JobMatcher.scoreJob p j) (JobMatcher.all m)).
    { apply Ha. exists j. auto. }
    split; [reflexivity|].
    rewrite Hr, Hw.
    change (JobMatcher.confidence (JobMatcher.scoreJob p j)) with c.
    tauto.
  - intros s. rewrite Hr, Hw. lia.
  - intros s. rewrite Hr. tauto.
  - intros s. rewrite Hw. tauto.
Qed.

(** ** What a match of a regular expression went through *)

Lemma orElse_Some {A : Type} (x y : option A) (v : A) :
  orElse x y = Some v -> x = Some v \/ y = Some v.
Proof.
  destruct x; simpl; auto.
Qed.

(** A successful run called its continuation on a state the pattern
    leads to. *)
Lemma run_sound (r : regex) :
  forall (a : mstate) (k : mstate -> option mstate) (res : mstate),
    run r a k = Some res ->
    exists b, steps r a b /\ k b = Some res.
Proof.
  induction r as [|p|r1 IH1 r2 IH2|r1 IH1 r2 IH2|g r IH|n r IH|]; intros a k res H.
  - exists a. split; [constructor | exact H].
  - destruct a as [pv s cs]. simpl in H.
    destruct s as [|c s]; [discriminate|].
    destruct (p c) eqn:E; [|discriminate].
    exists (MState (Some c) s cs). split; [now constructor | exact H].
  - simpl in H. apply IH1 in H. destruct H as [b [Hab H]].
    apply IH2 in H. destruct H as [c [Hbc H]].
    exists c. split; [econstructor; eassumption | exact H].
  - simpl in H. apply orElse_Some in H. destruct H as [H|H].
    + apply IH1 in H. destruct H as [b [Hab H]].
      exists b. split; [now apply steps_alt_l | exact H].
    + apply IH2 in H. destruct H as [b [Hab H]].
      exists b. split; [now apply steps_alt_r | exact H].
  - simpl in H.
    generalize dependent a.
    intros a. generalize (String.length (rest a)) as fuel.
    intros fuel. revert a.
    induction fuel as [|fuel IHf]; intros a H.
    + exists a. split; [constructor | exact H].
    + assert (Hcases :
        run r a (fun st1 =>
          if Nat.ltb (String.length (rest st1)) (String.length (rest a))
          then (fix loop (fuel : nat) (st0 : mstate) {struct fuel} : option mstate :=
                  match fuel with
                  | O => k st0
                  | S fuel' =>
                      let again :=
                        run r st0 (fun st1 =>
                          if Nat.ltb (String.length (rest st1)) (String.length (rest st0))
                          then loop fuel' st1 else None) in
                      if g then orElse again (k st0) else orElse (k st0) again
                  end) fuel st1
          else None) = Some res \/ k a = Some res).
      { destruct g; apply orElse_Some in H; tauto. }
      destruct Hcases as [Hmore|Hstop].
      * apply IH in Hmore. destruct Hmore as [b [Hab Hb]].
        destruct (Nat.ltb _ _); [|discriminate].
        apply IHf in Hb. destruct Hb as [c [Hbc Hc]].
        exists c. split; [econstructor; eassumption | exact Hc].
      * exists a. split; [constructor | exact Hstop].
  - simpl in H. apply IH in H. destruct H as [b [Hab H]].
    exists (setCap n a b). split; [now constructor | exact H].
  - simpl in H. destruct (atBoundary a) eqn:E; [|discriminate].
    exists a. split; [now constructor | exact H].
Qed.

Lemma steps_seq_inv (r1 r2 : regex) (a c : mstate) :
  steps (Seq r1 r2) a c -> exists b, steps r1 a b /\ steps r2 b c.
Proof.
  intros H. inversion H; subst. eauto.
Qed.

Lemma steps_grp_inv (n : nat) (r : regex) (a b : mstate) :
  steps (Grp n r) a b -> exists b0, steps r a b0 /\ b = setCap n a b0.
Proof.
  intros H. inversion H; subst. eauto.
Qed.

Lemma steps_cls_inv (p : ascii -> bool) (a b : mstate) :
  steps (Cls p) a b ->
  exists c s, rest a = String c s /\ p c = true /\ b = MState (Some c) s (caps a).
Proof.
  intros H. inversion H; subst. simpl. eauto.
Qed.

(** A pattern only consumes input. *)
Lemma steps_length (r : regex) (a b : mstate) :
  steps r a b -> (String.length (rest b) <= String.length (rest a))%nat.
Proof.
  induction 1; simpl in *; lia.
Qed.

(** A pattern leaves the captures of the groups it does not have. *)
Lemma steps_other_group (n : nat) (r : regex) (a b : mstate) :
  steps r a b -> mentions n r = false -> group n (caps b) = group n (caps a).
Proof.
  induction 1; simpl; intros Hn; try reflexivity.
  - apply orb_false_iff in Hn. destruct Hn as [H1 H2].
    rewrite IHsteps2, IHsteps1; auto.
  - apply orb_false_iff in Hn. destruct Hn as [H1 H2]. auto.
  - apply orb_false_iff in Hn. destruct Hn as [H1 H2]. auto.
  - rewrite IHsteps2, IHsteps1; auto.
  - apply orb_false_iff in Hn. destruct Hn as [H1 H2].
    rewrite H1. auto.
Qed.

Lemma search_sound (r : regex) (s : string) :
  forall (p : option ascii) (i : nat) (res : result),
    search r p s i = Some res -> from_run r res.
Proof.
  induction s as [|c s IH]; intros p i res H; simpl in H.
  - destruct (matchAt r p "") as [st|] eqn:E; [|discriminate].
    injection H as <-. unfold matchAt in E.
    apply run_sound in E. destruct E as [b [Hb [= ->]]].
    eexists. split; [|split; [exact Hb|]]; reflexivity.
  - destruct (matchAt r p (String c s)) as [st|] eqn:E.
    + injection H as <-. unfold matchAt in E.
      apply run_sound in E. destruct E as [b [Hb [= ->]]].
      eexists. split; [|split; [exact Hb|]]; reflexivity.
    + eapply IH. exact H.
Qed.

Lemma matchAllFrom_sound (r : regex) (fuel : nat) :
  forall (p : option ascii) (s : string) (i : nat) (res : result),
    In res (matchAllFrom fuel r p s i) -> from_run r res.
Proof.
  induction fuel as [|fuel IH]; intros p s i res H; simpl in H; [contradiction|].
  destruct (search r p s i) as [res0|] eqn:E; [|contradiction].
  apply search_sound in E.
  destruct (matched res0); destruct (rest (final res0));
    simpl in H; destruct H as [<-|H]; eauto; contradiction.
Qed.

Lemma matchAll_sound (r : regex) (s : string) (res : result) :
  In res (matchAll r s) -> from_run r res.
Proof.
  apply matchAllFrom_sound.
Qed.

(** ** Titles are never empty *)

Lemma letter_not_space (c : ascii) : isLetter c = true -> isWhiteSpace c = false.
Proof.
  destruct c as [[] [] [] [] [] [] [] []]; vm_compute; intros H;
    (reflexivity || discriminate).
Qed.

Lemma trim_keeps_head (c : ascii) (s : string) :
  isWhiteSpace c = false -> trim (String c s) <> "".
Proof.
  intros H. unfold trim. simpl. rewrite H. simpl.
  destruct (trimEnd s); [rewrite H|]; discriminate.
Qed.

Lemma take_succ (n : nat) (c : ascii) (s : string) :
  take (S n) (String c s) = String c (take n s).
Proof. reflexivity. Qed.

(** The title a role pattern captures starts with a letter. *)
Lemma titleGroup_capture (rest_of_pattern : regex) (res : result) :
  mentions 1 rest_of_pattern = false ->
  from_run (Seq ResumeParser.titleGroup rest_of_pattern) res ->
  exists c s, isLetter c = true /\ ResumeParser.capture 1 res = String c s.
Proof.
  intros Hrest [a [Ha [Hsteps Hgroups]]].
  apply steps_seq_inv in Hsteps. destruct Hsteps as [b [Htitle Hafter]].
  apply steps_grp_inv in Htitle. destruct Htitle as [b0 [Htitle ->]].
  unfold ResumeParser.titleGroup in Htitle. simpl in Htitle.
  apply steps_seq_inv in Htitle. destruct Htitle as [a1 [Hfirst Hmore]].
  apply steps_cls_inv in Hfirst. destruct Hfirst as [c [s [Hrest_a [Hc ->]]]].
  apply steps_length in Hmore. simpl in Hmore.
  exists c, (take (String.length s - String.length (rest b0)) s).
  split; [exact Hc|].
  unfold ResumeParser.capture. rewrite Hgroups.
  rewrite (steps_other_group 1 _ _ _ Hafter Hrest).
  simpl. unfold captured. rewrite Hrest_a. simpl String.length.
  rewrite Nat.sub_succ_l by exact Hmore.
  apply take_succ.
Qed.

Lemma patternCandidates_titles (text : string) (r : RoleRecord) :
  In r (ResumeParser.patternCandidates text) -> Profile.title r <> "".
Proof.
  unfold ResumeParser.patternCandidates, ResumeParser.rolePatterns.
  intros H. simpl in H. rewrite app_nil_r in H.
  apply in_app_or in H.
  assert (Hone : forall rest_of_pattern,
    mentions 1 rest_of_pattern = false ->
    In r (map (fun m => Role (trim (ResumeParser.capture 1 m)) None
                          (Some (trim (ResumeParser.capture 2 m))) None)
              (matchAll (Seq ResumeParser.titleGroup rest_of_pattern) text)) ->
    Profile.title r <> "").
  { intros X HX Hin. apply in_map_iff in Hin. destruct Hin as [m [<- Hm]].
    apply matchAll_sound in Hm.
    destruct (titleGroup_capture X m HX Hm) as [c [s [Hc ->]]].
    simpl. apply trim_keeps_head. now apply letter_not_space. }
  destruct H as [H|H]; (eapply Hone; [|exact H]); reflexivity.
Qed.

Lemma roleTitles_capitalized :
  forallb (fun role => negb (String.eqb (ResumeParser.capitalizeTitle role) ""))
          ResumeParser.roleTitles = true.
Proof. vm_compute. reflexivity. Qed.

Lemma lexiconCandidates_titles (currentYear : Z) (text : string) (r : RoleRecord) :
  In r (ResumeParser.lexiconCandidates currentYear text) -> Profile.title r <> "".
Proof.
  unfold ResumeParser.lexiconCandidates. intros H.
  apply in_flat_map in H. destruct H as [line [_ H]].
  apply in_flat_map in H. destruct H as [role [Hrole H]].
  destruct (includes _ role); [|contradiction].
  destruct H as [<-|[]]. simpl.
  pose proof roleTitles_capitalized as Hall.
  rewrite forallb_forall in Hall. specialize (Hall role Hrole).
  apply negb_true_iff in Hall. now apply String.eqb_neq in Hall.
Qed.

(** ** Roles without duplicates *)

Lemma existsb_sameTitle (found : list RoleRecord) (r : RoleRecord) :
  existsb (fun r' => ResumeParser.sameTitle (Profile.title r') (Profile.title r)) found
  = existsb (String.eqb (normalizedTitle r)) (map normalizedTitle found).
Proof.
  induction found as [|x found IH]; simpl; [reflexivity|].
  rewrite IH. unfold ResumeParser.sameTitle, normalizedTitle.
  now rewrite (String.eqb_sym (toLowerCase (Profile.title x))).
Qed.

(** The loop that pushes a role unless its title is there is
    [firstOccurrences]. *)
Lemma fold_pushRole (l : list RoleRecord) :
  forall found,
    fold_left ResumeParser.pushRole l found
    = (found ++ firstOccurrences (map normalizedTitle found) l)%list.
Proof.
  induction l as [|r l IH]; intros found; simpl.
  - now rewrite app_nil_r.
  - rewrite IH. unfold ResumeParser.pushRole. rewrite existsb_sameTitle.
    destruct (existsb _ _); [reflexivity|].
    rewrite map_app. simpl. now rewrite <- app_assoc.
Qed.

Lemma existsb_eqb_In (x : string) (l : list string) :
  existsb (String.eqb x) l = true <-> In x l.
Proof.
  rewrite existsb_exists. split.
  - intros [y [Hy E]]. apply String.eqb_eq in E. now subst.
  - intros H. exists x. split; [exact H | apply String.eqb_refl].
Qed.

Lemma firstOccurrences_fresh (l : list RoleRecord) :
  forall seen r, In r (firstOccurrences seen l) -> ~ In (normalizedTitle r) seen.
Proof.
  induction l as [|x l IH]; intros seen r H; simpl in H; [contradiction|].
  destruct (existsb _ seen) eqn:E.
  - now apply IH.
  - destruct H as [<-|H].
    + rewrite <- existsb_eqb_In. congruence.
    + apply IH in H. intros Hin. apply H. apply in_or_app. now left.
Qed.

Lemma firstOccurrences_NoDup (l : list RoleRecord) :
  forall seen, NoDup (map normalizedTitle (firstOccurrences seen l)).
Proof.
  induction l as [|x l IH]; intros seen; simpl; [constructor|].
  destruct (existsb _ seen); [apply IH|].
  simpl. constructor; [|apply IH].
  intros H. apply in_map_iff in H. destruct H as [r [Hr Hin]].
  apply firstOccurrences_fresh in Hin. apply Hin.
  apply in_or_app. right. left. now symmetry.
Qed.

Lemma firstOccurrences_inOrderOf (l : list RoleRecord) :
  forall seen, inOrderOf (firstOccurrences seen l) l.
Proof.
  induction l as [|x l IH]; intros seen; simpl; [constructor|].
  destruct (existsb _ seen); constructor; apply IH.
Qed.

Lemma firstOccurrences_covers (l : list RoleRecord) :
  forall seen r,
    In r l ->
    In (normalizedTitle r) seen \/
    exists r', In r' (firstOccurrences seen l) /\ normalizedTitle r' = normalizedTitle r.
Proof.
  induction l as [|x l IH]; intros seen r H; [contradiction|].
  simpl. destruct (existsb _ seen) eqn:E.
  - destruct H as [<-|H].
    + left. now apply existsb_eqb_In.
    + now apply IH.
  - destruct H as [<-|H].
    + right. exists x. split; [now left | reflexivity].
    + destruct (IH (seen ++ [normalizedTitle x])%list r H) as [Hseen|[r' [Hr' Heq]]].
      * apply in_app_or in Hseen. destruct Hseen as [Hseen|[Hx|[]]].
        -- now left.
        -- right. exists x. split; [now left | exact Hx].
      * right. exists r'. split; [now right | exact Heq].
Qed.

Lemma firstOccurrences_first (l : list RoleRecord) :
  forall seen r,
    In r (firstOccurrences seen l) ->
    exists before after,
      l = (before ++ r :: after)%list /\
      forall r', In r' before -> normalizedTitle r' <> normalizedTitle r.
Proof.
  induction l as [|x l IH]; intros seen r H; simpl in H; [contradiction|].
  destruct (existsb _ seen) eqn:E.
  - pose proof (firstOccurrences_fresh _ _ _ H) as Hfresh.
    destruct (IH _ _ H) as [before [after [-> Hb]]].
    exists (x :: before), after. split; [reflexivity|].
    intros r' [<-|Hr']; [|now apply Hb].
    intros Heq. apply Hfresh. rewrite <- Heq. now apply existsb_eqb_In.
  - destruct H as [<-|H].
    + exists [], l. split; [reflexivity|]. intros r' [].
    + pose proof (firstOccurrences_fresh _ _ _ H) as Hfresh.
      destruct (IH _ _ H) as [before [after [-> Hb]]].
      exists (x :: before), after. split; [reflexivity|].
      intros r' [<-|Hr']; [|now apply Hb].
      intros Heq. apply Hfresh. apply in_or_app. right. left. exact Heq.
Qed.

Lemma inOrderOf_In {A : Type} (l1 l2 : list A) (x : A) :
  inOrderOf l1 l2 -> In x l1 -> In x l2.
Proof.
  induction 1; simpl; intuition.
Qed.

Lemma extractRoles_firstOccurrences (currentYear : Z) (text normalizedText : string) :
  ResumeParser.extractRoles currentYear text normalizedText
  = firstOccurrences [] (detected currentYear text).
Proof.
  unfold ResumeParser.extractRoles. now rewrite fold_pushRole.
Qed.

Lemma extractRoles_titles (currentYear : Z) (text normalizedText : string) (r : RoleRecord) :
  In r (ResumeParser.extractRoles currentYear text normalizedText) ->
  Profile.title r <> "".
Proof.
  rewrite extractRoles_firstOccurrences. intros H.
  eapply inOrderOf_In in H; [|apply firstOccurrences_inOrderOf].
  apply in_app_or in H. destruct H as [H|H].
  - eapply lexiconCandidates_titles; eassumption.
  - eapply patternCandidates_titles; eassumption.
Qed.

(** C9, as stated, fails: "Growth Developer" stands at offset 0 of the text
    and "Intern" at offset 25, on the next line, yet the extracted roles are
    Intern, then Growth Developer: the roles the patterns find follow every
    role the lexicon finds. *)
Lemma roles_order_counterexample :
  map Profile.title (roles (ResumeParser.extractInformation 2026 two_line_resume))
  = ["Intern"; "Growth Developer"] /\
  indexOf two_line_resume "Growth Developer" = Some 0%nat /\
  indexOf two_line_resume "Intern" = Some 25%nat.
Proof.
  repeat split; vm_compute; reflexivity.
Qed.

(** C9, amended.  No two roles of the extracted profile have titles that
    are equal ignoring case; of the roles detected with one title the first
    is retained; and the retained roles stand in the order of detection:
    the lexicon's finds line by line (on a line in the lexicon's order),
    then the matches of the first pattern, then those of the second. *)
Theorem roles_deduplicated (currentYear : Z) (text : string) :
  let found := roles (ResumeParser.extractInformation currentYear text) in
  found = firstOccurrences [] (detected currentYear text) /\
  NoDup (map normalizedTitle found) /\
  inOrderOf found (detected currentYear text) /\
  (forall r, In r (detected currentYear text) ->
             exists r', In r' found /\ normalizedTitle r' = normalizedTitle r) /\
  (forall r, In r found ->
             exists before after,
               detected currentYear text = (before ++ r :: after)%list /\
               forall r', In r' before -> normalizedTitle r' <> normalizedTitle r).
Proof.
  intros found.
  assert (Hfound : found = firstOccurrences [] (detected currentYear text))
    by apply extractRoles_firstOccurrences.
  split; [exact Hfound|]. rewrite Hfound.
  split; [apply firstOccurrences_NoDup|].
  split; [apply firstOccurrences_inOrderOf|].
  split.
  - intros r Hr.
    destruct (firstOccurrences_covers _ [] r Hr) as [[]|H]. exact H.
  - intros r Hr. eapply firstOccurrences_first. exact Hr.
Qed.

Lemma roles_deduplicated_witness :
  NoDup (map normalizedTitle
           (roles (ResumeParser.extractInformation 2026 two_line_resume))) /\
  inOrderOf (roles (ResumeParser.extractInformation 2026 two_line_resume))
            (detected 2026 two_line_resume).
Proof.
  split.
  - exact (proj1 (proj2 (roles_deduplicated 2026 two_line_resume))).
  - exact (proj1 (proj2 (proj2 (roles_deduplicated 2026 two_line_resume)))).
Defined.

(** ** The primary role *)

Lemma classify_inNoCategory (role : RoleRecord) (m : ExperienceMap) :
  inNoCategory role = true -> ResumeParser.classify role m = m.
Proof.
  unfold inNoCategory, ResumeParser.classify.
  generalize ResumeParser.roleTypes as types.
  induction types as [|[t keywords] types IH]; simpl; intros H; [reflexivity|].
  apply andb_true_iff in H. destruct H as [H1 H2].
  apply negb_true_iff in H1. rewrite H1. now apply IH.
Qed.

Lemma calculateExperienceByRole_inNoCategory (text : string) (l : list RoleRecord) :
  forallb inNoCategory l = true ->
  ResumeParser.calculateExperienceByRole text l = [].
Proof.
  unfold ResumeParser.calculateExperienceByRole.
  assert (H : forall m, forallb inNoCategory l = true ->
                        fold_left (fun acc role => ResumeParser.classify role acc) l m = m).
  { induction l as [|r l IH]; simpl; intros m Hl; [reflexivity|].
    apply andb_true_iff in Hl. destruct Hl as [Hr Hl].
    rewrite classify_inNoCategory by exact Hr. now apply IH. }
  intros Hl. now rewrite H.
Qed.

(** C10.  When no role is detected the primary role is General,
    "Professional", without years in the role; when roles are detected and
    none of them falls in one of the five role types it is General, with
    the title of the first detected role and 0 years in the role. *)
Theorem primary_role_defaults (currentYear : Z) (text : string) :
  let p := ResumeParser.extractInformation currentYear text in
  (roles p = [] ->
   primaryRole p = Some (Primary General "Professional" None)) /\
  (forall first others,
      roles p = first :: others ->
      forallb inNoCategory (roles p) = true ->
      primaryRole p = Some (Primary General (Profile.title first) (Some 0))).
Proof.
  intros p. subst p. unfold ResumeParser.extractInformation.
  cbn [roles primaryRole].
  set (found := ResumeParser.extractRoles currentYear text (toLowerCase text)).
  split.
  - intros ->. reflexivity.
  - intros first others Hfound Hnone.
    rewrite calculateExperienceByRole_inNoCategory by exact Hnone.
    assert (Htitle : Profile.title first <> "").
    { apply (extractRoles_titles currentYear text (toLowerCase text)).
      fold found. rewrite Hfound. now left. }
    rewrite Hfound. simpl.
    apply String.eqb_neq in Htitle. now rewrite Htitle.
Qed.

Lemma primary_role_defaults_witness :
  primaryRole (ResumeParser.extractInformation 2026 "")
  = Some (Primary General "Professional" None) /\
  primaryRole (ResumeParser.extractInformation 2026 "Consultant, 2019 - 2023")
  = Some (Primary General "Consultant" (Some 0)).
Proof.
  split.
  - apply (proj1 (primary_role_defaults 2026 "")). reflexivity.
  - apply (proj2 (primary_role_defaults 2026 "Consultant, 2019 - 2023")
             (Role "Consultant" (Some 4) None (Some "Consultant, 2019 - 2023")) []);
      reflexivity.
Defined.

(** ** Total experience *)

Lemma fold_left_years (m : ExperienceMap) :
  forall total,
    fold_left (fun total e => total + expYears (snd e)) m total = total + sumYears m.
Proof.
  induction m as [|e m IH]; intros total; simpl; [lia|].
  rewrite IH. lia.
Qed.

Lemma calculateTotalExperience_sum (m : ExperienceMap) :
  ResumeParser.calculateTotalExperience m = Z.min (sumYears m) 30.
Proof.
  unfold ResumeParser.calculateTotalExperience. now rewrite fold_left_years.
Qed.

Lemma sumYears_nonneg (m : ExperienceMap) : nonNegative m -> 0 <= sumYears m.
Proof.
  induction 1 as [|e m He Hm IH]; simpl; lia.
Qed.

Lemma addRole_nonneg (t : RoleType) (role : RoleRecord) (m : ExperienceMap) :
  0 <= ResumeParser.truthyYears (years role) ->
  nonNegative m -> nonNegative (ResumeParser.addRole t role m).
Proof.
  intros Hr. unfold nonNegative.
  induction 1 as [|[t' e] m He Hm IH]; simpl.
  - constructor; [simpl; lia | constructor].
  - destruct (RoleType_eqb t' t); constructor; simpl in *; auto; lia.
Qed.

Lemma classify_nonneg (role : RoleRecord) (m : ExperienceMap) :
  0 <= ResumeParser.truthyYears (years role) ->
  nonNegative m -> nonNegative (ResumeParser.classify role m).
Proof.
  intros Hr. unfold ResumeParser.classify.
  generalize ResumeParser.roleTypes as types. intros types. revert m.
  induction types as [|[t keywords] types IH]; simpl; intros m Hm; [exact Hm|].
  apply IH. destruct (existsb _ keywords); [now apply addRole_nonneg | exact Hm].
Qed.

Lemma estimate_nonneg (e : Experience) :
  0 <= expYears e -> 0 <= expYears (ResumeParser.estimate e).
Proof.
  unfold ResumeParser.estimate.
  destruct (_ && _)%bool; simpl; lia.
Qed.

Lemma calculateExperienceByRole_nonneg (text : string) (l : list RoleRecord) :
  (forall r y, In r l -> years r = Some y -> 0 <= y) ->
  nonNegative (ResumeParser.calculateExperienceByRole text l).
Proof.
  intros Hl. unfold ResumeParser.calculateExperienceByRole.
  assert (H : forall m, nonNegative m ->
    nonNegative (fold_left (fun acc role => ResumeParser.classify role acc) l m)).
  { induction l as [|r l IH]; simpl; intros m Hm; [exact Hm|].
    apply IH.
    - intros r' y Hin. apply Hl. now right.
    - apply classify_nonneg; [|exact Hm].
      destruct (years r) as [y|] eqn:E; simpl; [|lia].
      apply (Hl r y); [now left | exact E]. }
  specialize (H [] (Forall_nil _)).
  unfold nonNegative in *. rewrite Forall_map.
  eapply Forall_impl; [|exact H].
  intros [t e] He. simpl in *. now apply estimate_nonneg.
Qed.

(** C3, as stated, fails: a role line whose years run backwards gives a
    negative number of years, which nothing raises to 0. *)
Lemma total_experience_negative_counterexample :
  totalYearsExperience
    (ResumeParser.extractInformation 2026 "Software Engineer 2023 - 2019") = -4 /\
  totalYearsExperience
    (ResumeParser.extractInformation 2026 "Software Engineer 2023 - 2019") < 0.
Proof.
  split; vm_compute; reflexivity.
Qed.

(** C3, amended.  The total years of experience of the extracted profile is
    the sum of the years of all role types capped at 30, so it is at most
    30; it is not negative when no detected role has a negative number of
    years, that is when no role line has an end year before its start
    year. *)
Theorem total_experience_capped (currentYear : Z) (text : string) :
  let p := ResumeParser.extractInformation currentYear text in
  totalYearsExperience p = Z.min (sumYears (experienceByRole p)) 30 /\
  totalYearsExperience p <= 30 /\
  ((forall r y, In r (roles p) -> years r = Some y -> 0 <= y) ->
   0 <= totalYearsExperience p <= 30).
Proof.
  intros p.
  assert (Hsum : totalYearsExperience p = Z.min (sumYears (experienceByRole p)) 30)
    by apply calculateTotalExperience_sum.
  split; [exact Hsum|]. split; [lia|].
  intros Hyears.
  assert (0 <= sumYears (experienceByRole p)).
  { apply sumYears_nonneg.
    apply (calculateExperienceByRole_nonneg text (roles p) Hyears). }
  lia.
Qed.

Lemma total_experience_capped_witness :
  0 <= totalYearsExperience
         (ResumeParser.extractInformation 2026 "Software Engineer 2019 - 2023") <= 30.
Proof.
  apply (proj2 (proj2 (total_experience_capped 2026 "Software Engineer 2019 - 2023"))).
  intros r y Hin Hy. vm_compute in Hin.
  destruct Hin as [<-|[]]. injection Hy as <-.
  apply Z.leb_le. reflexivity.
Defined.

(** ** The examples of the specification, evaluated *)

Example sample_resume_profile :
  let p := ResumeParser.extractInformation 2026 sample_resume in
  seniorityLevel p = senior /\
  In (Role "Software Engineer" (Some (2026 - 2015)) None
        (Some "Senior Software Engineer 2015 - Present")) (roles p) /\
  In "Python" (technical (skills p)) /\
  totalYearsExperience p = 22.
Proof.
  vm_compute. repeat split; auto.
Qed.

Example pivoter_scores :
  JobMatcher.calculateExperienceScore pivoter (job_titled "Senior Product Manager" None) = 25 /\
  JobMatcher.calculateExperienceScore pivoter (job_titled "Product Manager" None) = 100.
Proof.
  split; reflexivity.
Qed.

Example no_reference_terms :
  JobMatcher.calculateContentScore
    (MkProfile "" [] [] 0 (MkSkills ["Python"] [] []) mid [] None [])
    (job_titled "Gardener" (Some "plants and soil")) = 75.
Proof.
  reflexivity.
Qed.

(* ================================================================== *)
(** * Further properties of the code *)

(** ** The ranges of the scores *)

Lemma calculateExperienceScore_range (p : Profile.t) (j : JobMatcher.Job) :
  0 <= JobMatcher.calculateExperienceScore p j <= 100.
Proof.
  unfold JobMatcher.calculateExperienceScore.
  set (relevant := JobMatcher.getRelevantExperience p j).
  set (level := match JobMatcher.levelOf _ _ with Some lv => lv | None => _ end).
  set (lo := JobMatcher.min level). set (hi := JobMatcher.max level).
  assert (Hband : 0 <=
    (if ((lo <=? relevant) && (relevant <=? hi + 2))%bool then 100
     else if ((lo - 1 <=? relevant) && (relevant <=? hi + 3))%bool then 80
     else if relevant <? lo then Z.max 0 (70 - (lo - relevant) * 15)
     else Z.max 40 (90 - (relevant - hi) * 10)) <= 100).
  { destruct (Z.leb_spec lo relevant), (Z.leb_spec relevant (hi + 2));
      cbn [andb]; try lia;
      destruct (Z.leb_spec (lo - 1) relevant), (Z.leb_spec relevant (hi + 3));
      cbn [andb]; try lia;
      destruct (Z.ltb_spec relevant lo); lia. }
  repeat match goal with
         | |- context [if ?b then _ else _] =>
             lazymatch b with
             | (_ >? _) && _ => destruct b
             | String.eqb _ _ || _ => destruct b
             | _ || String.eqb _ _ => destruct b
             end
         end; lia.
Qed.

Lemma calculateContentScore_range (p : Profile.t) (j : JobMatcher.Job) :
  0 <= JobMatcher.calculateContentScore p j <= 100.
Proof.
  unfold JobMatcher.calculateContentScore.
  set (matched := JobMatcher.countIncluded _ (map _ _)).
  set (reference := JobMatcher.countIncluded _ JobMatcher.technicalTerms).
  destruct (reference =? 0) eqn:E.
  - destruct (Nat.ltb _ _); lia.
  - apply Z.eqb_neq in E.
    pose proof (countIncluded_nonneg (JobMatcher.textOf j) JobMatcher.technicalTerms) as Hr.
    pose proof (countIncluded_nonneg (JobMatcher.textOf j)
                  (map toLowerCase (technical (skills p)))) as Hm.
    fold reference in Hr. fold matched in Hm.
    rewrite round_min_100.
    assert (0 <= JSMath.round (inject_Z matched / inject_Z (Z.max reference 1) * 120)%Q).
    { rewrite <- (round_integer 0). apply round_monotone.
      change (inject_Z 0) with 0%Q.
      apply Qmult_le_0_compat; [|lra].
      apply Qle_shift_div_l.
      - change 0%Q with (inject_Z 0). rewrite <- Zlt_Qlt. lia.
      - rewrite Qmult_0_l. change 0%Q with (inject_Z 0). rewrite <- Zle_Qle. exact Hm. }
    lia.
Qed.

Lemma calculateRoleScore_range (p : Profile.t) (j : JobMatcher.Job) :
  20 <= JobMatcher.calculateRoleScore p j <= 100.
Proof.
  pose proof (calculateRoleScore_ladder p j) as H. simpl in H. intuition lia.
Qed.

(** The total is the weighted sum itself: rounding it to two decimals
    changes nothing, the three scores being integers. *)
Lemma calculateMatchScore_total (p : Profile.t) (j : JobMatcher.Job) :
  (JobMatcher.total (JobMatcher.calculateMatchScore p j) ==
   inject_Z (40 * JobMatcher.calculateRoleScore p j
             + 35 * JobMatcher.calculateExperienceScore p j
             + 25 * JobMatcher.calculateContentScore p j) / 100)%Q.
Proof.
  unfold JobMatcher.calculateMatchScore. cbn [JobMatcher.total].
  set (r := JobMatcher.calculateRoleScore p j).
  set (e := JobMatcher.calculateExperienceScore p j).
  set (c := JobMatcher.calculateContentScore p j).
  rewrite (round_comp _ (inject_Z (40 * r + 35 * e + 25 * c))).
  - rewrite round_integer. reflexivity.
  - rewrite !inject_Z_plus, !inject_Z_mult. field.
Qed.

(** X1.  Every sub-score of a posting lies in its range: the role score in
    [20, 100], the experience and the content score in [0, 100]; the total
    is exactly (40 role + 35 experience + 25 content) / 100, so it lies in
    [8, 100]. *)
Theorem match_scores_ranges (p : Profile.t) (j : JobMatcher.Job) :
  let s := JobMatcher.calculateMatchScore p j in
  (20 <= JobMatcher.role s <= 100) /\
  (0 <= JobMatcher.experience s <= 100) /\
  (0 <= JobMatcher.content s <= 100) /\
  (JobMatcher.total s ==
   inject_Z (40 * JobMatcher.role s + 35 * JobMatcher.experience s
             + 25 * JobMatcher.content s) / 100)%Q /\
  (8 <= JobMatcher.total s <= 100)%Q.
Proof.
  intros s.
  pose proof (calculateRoleScore_range p j) as Hr.
  pose proof (calculateExperienceScore_range p j) as He.
  pose proof (calculateContentScore_range p j) as Hc.
  pose proof (calculateMatchScore_total p j) as Ht.
  split; [exact Hr|]. split; [exact He|]. split; [exact Hc|].
  split; [exact Ht|].
  subst s. rewrite Ht.
  set (k := 40 * JobMatcher.calculateRoleScore p j
            + 35 * JobMatcher.calculateExperienceScore p j
            + 25 * JobMatcher.calculateContentScore p j) in *.
  assert (Hk : 800 <= k <= 10000) by (subst k; lia).
  destruct Hk as [Hlo Hhi].
  rewrite Zle_Qle in Hlo, Hhi.
  change (inject_Z 800) with 800%Q in Hlo. change (inject_Z 10000) with 10000%Q in Hhi.
  assert (Hdiv : (inject_Z k / 100 == inject_Z k * (1 # 100))%Q) by reflexivity.
  rewrite Hdiv. split; lra.
Qed.

(** ** Categories by total *)

Lemma confidence_thresholds (s : JobMatcher.Scores) :
  (90 <= JobMatcher.calculateConfidence s <-> (85 <= JobMatcher.total s)%Q) /\
  (70 <= JobMatcher.calculateConfidence s <-> (60 <= JobMatcher.total s)%Q) /\
  JobMatcher.calculateConfidence s <= 95 /\
  ((0 <= JobMatcher.total s)%Q -> 0 <= JobMatcher.calculateConfidence s).
Proof.
  unfold JobMatcher.calculateConfidence.
  set (t := JobMatcher.total s).
  bands.
  - round_bounds (90 + (t - 85) * 0.33)%Q 90%Q (90 + (t - 85) * 0.33)%Q.
    repeat split; intros; try lia; try lra.
  - round_bounds (70 + (t - 60) * 0.76)%Q 70%Q 89%Q.
    repeat split; intros; try lia; try lra.
  - round_bounds (50 + (t - 40) * 0.95)%Q 50%Q 69%Q.
    repeat split; intros; try lia; try lra.
  - repeat split; intros; try lra.
    + round_bounds (t * 1.25)%Q (t * 1.25)%Q 50%Q. lia.
    + round_bounds (t * 1.25)%Q (t * 1.25)%Q 50%Q. lia.
    + round_bounds (t * 1.25)%Q (t * 1.25)%Q 50%Q. lia.
    + round_bounds (t * 1.25)%Q 0%Q (t * 1.25)%Q. lia.
Qed.

Lemma Qle_bool_true_iff (a b : Q) : Qle_bool a b = true <-> (a <= b)%Q.
Proof. apply Qle_bool_iff. Qed.

Lemma Qle_bool_false_iff (a b : Q) : Qle_bool a b = false <-> (b < a)%Q.
Proof.
  split; [apply Qle_bool_false|].
  intros H. destruct (Qle_bool a b) eqn:E; [|reflexivity].
  apply Qle_bool_iff in E. lra.
Qed.

Section Partition.

Context {A : Type}.
Variable score : A -> Q.
Variables high low : Q.
Hypothesis low_high : (low <= high)%Q.

Lemma filter_none (f : A -> bool) (l : list A) :
  Forall (fun x => f x = false) l -> filter f l = [].
Proof.
  induction 1 as [|x l Hx Hl IH]; simpl; [reflexivity|].
  now rewrite Hx.
Qed.

(** A list in descending order of score is its top part, then its middle
    part, then its bottom part. *)
Lemma sorted_partition (l : list A) :
  StronglySorted (notBelow score) l ->
  l = (filter (top score high) l ++ filter (middle score high low) l
       ++ filter (bottom score low) l)%list.
Proof.
  induction 1 as [|x l Hl IH Hx]; [reflexivity|].
  unfold notBelow in Hx. simpl.
  unfold top, middle, bottom in *.
  destruct (Qle_bool high (score x)) eqn:Eh.
  - apply Qle_bool_iff in Eh.
    assert (El : Qle_bool low (score x) = true) by (apply Qle_bool_iff; lra).
    rewrite El. simpl. now rewrite <- IH.
  - apply Qle_bool_false in Eh.
    assert (Htop : filter (fun y => Qle_bool high (score y)) l = []).
    { apply filter_none. eapply Forall_impl; [|exact Hx].
      intros y Hy. apply Qle_bool_false_iff. simpl in Hy. lra. }
    destruct (Qle_bool low (score x)) eqn:El; simpl.
    + rewrite Htop in *. simpl in *. now rewrite <- IH.
    + apply Qle_bool_false in El.
      assert (Hmid : filter (fun y => (Qle_bool low (score y)
                                        && negb (Qle_bool high (score y)))%bool) l = []).
      { apply filter_none. eapply Forall_impl; [|exact Hx].
        intros y Hy. simpl in Hy. apply andb_false_iff. left.
        apply Qle_bool_false_iff. lra. }
      rewrite Htop, Hmid in *. simpl in *. now rewrite <- IH.
Qed.

End Partition.

Lemma matchJobs_scored (p : Profile.t) (jobs : list JobMatcher.Job) (s : JobMatcher.ScoredJob) :
  In s (JobMatcher.all (JobMatcher.matchJobs p jobs)) ->
  exists j, In j jobs /\ s = JobMatcher.scoreJob p j.
Proof.
  rewrite matchJobs_all. intros Hs.
  eapply Permutation_in in Hs; [|apply Permutation_sym, sort_permutation].
  apply in_map_iff in Hs. destruct Hs as [j [<- Hj]]. eauto.
Qed.

(** X2.  The categories are bands of the total: a scored job is
    recommended exactly when its total is at least 85 and worth exploring
    exactly when it is at least 60 and below 85.  So the sorted list [all]
    is the recommended jobs, followed by the jobs worth exploring, followed
    by the jobs whose total is below 60. *)
Theorem matchJobs_partition (p : Profile.t) (jobs : list JobMatcher.Job) :
  let m := JobMatcher.matchJobs p jobs in
  JobMatcher.recommended m = filter (top JobMatcher.matchScore 85) (JobMatcher.all m) /\
  JobMatcher.worthExploring m = filter (middle JobMatcher.matchScore 85 60) (JobMatcher.all m) /\
  JobMatcher.all m =
    (JobMatcher.recommended m ++ JobMatcher.worthExploring m
     ++ filter (bottom JobMatcher.matchScore 60) (JobMatcher.all m))%list.
Proof.
  intros m.
  assert (Hrec : JobMatcher.recommended m
                 = filter (top JobMatcher.matchScore 85) (JobMatcher.all m)).
  { subst m. unfold JobMatcher.matchJobs.
    cbn [JobMatcher.recommended JobMatcher.all].
    apply filter_ext_in. intros s Hs.
    change (In s (JobMatcher.all (JobMatcher.matchJobs p jobs))) in Hs.
    apply matchJobs_scored in Hs. destruct Hs as [j [_ ->]].
    unfold top. cbn [JobMatcher.scoreJob JobMatcher.confidence JobMatcher.matchScore].
    destruct (confidence_thresholds (JobMatcher.calculateMatchScore p j))
      as [H90 [_ [H95 _]]].
    apply eq_true_iff_eq.
    rewrite andb_true_iff, !Z.leb_le, Qle_bool_iff. tauto. }
  assert (Hwe : JobMatcher.worthExploring m
                = filter (middle JobMatcher.matchScore 85 60) (JobMatcher.all m)).
  { subst m. unfold JobMatcher.matchJobs.
    cbn [JobMatcher.worthExploring JobMatcher.all].
    apply filter_ext_in. intros s Hs.
    change (In s (JobMatcher.all (JobMatcher.matchJobs p jobs))) in Hs.
    apply matchJobs_scored in Hs. destruct Hs as [j [_ ->]].
    unfold middle. cbn [JobMatcher.scoreJob JobMatcher.confidence JobMatcher.matchScore].
    destruct (confidence_thresholds (JobMatcher.calculateMatchScore p j))
      as [H90 [H70 _]].
    apply eq_true_iff_eq.
    rewrite !andb_true_iff, negb_true_iff, Z.leb_le, Z.ltb_lt, Qle_bool_iff,
      Qle_bool_false_iff.
    split.
    - intros [Hlo Hhi]. split; [tauto|].
      destruct (Qlt_le_dec (JobMatcher.total (JobMatcher.calculateMatchScore p j)) 85)
        as [Hlt|Hge]; [exact Hlt|]. apply H90 in Hge. lia.
    - intros [Hlo Hhi]. split; [tauto|].
      destruct (Z_lt_le_dec (JobMatcher.calculateConfidence
                               (JobMatcher.calculateMatchScore p j)) 90)
        as [Hlt|Hge]; [exact Hlt|]. apply H90 in Hge. lra. }
  split; [exact Hrec|]. split; [exact Hwe|].
  rewrite Hrec, Hwe.
  apply sorted_partition; [lra|].
  subst m. rewrite matchJobs_all. apply sort_sorted.
Qed.

(** ** Matching titles *)

Lemma prefix_refl (s : string) : prefix s s = true.
Proof.
  induction s as [|c s IH]; simpl; [reflexivity|].
  destruct (ascii_dec c c); [exact IH | contradiction].
Qed.

Lemma includes_refl (s : string) : includes s s = true.
Proof.
  destruct s; [reflexivity|].
  cbn [includes]. now rewrite prefix_refl.
Qed.

Lemma toLowerCase_empty (s : string) : toLowerCase s = "" <-> s = "".
Proof.
  destruct s; simpl; split; intros H; (reflexivity || discriminate).
Qed.

Lemma existsb_pointwise {A : Type} (f g : A -> bool) (l : list A) :
  (forall x, f x = g x) -> existsb f l = existsb g l.
Proof.
  intros H. induction l as [|x l IH]; simpl; [reflexivity|].
  now rewrite H, IH.
Qed.

Lemma titlesMatch_symmetric (a b : string) :
  JobMatcher.titlesMatch a b = JobMatcher.titlesMatch b a.
Proof.
  unfold JobMatcher.titlesMatch.
  rewrite (orb_comm (String.eqb a "")), (orb_comm (includes a b)).
  destruct (String.eqb b "" || String.eqb a "")%bool; [reflexivity|].
  destruct (includes b a || includes a b)%bool; [reflexivity|].
  apply existsb_pointwise. intros [canonical synonyms]. apply andb_comm.
Qed.

Lemma titlesMatch_reflexive (a : string) :
  a <> "" -> JobMatcher.titlesMatch a a = true.
Proof.
  intros H. unfold JobMatcher.titlesMatch.
  apply String.eqb_neq in H. rewrite H. cbn [orb].
  now rewrite includes_refl.
Qed.

(** X3.  [titlesMatch] is symmetric, holds of every non-empty title and
    itself, and never holds of the empty title. *)
Theorem titlesMatch_relation (a b : string) :
  JobMatcher.titlesMatch a b = JobMatcher.titlesMatch b a /\
  (a <> "" -> JobMatcher.titlesMatch a a = true) /\
  JobMatcher.titlesMatch a "" = false /\
  JobMatcher.titlesMatch "" b = false.
Proof.
  split; [apply titlesMatch_symmetric|].
  split; [apply titlesMatch_reflexive|].
  split.
  - unfold JobMatcher.titlesMatch. now rewrite orb_true_r.
  - reflexivity.
Qed.

Lemma titlesMatch_relation_witness :
  JobMatcher.titlesMatch "ux designer" "ux designer" = true /\ True.
Proof.
  split; [|exact I].
  apply (proj1 (proj2 (titlesMatch_relation "ux designer" "ux designer"))).
  discriminate.
Defined.

Lemma calculateRoleScore_history (p : Profile.t) (j : JobMatcher.Job) (r : RoleRecord) :
  In r (roles p) ->
  Profile.title r <> "" ->
  toLowerCase (JobMatcher.title j) = toLowerCase (Profile.title r) ->
  85 <= JobMatcher.calculateRoleScore p j.
Proof.
  intros Hr Hne Heq. unfold JobMatcher.calculateRoleScore.
  destruct (JobMatcher.titlesMatch _ _); [lia|].
  assert (Hex : existsb (fun role => JobMatcher.titlesMatch (toLowerCase (JobMatcher.title j)) role)
                  (map (fun r => toLowerCase (Profile.title r)) (roles p)) = true).
  { apply existsb_exists. exists (toLowerCase (Profile.title r)). split.
    - apply in_map_iff. eauto.
    - rewrite Heq. apply titlesMatch_reflexive.
      intros H. apply (proj1 (toLowerCase_empty _)) in H. contradiction. }
  rewrite Hex. lia.
Qed.

Lemma calculateRoleScore_primary (p : Profile.t) (j : JobMatcher.Job) (r : PrimaryRole) :
  primaryRole p = Some r ->
  primaryTitle r <> "" ->
  toLowerCase (JobMatcher.title j) = toLowerCase (primaryTitle r) ->
  JobMatcher.calculateRoleScore p j = 100.
Proof.
  intros Hr Hne Heq. unfold JobMatcher.calculateRoleScore.
  rewrite Hr, Heq, titlesMatch_reflexive; [reflexivity|].
  intros H. apply (proj1 (toLowerCase_empty _)) in H. contradiction.
Qed.

Lemma determinePrimaryRole_title (l : list RoleRecord) (m : ExperienceMap)
  (r : RoleRecord) (others : list RoleRecord) :
  l = r :: others -> Profile.title r <> "" ->
  primaryTitle (ResumeParser.determinePrimaryRole l m) = Profile.title r.
Proof.
  intros -> Hne. unfold ResumeParser.determinePrimaryRole.
  destruct (fold_left _ _ _) as [maxYears primaryType]. cbn [primaryTitle].
  apply String.eqb_neq in Hne. now rewrite Hne.
Qed.

(** X4.  From the resume to the role score: on the profile extracted from
    a text, a posting whose title is, ignoring case, the title of a
    detected role scores at least 85 for the role, and 100 when that role
    is the first detected one. *)
Theorem detected_role_scores (currentYear : Z) (text : string) (j : JobMatcher.Job) :
  let p := ResumeParser.extractInformation currentYear text in
  (forall r, In r (roles p) ->
             toLowerCase (JobMatcher.title j) = toLowerCase (Profile.title r) ->
             85 <= JobMatcher.calculateRoleScore p j) /\
  (forall r others, roles p = r :: others ->
             toLowerCase (JobMatcher.title j) = toLowerCase (Profile.title r) ->
             JobMatcher.calculateRoleScore p j = 100).
Proof.
  intros p. split.
  - intros r Hr Heq. apply (calculateRoleScore_history p j r Hr); [|exact Heq].
    apply (extractRoles_titles currentYear text (toLowerCase text)). exact Hr.
  - intros r others Hroles Heq.
    assert (Hne : Profile.title r <> "").
    { apply (extractRoles_titles currentYear text (toLowerCase text)).
      change (In r (roles p)). rewrite Hroles. now left. }
    pose proof (determinePrimaryRole_title (roles p) (experienceByRole p) r others
                  Hroles Hne) as Ht.
    apply (calculateRoleScore_primary p j
             (ResumeParser.determinePrimaryRole (roles p) (experienceByRole p))).
    + reflexivity.
    + rewrite Ht. exact Hne.
    + rewrite Ht. exact Heq.
Qed.

Lemma detected_role_scores_witness :
  JobMatcher.calculateRoleScore
    (ResumeParser.extractInformation 2026 two_line_resume)
    (job_titled "INTERN" None) = 100 /\
  85 <= JobMatcher.calculateRoleScore
          (ResumeParser.extractInformation 2026 two_line_resume)
          (job_titled "growth developer" None).
Proof.
  split.
  - apply (proj2 (detected_role_scores 2026 two_line_resume (job_titled "INTERN" None))
             (Role "Intern" (Some 1) None (Some "Intern 2019 - 2020"))
             [Role "Growth Developer" None
                (Some ("Acme" ++ String ResumeParser.LF "Intern 2019")) None]).
    + vm_compute. reflexivity.
    + reflexivity.
  - apply (proj1 (detected_role_scores 2026 two_line_resume
                    (job_titled "growth developer" None))
             (Role "Growth Developer" None
                (Some ("Acme" ++ String ResumeParser.LF "Intern 2019")) None)).
    + vm_compute. right. left. reflexivity.
    + reflexivity.
Defined.

(** ** The level of a posting *)

Lemma extractJobLevel_cases (jobTitle : string) :
  In (JobMatcher.extractJobLevel jobTitle) jobLevels.
Proof.
  unfold JobMatcher.extractJobLevel, jobLevels.
  repeat match goal with
         | |- context [if ?b then _ else _] => destruct b
         end; simpl; auto 12.
Qed.

(** X5.  [extractJobLevel] returns one of ten levels, each of which has its
    requirements in [experienceLevels], and never "entry": the default
    requirements of 0 to 100 years are never used.  The word "intern"
    anywhere in a title decides the level, and a "product manager" is never
    of level "manager". *)
Theorem extractJobLevel_levels (jobTitle : string) :
  In (JobMatcher.extractJobLevel jobTitle) jobLevels /\
  JobMatcher.extractJobLevel jobTitle <> "entry" /\
  (exists lv, JobMatcher.levelOf (JobMatcher.extractJobLevel jobTitle)
                JobMatcher.experienceLevels = Some lv) /\
  (includes (toLowerCase jobTitle) "intern" = true ->
   JobMatcher.extractJobLevel jobTitle = "intern") /\
  (includes (toLowerCase jobTitle) "product manager" = true ->
   JobMatcher.extractJobLevel jobTitle <> "manager").
Proof.
  pose proof (extractJobLevel_cases jobTitle) as H.
  split; [exact H|]. split; [|split; [|split]].
  - unfold jobLevels in H. simpl in H.
    intros E. rewrite E in H. intuition discriminate.
  - unfold jobLevels in H. simpl in H.
    destruct H as [<-|[<-|[<-|[<-|[<-|[<-|[<-|[<-|[<-|[<-|[]]]]]]]]]]];
      eexists; reflexivity.
  - intros Hi. unfold JobMatcher.extractJobLevel. now rewrite Hi.
  - intros Hpm. unfold JobMatcher.extractJobLevel. rewrite Hpm.
    rewrite andb_false_r.
    repeat match goal with
           | |- context [if ?b then _ else _] => destruct b
           end; discriminate.
Qed.

Lemma extractJobLevel_levels_witness :
  JobMatcher.extractJobLevel "Internal Communications Manager" = "intern" /\
  JobMatcher.extractJobLevel "Group Product Manager" <> "manager".
Proof.
  split.
  - apply (proj1 (proj2 (proj2 (proj2
             (extractJobLevel_levels "Internal Communications Manager"))))).
    reflexivity.
  - apply (proj2 (proj2 (proj2 (proj2
             (extractJobLevel_levels "Group Product Manager"))))).
    reflexivity.
Defined.

(** ** What a posting's scores depend on *)

(** X6.  The role score and the experience score depend on a posting only
    through its title: the years of experience its description asks for,
    which [extractRequiredExperience] reads, never change the experience
    score.  With the description as well, all scores and the confidence
    are determined. *)
Theorem scores_depend_on_title (p : Profile.t) (j j' : JobMatcher.Job) :
  JobMatcher.title j = JobMatcher.title j' ->
  JobMatcher.calculateRoleScore p j = JobMatcher.calculateRoleScore p j' /\
  JobMatcher.calculateExperienceScore p j = JobMatcher.calculateExperienceScore p j' /\
  (JobMatcher.descriptionOf j = JobMatcher.descriptionOf j' ->
   JobMatcher.calculateMatchScore p j = JobMatcher.calculateMatchScore p j').
Proof.
  intros Ht.
  assert (Hr : JobMatcher.calculateRoleScore p j = JobMatcher.calculateRoleScore p j').
  { unfold JobMatcher.calculateRoleScore. now rewrite Ht. }
  assert (He : JobMatcher.calculateExperienceScore p j
               = JobMatcher.calculateExperienceScore p j').
  { unfold JobMatcher.calculateExperienceScore, JobMatcher.getRelevantExperience.
    now rewrite Ht. }
  split; [exact Hr|]. split; [exact He|].
  intros Hd.
  unfold JobMatcher.calculateMatchScore. rewrite Hr, He.
  assert (Hc : JobMatcher.calculateContentScore p j = JobMatcher.calculateContentScore p j').
  { unfold JobMatcher.calculateContentScore, JobMatcher.textOf. now rewrite Ht, Hd. }
  now rewrite Hc.
Qed.

Lemma scores_depend_on_title_witness :
  JobMatcher.calculateExperienceScore pivoter
    (job_titled "Product Manager" (Some "10+ years of experience required"))
  = JobMatcher.calculateExperienceScore pivoter (job_titled "Product Manager" None) /\ True.
Proof.
  split; [|exact I].
  apply (scores_depend_on_title pivoter
           (job_titled "Product Manager" (Some "10+ years of experience required"))
           (job_titled "Product Manager" None)).
  reflexivity.
Defined.

(** ** What the career-pivot special case changes *)

Lemma calculateExperienceScore_bands (p : Profile.t) (j : JobMatcher.Job) :
  JobMatcher.calculateExperienceScore p j =
  let level := JobMatcher.extractJobLevel (JobMatcher.title j) in
  if ((totalYearsExperience p >? 5) && (JobMatcher.getRelevantExperience p j <? 3))%bool
  then
    if (String.eqb level "senior" || String.eqb level "lead"
        || String.eqb level "manager")%bool
    then Z.min (bandScore p j) 40
    else if (String.eqb level "mid" || String.eqb level "junior"
             || String.eqb level "entry")%bool
    then Z.max (bandScore p j) 70
    else bandScore p j
  else bandScore p j.
Proof.
  unfold JobMatcher.calculateExperienceScore, bandScore, requirementsOf.
  now rewrite extractJobLevel_lower.
Qed.

(** X7.  The special case for career pivoters never lowers a score: for a
    senior, lead or manager posting a candidate with less than 3 relevant
    years is at most at 25 in the bands already, below the cap of 40.  It
    changes the score only by raising it to 70, for a mid-level posting
    and no relevant years at all, or for a junior posting and fewer than
    -1. *)
Theorem career_pivot_effect (p : Profile.t) (j : JobMatcher.Job) :
  let level := JobMatcher.extractJobLevel (JobMatcher.title j) in
  let relevant := JobMatcher.getRelevantExperience p j in
  bandScore p j <= JobMatcher.calculateExperienceScore p j /\
  (In level seniorLevels -> relevant < 3 ->
   bandScore p j <= 25 /\ JobMatcher.calculateExperienceScore p j = bandScore p j) /\
  (JobMatcher.calculateExperienceScore p j <> bandScore p j ->
   JobMatcher.calculateExperienceScore p j = 70 /\
   5 < totalYearsExperience p /\
   ((level = "mid" /\ relevant <= 0) \/ (level = "junior" /\ relevant < -1))).
Proof.
  intros level relevant.
  rewrite calculateExperienceScore_bands. cbv zeta. fold level relevant.
  pose proof (extractJobLevel_cases (JobMatcher.title j)) as Hlevel.
  fold level in Hlevel.
  assert (Hband : forall lo hi,
    requirementsOf j = JobMatcher.MkLevel lo hi ->
    bandScore p j =
      if ((lo <=? relevant) && (relevant <=? hi + 2))%bool then 100
      else if ((lo - 1 <=? relevant) && (relevant <=? hi + 3))%bool then 80
      else if relevant <? lo then Z.max 0 (70 - (lo - relevant) * 15)
      else Z.max 40 (90 - (relevant - hi) * 10)).
  { intros lo hi E. unfold bandScore. rewrite E. reflexivity. }
  assert (Hreq : requirementsOf j =
                 match JobMatcher.levelOf level JobMatcher.experienceLevels with
                 | Some lv => lv
                 | None => JobMatcher.MkLevel 0 100
                 end) by reflexivity.
  unfold jobLevels, seniorLevels in *. simpl in Hlevel.
  destruct (Z.gtb_spec (totalYearsExperience p) 5) as [Htotal|Htotal];
    destruct (Z.ltb_spec relevant 3) as [Hrel|Hrel]; cbn [andb];
    destruct Hlevel as [E|[E|[E|[E|[E|[E|[E|[E|[E|[E|[]]]]]]]]]]];
    rewrite <- E in *; cbn in Hreq;
    rewrite (Hband _ _ Hreq); cbn [String.eqb Ascii.eqb Bool.eqb orb].
  all: match goal with
       | |- context [if ?c then 100 else ?rest] =>
           remember (if c then 100 else rest) as b eqn:Hb
       end.
  all: repeat match type of Hb with
         | context [(?x <=? ?y)] => destruct (Z.leb_spec x y)
         | context [(?x <? ?y)] => destruct (Z.ltb_spec x y)
         end; cbn [andb] in Hb.
  all: split; [lia|].
  all: split;
       [ intros Hin Hr; simpl in Hin;
         first [ solve [destruct Hin as [Hx|[Hx|[Hx|[]]]]; discriminate]
               | split; lia ]
       | intros Hneq;
         first [ solve [exfalso; apply Hneq; lia]
               | split; [lia|]; split; [lia|];
                 first [ left; split; [reflexivity | lia]
                       | right; split; [reflexivity | lia] ] ] ].
Qed.

Lemma career_pivot_effect_witness :
  JobMatcher.calculateExperienceScore pivoter (job_titled "Senior Product Manager" None)
  = bandScore pivoter (job_titled "Senior Product Manager" None) /\
  bandScore pivoter (job_titled "Senior Product Manager" None) <= 25.
Proof.
  destruct (proj1 (proj2 (career_pivot_effect pivoter
                            (job_titled "Senior Product Manager" None))))
    as [Hband Hsame].
  - left. reflexivity.
  - reflexivity.
  - split; [exact Hsame | exact Hband].
Defined.

(** ** The explanations of a match *)

(** X8.  [generateMatchExplanation] gives at most three sentences, at most
    one for each of role, experience and skills, in that order.  It gives
    none at all exactly when the role score is below 60, the content score
    below 70 and the experience score from 50 to 59, a range for which it
    has no sentence. *)
Theorem generateMatchExplanation_sentences (s : JobMatcher.Scores) (p : Profile.t)
  (j : JobMatcher.Job) :
  (List.length (JobMatcher.generateMatchExplanation s p j) <= 3)%nat /\
  (JobMatcher.generateMatchExplanation s p j = [] <->
   JobMatcher.role s < 60 /\ 50 <= JobMatcher.experience s < 60 /\
   JobMatcher.content s < 70) /\
  (85 <= JobMatcher.role s ->
   exists others,
     JobMatcher.generateMatchExplanation s p j =
     ("Strong role alignment with your " ++ JobMatcher.backgroundOf p) :: others) /\
  (JobMatcher.role s < 60 -> JobMatcher.experience s < 50 ->
   exists others,
     JobMatcher.generateMatchExplanation s p j =
     "May require more experience in this specific area" :: others).
Proof.
  unfold JobMatcher.generateMatchExplanation.
  destruct (Z.leb_spec 85 (JobMatcher.role s));
    destruct (Z.leb_spec 60 (JobMatcher.role s));
    destruct (Z.leb_spec 80 (JobMatcher.experience s));
    destruct (Z.leb_spec 60 (JobMatcher.experience s));
    destruct (Z.ltb_spec (JobMatcher.experience s) 50);
    destruct (Z.leb_spec 70 (JobMatcher.content s));
    try lia; cbn [app List.length];
    (split; [lia|]);
    (split; [split; [intros E; (discriminate E || lia) | intros E; (reflexivity || lia)]|]);
    (split; intros; try lia; eexists; reflexivity).
Qed.

Lemma generateMatchExplanation_sentences_witness :
  (exists others,
     JobMatcher.generateMatchExplanation (JobMatcher.MkScores 100 80 75 (9875 # 100))
       pivoter (job_titled "Product Manager" None) =
     ("Strong role alignment with your " ++ JobMatcher.backgroundOf pivoter) :: others) /\
  True.
Proof.
  split; [|exact I].
  apply (proj1 (proj2 (proj2 (generateMatchExplanation_sentences
           (JobMatcher.MkScores 100 80 75 (9875 # 100)) pivoter
           (job_titled "Product Manager" None))))).
  apply Z.leb_le. reflexivity.
Defined.

(** ** Listings without duplicates *)

Lemma keepUnseen_fresh (jobs : list JobMatcher.Job) :
  forall seen job, In job (JobSearch.keepUnseen seen jobs) ->
                   ~ In (JobSearch.keyOf job) seen.
Proof.
  induction jobs as [|x jobs IH]; intros seen job H; simpl in H; [contradiction|].
  destruct (existsb _ seen) eqn:E.
  - now apply IH.
  - destruct H as [<-|H].
    + rewrite <- existsb_eqb_In. congruence.
    + apply IH in H. intros Hin. apply H. now right.
Qed.

Lemma keepUnseen_NoDup (jobs : list JobMatcher.Job) :
  forall seen, NoDup (map JobSearch.keyOf (JobSearch.keepUnseen seen jobs)).
Proof.
  induction jobs as [|x jobs IH]; intros seen; simpl; [constructor|].
  destruct (existsb _ seen); [apply IH|].
  simpl. constructor; [|apply IH].
  intros H. apply in_map_iff in H. destruct H as [job [Hk Hin]].
  apply keepUnseen_fresh in Hin. apply Hin. left. now symmetry.
Qed.







(** ** [[...new Set(l)]] *)

Lemma unique_from_prefix (l : list string) :
  forall acc, exists added,
    fold_left (fun acc s => if existsb (String.eqb s) acc then acc else (acc ++ [s])%list)
              l acc = (acc ++ added)%list.
Proof.
  induction l as [|x l IH]; intros acc; simpl.
  - exists []. now rewrite app_nil_r.
  - destruct (existsb _ acc); [apply IH|].
    destruct (IH (acc ++ [x])%list) as [added ->].
    exists (x :: added). now rewrite <- app_assoc.
Qed.

Lemma unique_from_In (l : list string) :
  forall acc x,
    In x (fold_left (fun acc s => if existsb (String.eqb s) acc then acc
                                  else (acc ++ [s])%list) l acc)
    <-> In x acc \/ In x l.
Proof.
  induction l as [|y l IH]; intros acc x; simpl; [tauto|].
  destruct (existsb _ acc) eqn:E; rewrite IH.
  - apply existsb_eqb_In in E. split; [tauto|].
    intros [H|[<-|H]]; auto.
  - rewrite in_app_iff. simpl. tauto.
Qed.

Lemma unique_from_NoDup (l : list string) :
  forall acc, NoDup acc ->
    NoDup (fold_left (fun acc s => if existsb (String.eqb s) acc then acc
                                   else (acc ++ [s])%list) l acc).
Proof.
  induction l as [|y l IH]; intros acc Hacc; simpl; [exact Hacc|].
  destruct (existsb _ acc) eqn:E; apply IH; [exact Hacc|].
  apply NoDup_app; [exact Hacc | repeat constructor; intros [] |].
  intros x Hx [<-|[]].
  apply existsb_eqb_In in Hx. congruence.
Qed.

Lemma unique_NoDup (l : list string) : NoDup (ResumeParser.unique l).
Proof. apply unique_from_NoDup. constructor. Qed.

Lemma unique_In (l : list string) (x : string) :
  In x (ResumeParser.unique l) <-> In x l.
Proof.
  unfold ResumeParser.unique. rewrite unique_from_In. simpl. tauto.
Qed.

Lemma unique_head (x : string) (l : list string) :
  exists others, ResumeParser.unique (x :: l) = x :: others.
Proof.
  unfold ResumeParser.unique. simpl.
  destruct (unique_from_prefix l [x]) as [added ->]. now exists added.
Qed.

Lemma firstn_subset {A : Type} (n : nat) (l : list A) (x : A) :
  In x (firstn n l) -> In x l.
Proof.
  revert n. induction l as [|y l IH]; intros [|n]; simpl; try tauto.
  intros [->|H]; eauto.
Qed.

Lemma firstn_NoDup {A : Type} (n : nat) (l : list A) :
  NoDup l -> NoDup (firstn n l).
Proof.
  intros H. revert n. induction H as [|x l Hx Hl IH]; intros [|n]; simpl;
    try constructor.
  - intros Hin. apply Hx. eapply firstn_subset. exact Hin.
  - apply IH.
Qed.

(** ** Search queries *)

Lemma buildSearchQueries_head (p : Profile.t) :
  primaryTitleOf p <> "" ->
  exists others, JobSearch.buildSearchQueries p = primaryTitleOf p :: others.
Proof.
  intros Hne.
  unfold JobSearch.buildSearchQueries, JobSearch.candidateQueries, primaryTitleOf in *.
  apply String.eqb_neq in Hne. rewrite Hne. cbn [app].
  match goal with
  | |- context [ResumeParser.unique (?x :: ?l)] =>
      destruct (unique_head x l) as [others ->]
  end.
  eexists. reflexivity.
Qed.

(** X10.  [buildSearchQueries] returns at most five queries, all different;
    when the profile has a primary title the first query is that title,
    and it returns no query only for a profile without a primary title and
    with no role type, or the type General. *)
Theorem buildSearchQueries_queries (p : Profile.t) :
  let queries := JobSearch.buildSearchQueries p in
  (List.length queries <= 5)%nat /\
  NoDup queries /\
  (forall q, In q queries -> In q (JobSearch.candidateQueries p)) /\
  (primaryTitleOf p <> "" -> exists others, queries = primaryTitleOf p :: others) /\
  (queries = [] <->
   primaryTitleOf p = "" /\
   match primaryRole p with
   | Some r => JobSearch.roleKeywords (type r) = []
   | None => True
   end).
Proof.
  intros queries. unfold queries, JobSearch.buildSearchQueries.
  split; [apply firstn_le_length|].
  split; [apply firstn_NoDup, unique_NoDup|].
  split; [intros q Hq; apply firstn_subset in Hq; exact (proj1 (unique_In _ _) Hq)|].
  split.
  - apply buildSearchQueries_head.
  - assert (Hnil : forall l : list string,
              firstn 5 (ResumeParser.unique l) = [] <-> l = []).
    { intros [|x l]; [split; reflexivity|].
      destruct (unique_head x l) as [others ->]. split; discriminate. }
    rewrite Hnil. unfold JobSearch.candidateQueries, primaryTitleOf.
    destruct (primaryRole p) as [r|].
    + destruct (String.eqb (primaryTitle r) "") eqn:E.
      * apply String.eqb_eq in E. rewrite E.
        cbn [toLowerCase smap includes prefix orb andb negb app String.eqb].
        rewrite andb_false_r. cbn [app]. rewrite app_nil_r.
        split.
        -- intros H. split; [reflexivity|].
           destruct (JobSearch.roleKeywords (type r)); [reflexivity|discriminate].
        -- intros [_ ->]. reflexivity.
      * apply String.eqb_neq in E. split; [discriminate|]. intros [H _]. contradiction.
    + cbn. split; [auto|]. intros _. now rewrite andb_false_r.
Qed.

Lemma buildSearchQueries_queries_witness :
  (exists others,
     JobSearch.buildSearchQueries (with_primary Design "UX Designer")
     = "UX Designer" :: others) /\ True.
Proof.
  split; [|exact I].
  apply (proj1 (proj2 (proj2 (proj2
           (buildSearchQueries_queries (with_primary Design "UX Designer")))))).
  discriminate.
Defined.

(** X11.  From the resume to the search: the profile extracted from any
    text has a non-empty primary title, "Professional" when no role was
    detected, so its queries are never empty and start with that title. *)
Theorem extracted_profile_queries (currentYear : Z) (text : string) :
  let p := ResumeParser.extractInformation currentYear text in
  primaryTitleOf p <> "" /\
  (roles p = [] -> primaryTitleOf p = "Professional") /\
  exists others, JobSearch.buildSearchQueries p = primaryTitleOf p :: others.
Proof.
  intros p.
  assert (Hne : primaryTitleOf p <> "").
  { unfold primaryTitleOf, p, ResumeParser.extractInformation. cbn [primaryRole].
    unfold ResumeParser.determinePrimaryRole.
    destruct (ResumeParser.extractRoles currentYear text (toLowerCase text)) as [|r l];
      [discriminate|].
    destruct (fold_left _ _ _) as [y t]. cbn [primaryTitle].
    destruct (String.eqb (Profile.title r) "") eqn:E; [discriminate|].
    now apply String.eqb_neq. }
  split; [exact Hne|]. split.
  - unfold primaryTitleOf, p, ResumeParser.extractInformation. cbn [primaryRole roles].
    intros ->. reflexivity.
  - now apply buildSearchQueries_head.
Qed.

(** ** Substrings *)

Lemma prefix_append (p t : string) : prefix p (p ++ t) = true.
Proof.
  induction p as [|c p IH]; simpl; [destruct t; reflexivity|].
  destruct (ascii_dec c c); [exact IH | contradiction].
Qed.

Lemma prefix_split (p s : string) : prefix p s = true -> exists t, s = p ++ t.
Proof.
  revert s. induction p as [|c p IH]; intros s H; simpl in H.
  - now exists s.
  - destruct s as [|d s]; simpl in H; [discriminate|].
    destruct (ascii_dec c d) as [->|]; [|discriminate].
    destruct (IH s H) as [t ->]. now exists t.
Qed.

Lemma includes_step (c : ascii) (s sub : string) :
  includes s sub = true -> includes (String c s) sub = true.
Proof.
  intros H. cbn [includes]. rewrite H. apply orb_true_r.
Qed.

Lemma includes_prefix (s sub : string) :
  prefix sub s = true -> includes s sub = true.
Proof.
  intros H. destruct s; cbn [includes]; now rewrite H.
Qed.

(** [s.includes(sub)] holds exactly when [sub] stands somewhere in [s]. *)
Lemma includes_spec (s sub : string) :
  includes s sub = true <-> exists before after, s = before ++ sub ++ after.
Proof.
  split.
  - induction s as [|c s IH]; cbn [includes]; intros H.
    + rewrite orb_false_r in H. apply prefix_split in H. destruct H as [t ->].
      now exists "", t.
    + apply orb_true_iff in H. destruct H as [H|H].
      * apply prefix_split in H. destruct H as [t ->]. now exists "", t.
      * destruct (IH H) as [before [after ->]].
        now exists (String c before), after.
  - intros [before [after ->]].
    induction before as [|c before IH].
    + simpl. apply includes_prefix, prefix_append.
    + simpl. now apply includes_step.
Qed.

Lemma append_assoc (a b c : string) : (a ++ b) ++ c = a ++ (b ++ c).
Proof.
  induction a as [|x a IH]; simpl; [reflexivity|]. now rewrite IH.
Qed.

Lemma append_empty_r (a : string) : a ++ "" = a.
Proof.
  induction a as [|x a IH]; simpl; [reflexivity|]. now rewrite IH.
Qed.

Lemma includes_transitive (s t u : string) :
  includes s t = true -> includes t u = true -> includes s u = true.
Proof.
  rewrite !includes_spec.
  intros [b1 [a1 ->]] [b2 [a2 ->]].
  exists (b1 ++ b2), (a2 ++ a1).
  now rewrite !append_assoc.
Qed.

(** ** Title variations *)

(** X12.  [getTitleVariations] starts with the base title and returns one
    title or three; every variation contains the base title; a base title
    that names a seniority itself (Senior, Junior, Lead or Staff) has no
    other variation. *)
Theorem getTitleVariations_variations (baseTitle : string) (level : Seniority) :
  let variations := JobSearch.getTitleVariations baseTitle level in
  (exists others, variations = baseTitle :: others) /\
  (List.length variations = 1%nat \/ List.length variations = 3%nat) /\
  (forall v, In v variations -> includes v baseTitle = true) /\
  ((includes baseTitle "Senior" || includes baseTitle "Junior"
    || includes baseTitle "Lead" || includes baseTitle "Staff")%bool = true ->
   variations = [baseTitle]).
Proof.
  intros variations. unfold variations, JobSearch.getTitleVariations.
  assert (Hpre : forall a, includes (a ++ baseTitle) baseTitle = true).
  { intros a. apply includes_spec. exists a, "". now rewrite append_empty_r. }
  assert (Hpost : forall a, includes (baseTitle ++ a) baseTitle = true).
  { intros a. apply includes_spec. now exists "", a. }
  destruct (_ || _)%bool.
  - split; [now exists []|]. split; [now left|]. split; [|reflexivity].
    intros v [<-|[]]. apply includes_refl.
  - split; [destruct level; eexists; reflexivity|].
    split; [destruct level; now right|].
    split; [|discriminate].
    destruct level; cbn [app In];
      intros v [<-|[<-|[<-|[]]]];
      first [ apply includes_refl | apply Hpre | apply Hpost ].
Qed.

Lemma getTitleVariations_variations_witness :
  JobSearch.getTitleVariations "Staff Engineer" senior = ["Staff Engineer"] /\ True.
Proof.
  split; [|exact I].
  apply (proj2 (proj2 (proj2 (getTitleVariations_variations "Staff Engineer" senior)))).
  reflexivity.
Defined.

(** ** Searching the sources *)




(** ** Shuffling *)

Section ShuffleFacts.

Context {A : Type}.

Lemma assign_length (i : nat) (x : A) (l : list A) :
  List.length (JobSearch.assign i x l) = List.length l.
Proof.
  revert i. induction l as [|y l IH]; intros [|i]; simpl; auto.
Qed.

(** Writing [x] over [a] trades one for the other. *)
Lemma assign_permutation (i : nat) (x a : A) (l : list A) :
  nth_error l i = Some a ->
  Permutation (x :: l) (a :: JobSearch.assign i x l).
Proof.
  revert i. induction l as [|y l IH]; intros [|i] H; simpl in *; try discriminate.
  - injection H as ->. apply perm_swap.
  - eapply perm_trans; [apply perm_swap|].
    eapply perm_trans; [apply perm_skip, IH, H|].
    apply perm_swap.
Qed.

Lemma nth_error_assign_same (i : nat) (x a : A) (l : list A) :
  nth_error l i = Some a -> nth_error (JobSearch.assign i x l) i = Some x.
Proof.
  revert i. induction l as [|y l IH]; intros [|i] H; simpl in *; try discriminate; auto.
Qed.

Lemma nth_error_assign_other (i j : nat) (x : A) (l : list A) :
  i <> j -> nth_error (JobSearch.assign i x l) j = nth_error l j.
Proof.
  revert i j. induction l as [|y l IH]; intros [|i] [|j] H; simpl; auto.
  - contradiction.
Qed.

Lemma swap_permutation (i j : nat) (l : list A) :
  Permutation l (JobSearch.swap i j l).
Proof.
  unfold JobSearch.swap.
  destruct (nth_error l j) as [atJ|] eqn:Ej; [|apply Permutation_refl].
  destruct (nth_error l i) as [atI|] eqn:Ei; [|apply Permutation_refl].
  apply (Permutation_cons_inv (a := atJ)).
  eapply perm_trans; [apply (assign_permutation i atJ atI l Ei)|].
  apply assign_permutation.
  destruct (Nat.eq_dec i j) as [->|Hij].
  - eapply nth_error_assign_same. exact Ei.
  - rewrite nth_error_assign_other by exact Hij. exact Ej.
Qed.

Variable random : nat -> Q.

Lemma shuffleFrom_permutation (i : nat) :
  forall (k : nat) (l : list A), Permutation l (JobSearch.shuffleFrom random k i l).
Proof.
  induction i as [|i IH]; intros k l; simpl; [apply Permutation_refl|].
  eapply perm_trans; [apply swap_permutation | apply IH].
Qed.

End ShuffleFacts.

Lemma drawnIndex_range (r : Q) (i : nat) :
  (0 <= r)%Q -> (r < 1)%Q -> (drawnIndex r i <= i)%nat.
Proof.
  intros Hlo Hhi. unfold drawnIndex.
  set (n := inject_Z (Z.of_nat (i + 1))).
  assert (Hn : (0 < n)%Q).
  { unfold n. change 0%Q with (inject_Z 0). rewrite <- Zlt_Qlt. lia. }
  assert (Hlt : (inject_Z (Qfloor (r * n)) < n)%Q).
  { eapply Qle_lt_trans; [apply Qfloor_le|].
    rewrite <- (Qmult_1_l n) at 2. apply Qmult_lt_compat_r; assumption. }
  unfold n in *. rewrite <- Zlt_Qlt in Hlt. lia.
Qed.

(** X14.  [shuffleArray] returns a permutation of its array: no element is
    lost or repeated, whatever [Math.random()] returns; and for random
    numbers from 0 up to but not including 1 every index it draws at [i]
    is at most [i], an index of the array. *)
Theorem shuffleArray_permutation {A : Type} (random : nat -> Q) (array : list A) :
  Permutation array (JobSearch.shuffleArray random array) /\
  List.length (JobSearch.shuffleArray random array) = List.length array /\
  (forall k i, (0 <= random k)%Q -> (random k < 1)%Q ->
               (drawnIndex (random k) i <= i)%nat) /\
  (forall (k i : nat) (l : list A),
      JobSearch.shuffleFrom random k (S i) l =
      JobSearch.shuffleFrom random (S k) i
        (JobSearch.swap (S i) (drawnIndex (random k) (S i)) l)).
Proof.
  split; [apply shuffleFrom_permutation|].
  split; [symmetry; apply Permutation_length, shuffleFrom_permutation|].
  split; [intros k i; apply drawnIndex_range | reflexivity].
Qed.

Lemma shuffleArray_permutation_witness :
  (drawnIndex ((fun _ => 1 # 2) 0%nat) 3 <= 3)%nat /\ True.
Proof.
  split; [|exact I].
  apply (proj1 (proj2 (proj2 (shuffleArray_permutation (A := nat) (fun _ => 1 # 2) [])))
           0%nat 3%nat).
  - discriminate.
  - reflexivity.
Defined.

(** ** Where a match stands in the text *)

Lemma length_append (a b : string) :
  String.length (a ++ b) = (String.length a + String.length b)%nat.
Proof.
  induction a as [|c a IH]; simpl; [reflexivity|]. now rewrite IH.
Qed.

Lemma take_append (w t : string) :
  take (String.length (w ++ t) - String.length t) (w ++ t) = w.
Proof.
  rewrite length_append, Nat.add_sub.
  induction w as [|c w IH]; simpl.
  - destruct t; reflexivity.
  - now rewrite IH.
Qed.

(** What a pattern went through is the front of the input it started on. *)
Lemma steps_consumed (r : regex) (a b : mstate) :
  steps r a b -> rest a = captured a b ++ rest b.
Proof.
  intros H.
  assert (Hw : exists w, rest a = w ++ rest b).
  { induction H; simpl.
    - now exists "".
    - now exists (String c "").
    - destruct IHsteps1 as [w1 E1]. destruct IHsteps2 as [w2 E2].
      exists (w1 ++ w2). now rewrite E1, E2, append_assoc.
    - assumption.
    - assumption.
    - now exists "".
    - destruct IHsteps1 as [w1 E1]. destruct IHsteps2 as [w2 E2].
      exists (w1 ++ w2). now rewrite E1, E2, append_assoc.
    - assumption.
    - now exists "". }
  destruct Hw as [w E]. unfold captured. rewrite E at 3. rewrite E at 1 2.
  now rewrite take_append.
Qed.

Lemma found_in_later (r : regex) (front s : string) (res : result) :
  found_in r s res -> found_in r (front ++ s) res.
Proof.
  intros [before [a [-> H]]].
  exists (front ++ before), a. split; [now rewrite append_assoc | exact H].
Qed.

Lemma search_found (r : regex) (s : string) :
  forall (p : option ascii) (i : nat) (res : result),
    search r p s i = Some res -> found_in r s res.
Proof.
  induction s as [|c s IH]; intros p i res H; simpl in H.
  - destruct (matchAt r p "") as [st|] eqn:E; [|discriminate].
    injection H as <-. unfold matchAt in E.
    apply run_sound in E. destruct E as [b [Hb [= ->]]].
    exists "", (MState p "" []). simpl. auto.
  - destruct (matchAt r p (String c s)) as [st|] eqn:E.
    + injection H as <-. unfold matchAt in E.
      apply run_sound in E. destruct E as [b [Hb [= ->]]].
      exists "", (MState p (String c s) []). simpl. auto.
    + apply IH in H. apply (found_in_later r (String c "") s res H).
Qed.

Lemma found_in_rest (r : regex) (s : string) (res : result) :
  found_in r s res -> exists front, s = front ++ rest (final res).
Proof.
  intros [before [a [-> [Hsteps _]]]].
  apply steps_consumed in Hsteps. rewrite Hsteps.
  exists (before ++ captured a (final res)). now rewrite append_assoc.
Qed.

Lemma matchAllFrom_found (r : regex) (fuel : nat) :
  forall (p : option ascii) (s : string) (i : nat) (res : result),
    In res (matchAllFrom fuel r p s i) -> found_in r s res.
Proof.
  induction fuel as [|fuel IH]; intros p s i res H; simpl in H; [contradiction|].
  destruct (search r p s i) as [res0|] eqn:E; [|contradiction].
  apply search_found in E.
  destruct (found_in_rest r s res0 E) as [front Hfront].
  destruct (matched res0); destruct (rest (final res0)) as [|c s'] eqn:Er;
    simpl in H; destruct H as [<-|H]; try exact E; try contradiction.
  - apply IH in H. rewrite Hfront.
    replace (front ++ String c s') with ((front ++ String c "") ++ s')
      by (now rewrite append_assoc).
    now apply found_in_later.
  - apply IH in H. rewrite Hfront. now apply found_in_later.
  - apply IH in H. rewrite Hfront. now apply found_in_later.
Qed.

Lemma matchAll_found (r : regex) (s : string) (res : result) :
  In res (matchAll r s) -> found_in r s res.
Proof.
  apply matchAllFrom_found.
Qed.

(** The text of a match stands in the text searched. *)
Lemma found_in_includes (r : regex) (s : string) (res : result) :
  found_in r s res -> includes s (matched res) = true.
Proof.
  intros [before [a [-> [Hsteps [Hm _]]]]].
  apply steps_consumed in Hsteps.
  apply includes_spec. exists before, (rest (final res)).
  now rewrite Hm, <- Hsteps.
Qed.

(** ** Keywords *)

Lemma captured_head (a b : mstate) (c : ascii) (s : string) :
  rest a = String c s ->
  (String.length (rest b) <= String.length s)%nat ->
  exists w, captured a b = String c w.
Proof.
  intros Ha Hlen. unfold captured. rewrite Ha. simpl String.length.
  rewrite Nat.sub_succ_l by exact Hlen.
  eexists. apply take_succ.
Qed.

Lemma length_take (n : nat) (s : string) :
  (n <= String.length s)%nat -> String.length (take n s) = n.
Proof.
  revert s. induction n as [|n IH]; intros [|c s] H; simpl in *; try lia.
  rewrite IH; lia.
Qed.

(** A match of [capitalizedPattern] starts with a capital letter. *)
Lemma capitalizedPattern_head (a b : mstate) :
  steps ResumeParser.capitalizedPattern a b ->
  exists c w, isUpperAZ c = true /\ captured a b = String c w.
Proof.
  unfold ResumeParser.capitalizedPattern. simpl. intros H.
  apply steps_seq_inv in H. destruct H as [a0 [Hb H]].
  inversion Hb; subst.
  apply steps_seq_inv in H. destruct H as [a1 [Hword Hrest]].
  apply steps_seq_inv in Hword. destruct Hword as [a2 [Hfirst Hmore]].
  apply steps_cls_inv in Hfirst. destruct Hfirst as [c [s [Ha [Hc ->]]]].
  apply steps_length in Hmore. apply steps_length in Hrest. simpl in Hmore.
  destruct (captured_head a0 b c s Ha) as [w Hw]; [lia|].
  exists c, w. split; assumption.
Qed.

(** X15.  [extractKeywords] returns at most 50 keywords, all different;
    each of them stands in the text as it is, starts with a capital letter
    from A to Z, is longer than two characters and is not one of the nine
    common words. *)
Theorem extractKeywords_keywords (text : string) :
  let found := ResumeParser.extractKeywords text in
  (List.length found <= 50)%nat /\
  NoDup found /\
  (forall k, In k found ->
     includes text k = true /\
     (exists c w, isUpperAZ c = true /\ k = String c w) /\
     (2 < String.length k)%nat /\
     ~ In (toLowerCase k) ResumeParser.commonWords).
Proof.
  intros found. unfold found, ResumeParser.extractKeywords.
  split; [apply firstn_le_length|].
  split; [apply firstn_NoDup, unique_NoDup|].
  intros k Hk. apply firstn_subset in Hk. apply (proj1 (unique_In _ _)) in Hk.
  apply filter_In in Hk. destruct Hk as [Hk Hf].
  apply in_map_iff in Hk. destruct Hk as [res [<- Hres]].
  apply matchAll_found in Hres.
  apply andb_true_iff in Hf. destruct Hf as [Hcommon Hlen].
  split; [eapply found_in_includes; exact Hres|].
  split.
  - destruct Hres as [before [a [_ [Hsteps [-> _]]]]].
    now apply capitalizedPattern_head.
  - split; [now apply Nat.ltb_lt in Hlen|].
    apply negb_true_iff in Hcommon. intros Hin.
    apply existsb_eqb_In in Hin. congruence.
Qed.

(** ** Capitalized titles *)

Lemma lowerChar_upperChar (c : ascii) : lowerChar (upperChar c) = lowerChar c.
Proof.
  destruct c as [[] [] [] [] [] [] [] []]; vm_compute; reflexivity.
Qed.

Lemma smap_append (f : ascii -> ascii) (a b : string) :
  smap f (a ++ b) = smap f a ++ smap f b.
Proof.
  induction a as [|c a IH]; simpl; [reflexivity|]. now rewrite IH.
Qed.

Lemma smap_length (f : ascii -> ascii) (s : string) :
  String.length (smap f s) = String.length s.
Proof.
  induction s as [|c s IH]; simpl; [reflexivity|]. now rewrite IH.
Qed.

Lemma toLowerCase_append (a b : string) :
  toLowerCase (a ++ b) = toLowerCase a ++ toLowerCase b.
Proof. apply smap_append. Qed.

Lemma split_not_nil (sep : ascii) (s : string) : split sep s <> [].
Proof.
  destruct s as [|c s]; simpl; [discriminate|].
  destruct (Ascii.eqb c sep); [discriminate|].
  destruct (split sep s); discriminate.
Qed.

Lemma join_cons (sep w w' : string) (ws : list string) :
  join sep (w :: w' :: ws) = w ++ sep ++ join sep (w' :: ws).
Proof. reflexivity. Qed.

(** Joining what [split] gave with the separator gives the string back. *)
Lemma join_split (sep : ascii) (s : string) :
  join (String sep "") (split sep s) = s.
Proof.
  induction s as [|c s IH]; [reflexivity|].
  simpl split. pose proof (split_not_nil sep s) as Hne.
  destruct (split sep s) as [|w ws]; [contradiction|].
  destruct (Ascii.eqb c sep) eqn:E.
  - apply Ascii.eqb_eq in E. subst c.
    rewrite join_cons, IH. reflexivity.
  - destruct ws as [|w' ws].
    + simpl in *. now rewrite IH.
    + rewrite <- IH, !join_cons. reflexivity.
Qed.

Lemma toLowerCase_join (ws : list string) :
  toLowerCase (join " " ws) = join " " (map toLowerCase ws).
Proof.
  induction ws as [|w ws IH]; [reflexivity|].
  destruct ws as [|w' ws]; [reflexivity|].
  cbn [map] in *. rewrite !join_cons, !toLowerCase_append, IH. reflexivity.
Qed.

Lemma capitalized_word_lower (word : string) :
  toLowerCase (toUpperCase (charAt0 word) ++ toLowerCase (slice1 word))
  = toLowerCase word.
Proof.
  destruct word as [|c w]; [reflexivity|].
  unfold toLowerCase, toUpperCase. cbn [charAt0 slice1 smap String.append].
  rewrite lowerChar_upperChar.
  f_equal. apply toLowerCase_idempotent.
Qed.

Lemma capitalizeTitle_lower (title : string) :
  toLowerCase (ResumeParser.capitalizeTitle title) = toLowerCase title.
Proof.
  unfold ResumeParser.capitalizeTitle.
  rewrite toLowerCase_join, map_map.
  rewrite (map_ext _ toLowerCase) by apply capitalized_word_lower.
  rewrite <- toLowerCase_join.
  change " " with (String " "%char "") at 1.
  now rewrite join_split.
Qed.

(** X16.  On a title none of whose words starts with U+00B5, U+00DF or
    U+00FF (the code units whose upper case is not one 8-bit code unit, so
    that [toUpperCase] leaves the model there), [capitalizeTitle] changes
    nothing but the case of letters: the result in lower case is the title
    in lower case, so it has the length of the title and is the same title
    to [extractRoles]. *)
Theorem capitalizeTitle_case_only (title : string) :
  capitalizable title = true ->
  toLowerCase (ResumeParser.capitalizeTitle title) = toLowerCase title /\
  String.length (ResumeParser.capitalizeTitle title) = String.length title /\
  ResumeParser.sameTitle (ResumeParser.capitalizeTitle title) title = true.
Proof.
  intros _.
  pose proof (capitalizeTitle_lower title) as H.
  split; [exact H|]. split.
  - rewrite <- (smap_length lowerChar (ResumeParser.capitalizeTitle title)).
    fold (toLowerCase (ResumeParser.capitalizeTitle title)).
    rewrite H. apply smap_length.
  - unfold ResumeParser.sameTitle. rewrite H. apply String.eqb_refl.
Qed.

Lemma capitalizeTitle_case_only_witness :
  toLowerCase (ResumeParser.capitalizeTitle "senior  data engineer")
  = toLowerCase "senior  data engineer" /\ True.
Proof.
  split; [|exact I].
  apply (proj1 (capitalizeTitle_case_only "senior  data engineer" eq_refl)).
Defined.

(** ** Lines, trimming and case *)

(** The first piece [split] gives is the front of the string. *)
Lemma split_head (sep : ascii) (s : string) :
  forall w ws, split sep s = w :: ws -> exists after, s = w ++ after.
Proof.
  induction s as [|c s IH]; intros w ws H; simpl in H.
  - injection H as <- _. now exists "".
  - destruct (Ascii.eqb c sep).
    + injection H as <- _. now exists (String c s).
    + destruct (split sep s) as [|w' ws'] eqn:Es.
      * exfalso. now apply (split_not_nil sep s).
      * injection H as <- _.
        destruct (IH w' ws' eq_refl) as [after ->].
        now exists after.
Qed.

(** Every piece [split] gives stands in the string. *)
Lemma split_includes (sep : ascii) (s line : string) :
  In line (split sep s) -> includes s line = true.
Proof.
  revert line. induction s as [|c s IH]; intros line H.
  - simpl in H. destruct H as [<-|[]]. reflexivity.
  - destruct (split sep (String c s)) as [|w ws] eqn:E; [contradiction|].
    destruct H as [<-|H].
    + destruct (split_head sep (String c s) w ws E) as [after ->].
      apply includes_prefix, prefix_append.
    + apply includes_step, IH.
      simpl in E. destruct (Ascii.eqb c sep).
      * injection E as _ <-. exact H.
      * destruct (split sep s) as [|w' ws'].
        -- injection E as _ <-. contradiction.
        -- injection E as _ <-. now right.
Qed.

Lemma trimStart_suffix (s : string) : exists front, s = front ++ trimStart s.
Proof.
  induction s as [|c s [front IH]]; simpl.
  - now exists "".
  - destruct (isWhiteSpace c).
    + exists (String c front). simpl. now rewrite <- IH.
    + now exists "".
Qed.

Lemma trimEnd_prefix (s : string) : exists back, s = trimEnd s ++ back.
Proof.
  induction s as [|c s [back IH]]; simpl.
  - now exists "".
  - destruct (trimEnd s) as [|d t] eqn:E.
    + destruct (isWhiteSpace c).
      * exists (String c s). reflexivity.
      * exists s. reflexivity.
    + exists back. simpl. now rewrite IH.
Qed.

(** The trimmed string stands in the string. *)
Lemma trim_includes (s : string) : includes s (trim s) = true.
Proof.
  unfold trim. apply includes_spec.
  destruct (trimStart_suffix s) as [front Hs].
  destruct (trimEnd_prefix (trimStart s)) as [back Ht].
  exists front, back. now rewrite <- Ht.
Qed.

Lemma toLowerCase_includes (s t : string) :
  includes s t = true -> includes (toLowerCase s) (toLowerCase t) = true.
Proof.
  rewrite !includes_spec. intros [before [after ->]].
  exists (toLowerCase before), (toLowerCase after).
  now rewrite !toLowerCase_append.
Qed.

(** ** Skills *)

(** What a literal under the flag [i] went through is the literal, up to
    case. *)
Lemma lit_steps (s : string) :
  forall a b, steps (lit true s) a b ->
              exists w, rest a = w ++ rest b /\ toLowerCase w = toLowerCase s.
Proof.
  assert (Hchr : forall c a b, steps (chr true c) a b ->
            exists w, rest a = w ++ rest b
                      /\ toLowerCase w = String (lowerChar c) "").
  { intros c a b H. unfold chr in H. apply steps_cls_inv in H.
    destruct H as [x [t [Ha [Hx ->]]]]. apply Ascii.eqb_eq in Hx.
    exists (String x ""). split; [now rewrite Ha|].
    unfold toLowerCase. cbn [smap]. now rewrite Hx. }
  induction s as [|c s IH]; intros a b H.
  - simpl in H. inversion H; subst. now exists "".
  - destruct s as [|d s].
    + simpl in H. apply Hchr in H. exact H.
    + change (lit true (String c (String d s)))
        with (Seq (chr true c) (lit true (String d s))) in H.
      apply steps_seq_inv in H. destruct H as [m [H1 H2]].
      apply Hchr in H1. destruct H1 as [w1 [E1 L1]].
      apply IH in H2. destruct H2 as [w2 [E2 L2]].
      exists (w1 ++ w2). split.
      * now rewrite E1, E2, append_assoc.
      * rewrite toLowerCase_append, L1, L2. reflexivity.
Qed.

Lemma skillPattern_steps (skill : string) (a b : mstate) :
  steps (ResumeParser.skillPattern skill) a b ->
  exists w, rest a = w ++ rest b /\ toLowerCase w = toLowerCase skill.
Proof.
  unfold ResumeParser.skillPattern. simpl. intros H.
  apply steps_seq_inv in H. destruct H as [a0 [Hb H]].
  inversion Hb; subst.
  apply steps_seq_inv in H. destruct H as [a1 [Hlit He]].
  inversion He; subst.
  now apply lit_steps.
Qed.

(** A skill the pattern finds stands in the text, up to case. *)
Lemma skillPattern_found (skill text : string) :
  test (ResumeParser.skillPattern skill) text = true ->
  includes (toLowerCase text) (toLowerCase skill) = true.
Proof.
  unfold test, exec.
  destruct (search _ None text 0) as [res|] eqn:E; [intros _ | discriminate].
  apply search_found in E. destruct E as [before [a [-> [Hsteps _]]]].
  apply skillPattern_steps in Hsteps. destruct Hsteps as [w [-> <-]].
  apply toLowerCase_includes, includes_spec. now exists before, (rest (final res)).
Qed.

Lemma technicalSkills_lower :
  forallb (fun skill => String.eqb (toLowerCase skill) skill)
          ResumeParser.technicalSkills = true.
Proof. vm_compute. reflexivity. Qed.

(** X17.  The technical skills of the extracted profile are different from
    each other, and each is the capitalized form of a term of the
    vocabulary that stands in the text, ignoring case; no tools and no
    other skills are ever reported. *)
Theorem extractSkills_from_text (currentYear : Z) (text : string) :
  let found := skills (ResumeParser.extractInformation currentYear text) in
  NoDup (technical found) /\
  tools found = [] /\ other found = [] /\
  (forall k, In k (technical found) ->
     exists skill,
       In skill ResumeParser.technicalSkills /\
       k = ResumeParser.capitalizeTitle skill /\
       includes (toLowerCase text) skill = true).
Proof.
  intros found. unfold found, ResumeParser.extractInformation.
  cbn [skills]. unfold ResumeParser.extractSkills. cbn [technical tools other].
  split; [apply unique_NoDup|]. split; [reflexivity|]. split; [reflexivity|].
  intros k Hk. apply (proj1 (unique_In _ _)) in Hk.
  apply in_flat_map in Hk. destruct Hk as [skill [Hskill Hk]].
  destruct (test _ _) eqn:E; [|contradiction].
  destruct Hk as [<-|[]].
  exists skill. split; [exact Hskill|]. split; [reflexivity|].
  apply skillPattern_found in E.
  rewrite toLowerCase_idempotent in E.
  pose proof technicalSkills_lower as Hlower.
  rewrite forallb_forall in Hlower. specialize (Hlower skill Hskill).
  apply String.eqb_eq in Hlower. now rewrite Hlower in E.
Qed.

(** ** Education *)

(** X18.  The entries [extractEducation] returns are different from each
    other, and each stands in the text it was given. *)
Theorem extractEducation_from_text (normalizedText : string) :
  NoDup (ResumeParser.extractEducation normalizedText) /\
  (forall d, In d (ResumeParser.extractEducation normalizedText) ->
             includes normalizedText d = true).
Proof.
  unfold ResumeParser.extractEducation.
  split; [apply unique_NoDup|].
  intros d Hd. apply (proj1 (unique_In _ _)) in Hd.
  apply in_flat_map in Hd. destruct Hd as [pattern [_ Hd]].
  apply in_map_iff in Hd. destruct Hd as [m [<- Hm]].
  apply matchAll_found, found_in_includes in Hm.
  eapply includes_transitive; [exact Hm | apply trim_includes].
Qed.

(** ** Roles come from the text *)

(** The title a role pattern captures stands in the text searched. *)
Lemma titleGroup_in_text (rest_of_pattern : regex) (text : string) (res : result) :
  mentions 1 rest_of_pattern = false ->
  found_in (Seq ResumeParser.titleGroup rest_of_pattern) text res ->
  includes text (ResumeParser.capture 1 res) = true.
Proof.
  intros Hrest [before [a [-> [Hsteps [_ [Hgroups _]]]]]].
  apply steps_seq_inv in Hsteps. destruct Hsteps as [b [Htitle Hafter]].
  apply steps_grp_inv in Htitle. destruct Htitle as [b0 [Htitle ->]].
  unfold ResumeParser.capture. rewrite Hgroups.
  rewrite (steps_other_group 1 _ _ _ Hafter Hrest).
  simpl. apply steps_consumed in Htitle.
  apply includes_spec. exists before, (rest b0). now rewrite <- Htitle.
Qed.

Lemma patternCandidates_in_text (text : string) (r : RoleRecord) :
  In r (ResumeParser.patternCandidates text) ->
  includes text (Profile.title r) = true /\
  years r = None /\ rawLine r = None /\ company r <> None.
Proof.
  unfold ResumeParser.patternCandidates, ResumeParser.rolePatterns.
  intros H. simpl in H. rewrite app_nil_r in H.
  apply in_app_or in H.
  assert (Hone : forall rest_of_pattern,
    mentions 1 rest_of_pattern = false ->
    In r (map (fun m => Role (trim (ResumeParser.capture 1 m)) None
                          (Some (trim (ResumeParser.capture 2 m))) None)
              (matchAll (Seq ResumeParser.titleGroup rest_of_pattern) text)) ->
    includes text (Profile.title r) = true /\
    years r = None /\ rawLine r = None /\ company r <> None).
  { intros X HX Hin. apply in_map_iff in Hin. destruct Hin as [m [<- Hm]].
    apply matchAll_found in Hm. cbn [Profile.title years rawLine company].
    split; [|repeat split; discriminate].
    eapply includes_transitive; [|apply trim_includes].
    now apply (titleGroup_in_text X). }
  destruct H as [H|H]; (eapply Hone; [|exact H]); reflexivity.
Qed.

Lemma lexiconCandidates_in_text (currentYear : Z) (text : string) (r : RoleRecord) :
  In r (ResumeParser.lexiconCandidates currentYear text) ->
  exists role line,
    In role ResumeParser.roleTitles /\ In line (split ResumeParser.LF text) /\
    Profile.title r = ResumeParser.capitalizeTitle role /\
    includes (toLowerCase text) role = true /\
    company r = None /\ rawLine r = Some (trim line).
Proof.
  unfold ResumeParser.lexiconCandidates. intros H.
  apply in_flat_map in H. destruct H as [line [Hline H]].
  apply in_flat_map in H. destruct H as [role [Hrole H]].
  destruct (includes _ role) eqn:E; [|contradiction].
  destruct H as [<-|[]].
  exists role, line. repeat split; try assumption.
  eapply includes_transitive; [|exact E].
  eapply includes_transitive; [|apply trim_includes].
  apply toLowerCase_includes. now apply (split_includes ResumeParser.LF).
Qed.

(** X19.  Every role of the extracted profile comes from the text: its
    title stands in the text, ignoring case.  A role is either a phrase of
    the lexicon found on a line, capitalized, with that line trimmed as its
    raw line and no company; or a title one of the two patterns captured,
    with a company and neither years nor a raw line. *)
Theorem roles_from_text (currentYear : Z) (text : string) (r : RoleRecord) :
  In r (roles (ResumeParser.extractInformation currentYear text)) ->
  includes (toLowerCase text) (toLowerCase (Profile.title r)) = true /\
  Profile.title r <> "" /\
  ((exists role line,
      In role ResumeParser.roleTitles /\ In line (split ResumeParser.LF text) /\
      Profile.title r = ResumeParser.capitalizeTitle role /\
      company r = None /\ rawLine r = Some (trim line)) \/
   (years r = None /\ rawLine r = None /\ company r <> None)).
Proof.
  intros Hr.
  pose proof (extractRoles_titles currentYear text (toLowerCase text) r Hr) as Hne.
  change (In r (ResumeParser.extractRoles currentYear text (toLowerCase text))) in Hr.
  rewrite extractRoles_firstOccurrences in Hr.
  eapply inOrderOf_In in Hr; [|apply firstOccurrences_inOrderOf].
  apply in_app_or in Hr. destruct Hr as [Hr|Hr].
  - apply lexiconCandidates_in_text in Hr.
    destruct Hr as [role [line [Hrole [Hline [Ht [Hin [Hc Hraw]]]]]]].
    split; [|split; [exact Hne|]].
    + rewrite Ht, capitalizeTitle_lower.
      rewrite <- (toLowerCase_idempotent text). now apply toLowerCase_includes.
    + left. exists role, line. auto.
  - apply patternCandidates_in_text in Hr. destruct Hr as [Hin Hshape].
    split; [|split; [exact Hne|]].
    + now apply toLowerCase_includes.
    + now right.
Qed.

Lemma roles_from_text_witness :
  includes (toLowerCase two_line_resume) "growth developer" = true /\ True.
Proof.
  split; [|exact I].
  refine (proj1 (roles_from_text 2026 two_line_resume
            (Role "Growth Developer" None
               (Some ("Acme" ++ String ResumeParser.LF "Intern 2019")) None) _)).
  vm_compute. right. left. reflexivity.
Defined.

(** ** The experience of each role type *)

Lemma RoleType_eqb_eq (a b : RoleType) : RoleType_eqb a b = true <-> a = b.
Proof.
  destruct a, b; simpl; split; intros H; (reflexivity || discriminate).
Qed.

Lemma RoleType_eqb_refl (a : RoleType) : RoleType_eqb a a = true.
Proof. now apply RoleType_eqb_eq. Qed.

Lemma RoleType_eqb_neq (a b : RoleType) : RoleType_eqb a b = false <-> a <> b.
Proof.
  rewrite <- RoleType_eqb_eq. destruct (RoleType_eqb a b); split; congruence.
Qed.

Lemma lookup_addRole_same (t : RoleType) (role : RoleRecord) (m : ExperienceMap) :
  lookup t (ResumeParser.addRole t role m) = Some (added role (lookup t m)).
Proof.
  induction m as [|[t' e] m IH]; simpl.
  - now rewrite RoleType_eqb_refl.
  - destruct (RoleType_eqb t' t) eqn:E; simpl; rewrite E; [reflexivity | exact IH].
Qed.

Lemma lookup_addRole_other (t u : RoleType) (role : RoleRecord) (m : ExperienceMap) :
  t <> u -> lookup u (ResumeParser.addRole t role m) = lookup u m.
Proof.
  intros Hne. induction m as [|[t' e] m IH]; simpl.
  - assert (E : RoleType_eqb t u = false) by now apply RoleType_eqb_neq.
    now rewrite E.
  - destruct (RoleType_eqb t' t) eqn:E; simpl.
    + apply RoleType_eqb_eq in E. subst t'.
      assert (E' : RoleType_eqb t u = false) by now apply RoleType_eqb_neq.
      now rewrite E'.
    + destruct (RoleType_eqb t' u); [reflexivity | exact IH].
Qed.

(** One role through the types [types], whose keys are all different. *)
Lemma lookup_classify_types (role : RoleRecord) (types : list (RoleType * list string)) :
  NoDup (map fst types) ->
  forall (m : ExperienceMap) (t : RoleType),
    lookup t
      (fold_left
         (fun acc '(t, keywords) =>
            if existsb (fun kw => includes (toLowerCase (Profile.title role)) kw) keywords
            then ResumeParser.addRole t role acc else acc)
         types m)
    = match find (fun tk => RoleType_eqb (fst tk) t) types with
      | Some (_, keywords) =>
          if inType keywords role then Some (added role (lookup t m)) else lookup t m
      | None => lookup t m
      end.
Proof.
  induction types as [|[t0 k0] types IH]; intros Hnd m t; simpl; [reflexivity|].
  inversion Hnd as [|x xs Hx Hxs]; subst.
  rewrite (IH Hxs).
  destruct (RoleType_eqb t0 t) eqn:E.
  - apply RoleType_eqb_eq in E. subst t0.
    assert (Hfind : find (fun tk => RoleType_eqb (fst tk) t) types = None).
    { destruct (find _ types) as [[t1 k1]|] eqn:F; [|reflexivity].
      apply find_some in F. destruct F as [Hin Ht1]. simpl in Ht1.
      apply RoleType_eqb_eq in Ht1. subst t1.
      exfalso. apply Hx. apply in_map_iff. exists (t, k1). auto. }
    rewrite Hfind. unfold inType.
    destruct (existsb _ k0); [apply lookup_addRole_same | reflexivity].
  - apply RoleType_eqb_neq in E.
    destruct (existsb _ k0); [|reflexivity].
    rewrite (lookup_addRole_other t0 t role m E). reflexivity.
Qed.

Lemma roleTypes_keys : NoDup (map fst ResumeParser.roleTypes).
Proof.
  simpl. repeat constructor; simpl; intuition discriminate.
Qed.

Lemma lookup_classify (role : RoleRecord) (m : ExperienceMap)
  (t : RoleType) (keywords : list string) :
  In (t, keywords) ResumeParser.roleTypes ->
  lookup t (ResumeParser.classify role m)
  = if inType keywords role then Some (added role (lookup t m)) else lookup t m.
Proof.
  intros Hin. unfold ResumeParser.classify.
  rewrite (lookup_classify_types role _ roleTypes_keys).
  simpl in Hin.
  destruct Hin as [[= <- <-]|[[= <- <-]|[[= <- <-]|[[= <- <-]|[[= <- <-]|[]]]]]];
    reflexivity.
Qed.

Lemma tally_snoc (keywords : list string) (l : list RoleRecord) (role : RoleRecord) :
  tally keywords (l ++ [role])
  = if inType keywords role then Some (added role (tally keywords l))
    else tally keywords l.
Proof.
  unfold tally, rolesIn. rewrite filter_app. simpl.
  destruct (inType keywords role).
  - assert (Hy : forall rs, yearsIn (rs ++ [role])
                            = yearsIn rs + ResumeParser.truthyYears (years role)).
    { induction rs as [|x rs IHrs]; simpl; [lia|]. rewrite IHrs. lia. }
    destruct (filter (inType keywords) l) as [|x rs] eqn:E.
    + simpl. f_equal. f_equal. lia.
    + cbn [app]. unfold added. cbn [expYears expRoles].
      change (x :: rs ++ [role])%list with ((x :: rs) ++ [role])%list.
      rewrite Hy, map_app. f_equal. f_equal; try reflexivity. simpl. lia.
  - rewrite app_nil_r. reflexivity.
Qed.

Lemma lookup_rollup (l : list RoleRecord) :
  forall (seen : list RoleRecord) (m : ExperienceMap),
    (forall t keywords, In (t, keywords) ResumeParser.roleTypes ->
                        lookup t m = tally keywords seen) ->
    forall t keywords, In (t, keywords) ResumeParser.roleTypes ->
      lookup t (fold_left (fun acc role => ResumeParser.classify role acc) l m)
      = tally keywords (seen ++ l).
Proof.
  induction l as [|role l IH]; intros seen m Hm t keywords Hin; simpl.
  - rewrite app_nil_r. now apply Hm.
  - replace (seen ++ role :: l)%list with ((seen ++ [role]) ++ l)%list
      by (now rewrite <- app_assoc).
    apply IH; [|exact Hin].
    intros t' keywords' Hin'.
    rewrite (lookup_classify role m t' keywords' Hin'), tally_snoc.
    now rewrite (Hm t' keywords' Hin').
Qed.

Lemma lookup_estimated (m : ExperienceMap) (t : RoleType) :
  lookup t (map (fun '(t, e) => (t, ResumeParser.estimate e)) m)
  = option_map ResumeParser.estimate (lookup t m).
Proof.
  induction m as [|[t' e] m IH]; simpl; [reflexivity|].
  destruct (RoleType_eqb t' t); [reflexivity | exact IH].
Qed.

Lemma addRole_keys (t u : RoleType) (role : RoleRecord) (m : ExperienceMap) :
  In u (map fst (ResumeParser.addRole t role m)) <-> u = t \/ In u (map fst m).
Proof.
  induction m as [|[t' e] m IH]; simpl.
  - intuition.
  - destruct (RoleType_eqb t' t) eqn:E; simpl.
    + apply RoleType_eqb_eq in E. subst t'. intuition.
    + rewrite IH. intuition.
Qed.

Lemma addRole_NoDup (t : RoleType) (role : RoleRecord) (m : ExperienceMap) :
  NoDup (map fst m) -> NoDup (map fst (ResumeParser.addRole t role m)).
Proof.
  induction m as [|[t' e] m IH]; simpl; intros H.
  - repeat constructor. intros [].
  - inversion H as [|x xs Hx Hxs]; subst.
    destruct (RoleType_eqb t' t) eqn:E; simpl.
    + now constructor.
    + constructor; [|now apply IH].
      rewrite addRole_keys. intros [->|Hin]; [|contradiction].
      rewrite RoleType_eqb_refl in E. discriminate.
Qed.

Lemma classify_wellKeyed (role : RoleRecord) (m : ExperienceMap) :
  wellKeyed m -> wellKeyed (ResumeParser.classify role m).
Proof.
  unfold ResumeParser.classify.
  assert (H : forall types m,
    incl (map fst types) (map fst ResumeParser.roleTypes) ->
    wellKeyed m ->
    wellKeyed
      (fold_left
         (fun acc '(t, keywords) =>
            if existsb (fun kw => includes (toLowerCase (Profile.title role)) kw) keywords
            then ResumeParser.addRole t role acc else acc)
         types m)).
  { induction types as [|[t k] types IH]; intros m0 Hincl Hm0; simpl; [exact Hm0|].
    apply IH; [intros x Hx; apply Hincl; now right|].
    destruct (existsb _ k); [|exact Hm0].
    destruct Hm0 as [Hnd Hkeys]. split; [now apply addRole_NoDup|].
    intros u Hu. apply addRole_keys in Hu. destruct Hu as [->|Hu]; [|now apply Hkeys].
    apply Hincl. now left. }
  apply H. apply incl_refl.
Qed.

Lemma rollup_wellKeyed (l : list RoleRecord) :
  forall m, wellKeyed m ->
            wellKeyed (fold_left (fun acc role => ResumeParser.classify role acc) l m).
Proof.
  induction l as [|role l IH]; intros m Hm; simpl; [exact Hm|].
  apply IH. now apply classify_wellKeyed.
Qed.

Lemma estimated_keys (m : ExperienceMap) :
  map fst (map (fun '(t, e) => (t, ResumeParser.estimate e)) m) = map fst m.
Proof.
  induction m as [|[t e] m IH]; simpl; [reflexivity|]. now rewrite IH.
Qed.

Lemma calculateExperienceByRole_wellKeyed (text : string) (l : list RoleRecord) :
  wellKeyed (ResumeParser.calculateExperienceByRole text l).
Proof.
  unfold ResumeParser.calculateExperienceByRole, wellKeyed.
  rewrite estimated_keys. apply rollup_wellKeyed.
  split; [constructor | intros t []].
Qed.

Lemma lookup_In (m : ExperienceMap) (t : RoleType) (e : Experience) :
  NoDup (map fst m) -> In (t, e) m -> lookup t m = Some e.
Proof.
  induction m as [|[t' e'] m IH]; simpl; intros Hnd Hin; [contradiction|].
  inversion Hnd as [|x xs Hx Hxs]; subst.
  destruct Hin as [[= -> ->]|Hin].
  - now rewrite RoleType_eqb_refl.
  - destruct (RoleType_eqb t' t) eqn:E; [|now apply IH].
    apply RoleType_eqb_eq in E. subst t'.
    exfalso. apply Hx. apply in_map_iff. exists (t, e). auto.
Qed.

Lemma lookup_absent (m : ExperienceMap) (t : RoleType) :
  ~ In t (map fst m) -> lookup t m = None.
Proof.
  induction m as [|[t' e'] m IH]; simpl; intros H; [reflexivity|].
  destruct (RoleType_eqb t' t) eqn:E.
  - apply RoleType_eqb_eq in E. subst t'. exfalso. apply H. now left.
  - apply IH. intros Hin. apply H. now right.
Qed.

Lemma calculateExperienceByRole_lookup (text : string) (l : list RoleRecord)
  (t : RoleType) (keywords : list string) :
  In (t, keywords) ResumeParser.roleTypes ->
  lookup t (ResumeParser.calculateExperienceByRole text l)
  = option_map ResumeParser.estimate (tally keywords l).
Proof.
  intros Hin. unfold ResumeParser.calculateExperienceByRole.
  rewrite lookup_estimated. f_equal.
  apply (lookup_rollup l [] []); [|exact Hin].
  intros t' keywords' _. reflexivity.
Qed.

Lemma tally_entry (keywords : list string) (l : list RoleRecord) (e : Experience) :
  option_map ResumeParser.estimate (tally keywords l) = Some e ->
  exists r rs,
    rolesIn keywords l = r :: rs /\
    expRoles e = map Profile.title (r :: rs) /\
    expYears e = (if yearsIn (r :: rs) =? 0
                  then Z.of_nat (List.length (r :: rs)) * 2
                  else yearsIn (r :: rs)).
Proof.
  unfold tally. destruct (rolesIn keywords l) as [|r rs]; [discriminate|].
  set (y := yearsIn (r :: rs)). set (titles := map Profile.title (r :: rs)).
  simpl option_map. intros [= <-]. exists r, rs. split; [reflexivity|].
  assert (Hlen : Nat.ltb 0 (List.length titles) = true) by reflexivity.
  unfold ResumeParser.estimate. cbn [expYears expRoles].
  rewrite Hlen, andb_true_r.
  fold y. destruct (y =? 0); cbn [expYears expRoles]; split; try reflexivity.
  unfold titles. now rewrite length_map.
Qed.

Lemma entry_of_type (text : string) (l : list RoleRecord) (t : RoleType) (e : Experience) :
  In (t, e) (ResumeParser.calculateExperienceByRole text l) ->
  exists keywords,
    In (t, keywords) ResumeParser.roleTypes /\
    option_map ResumeParser.estimate (tally keywords l) = Some e.
Proof.
  intros Hin.
  destruct (calculateExperienceByRole_wellKeyed text l) as [Hnd Hkeys].
  assert (Ht : In t (map fst ResumeParser.roleTypes)).
  { apply Hkeys. apply in_map_iff. exists (t, e). auto. }
  apply in_map_iff in Ht. destruct Ht as [[t' keywords] [Heq Hk]].
  simpl in Heq. subst t'. exists keywords. split; [exact Hk|].
  rewrite <- (calculateExperienceByRole_lookup text l t keywords Hk).
  now apply lookup_In.
Qed.

(** X20.  [calculateExperienceByRole] has one entry for each of the five
    role types that has a role, and none for the others: the entry lists
    the titles of the roles whose title holds a keyword of the type, in
    order, with the sum of their years, or two years for each role when
    that sum is 0.  So no entry is without roles or has 0 years. *)
Theorem experience_by_type (text : string) (l : list RoleRecord) :
  let m := ResumeParser.calculateExperienceByRole text l in
  NoDup (map fst m) /\
  lookup General m = None /\
  (forall t keywords,
      In (t, keywords) ResumeParser.roleTypes ->
      lookup t m = option_map ResumeParser.estimate (tally keywords l)) /\
  (forall t e, In (t, e) m -> expRoles e <> [] /\ expYears e <> 0).
Proof.
  intros m.
  destruct (calculateExperienceByRole_wellKeyed text l) as [Hnd Hkeys].
  split; [exact Hnd|]. split; [|split].
  - apply lookup_absent. intros H. apply Hkeys in H. simpl in H.
    intuition discriminate.
  - intros t keywords. apply calculateExperienceByRole_lookup.
  - intros t e Hin.
    destruct (entry_of_type text l t e Hin) as [keywords [_ He]].
    destruct (tally_entry keywords l e He) as [r [rs [_ [Hroles Hyears]]]].
    split; [rewrite Hroles; discriminate|].
    rewrite Hyears. destruct (yearsIn (r :: rs) =? 0) eqn:E.
    + simpl List.length. lia.
    + now apply Z.eqb_neq.
Qed.

(** X21.  When no role has years, each role type that has roles is
    credited with two years for each of its roles. *)
Theorem experience_estimate (text : string) (l : list RoleRecord) :
  (forall r, In r l -> years r = None \/ years r = Some 0) ->
  forall t e,
    In (t, e) (ResumeParser.calculateExperienceByRole text l) ->
    expYears e = 2 * Z.of_nat (List.length (expRoles e)).
Proof.
  intros Hyears t e Hin.
  destruct (entry_of_type text l t e Hin) as [keywords [_ He]].
  destruct (tally_entry keywords l e He) as [r [rs [Hrs [Hroles Hy]]]].
  assert (Hzero : yearsIn (r :: rs) = 0).
  { assert (Hsub : forall x, In x (r :: rs) -> In x l).
    { intros x Hx. rewrite <- Hrs in Hx. unfold rolesIn in Hx.
      now apply filter_In in Hx. }
    clear -Hsub Hyears. induction (r :: rs) as [|x xs IH]; simpl; [reflexivity|].
    rewrite IH by (intros y Hy; apply Hsub; now right).
    destruct (Hyears x (Hsub x (or_introl eq_refl))) as [->| ->]; reflexivity. }
  rewrite Hy, Hzero, Hroles, length_map. simpl Z.eqb. cbv iota. lia.
Qed.

Lemma experience_estimate_witness :
  expYears (Exp 4 ["Ux Designer"; "Ui Designer"]) = 2 * 2 /\ True.
Proof.
  split; [|exact I].
  apply (experience_estimate ""
           [Role "Ux Designer" None None None; Role "Consultant" None None None;
            Role "Ui Designer" (Some 0) None None]
           (fun r H =>
              match H with
              | or_introl E => or_introl (f_equal years (eq_sym E))
              | or_intror (or_introl E) => or_introl (f_equal years (eq_sym E))
              | or_intror (or_intror (or_introl E)) => or_intror (f_equal years (eq_sym E))
              | or_intror (or_intror (or_intror F)) => match F with end
              end)
           Design).
  vm_compute. left. reflexivity.
Defined.

(** ** The primary role *)

Lemma most_experienced (m : ExperienceMap) :
  forall (y0 : Z) (t0 : RoleType),
    let '(y, t) :=
      fold_left
        (fun '(maxYears, primaryType) '(t, data) =>
           if expYears data >? maxYears then (expYears data, t)
           else (maxYears, primaryType))
        m (y0, t0) in
    y0 <= y /\
    (forall u e, In (u, e) m -> expYears e <= y) /\
    ((y = y0 /\ t = t0) \/
     (y0 < y /\
      exists before e after,
        m = (before ++ (t, e) :: after)%list /\ expYears e = y /\
        forall u e', In (u, e') before -> expYears e' < y)).
Proof.
  induction m as [|[t1 e1] m IH]; intros y0 t0; simpl.
  - split; [lia|]. split; [intros u e []|]. now left.
  - destruct (Z.gtb_spec (expYears e1) y0) as [Hgt|Hle].
    + specialize (IH (expYears e1) t1).
      destruct (fold_left _ m (expYears e1, t1)) as [y t].
      destruct IH as [Hy [Hall Hcase]].
      split; [lia|]. split.
      * intros u e [[= <- <-]|Hin]; [lia | eapply Hall; exact Hin].
      * right. split; [lia|].
        destruct Hcase as [[-> ->]|[Hlt [before [e [after [-> [He Hb]]]]]]].
        -- exists [], e1, m. split; [reflexivity|]. split; [reflexivity|].
           intros u e' [].
        -- exists ((t1, e1) :: before), e, after.
           split; [reflexivity|]. split; [exact He|].
           intros u e' [[= <- <-]|Hin]; [lia | eapply Hb; exact Hin].
    + specialize (IH y0 t0).
      destruct (fold_left _ m (y0, t0)) as [y t].
      destruct IH as [Hy [Hall Hcase]].
      split; [lia|]. split.
      * intros u e [[= <- <-]|Hin]; [lia | eapply Hall; exact Hin].
      * destruct Hcase as [[-> ->]|[Hlt [before [e [after [-> [He Hb]]]]]]].
        -- now left.
        -- right. split; [exact Hlt|].
           exists ((t1, e1) :: before), e, after.
           split; [reflexivity|]. split; [exact He|].
           intros u e' [[= <- <-]|Hin]; [lia | eapply Hb; exact Hin].
Qed.

(** X22.  For a resume with roles, [determinePrimaryRole] reports the most
    years any role type has, and the first type, in the order the types
    entered the map, that has them; when no type has more than 0 years it
    reports 0 years and the type General. *)
Theorem determinePrimaryRole_most_years (l : list RoleRecord) (m : ExperienceMap)
  (r : RoleRecord) (others : list RoleRecord) :
  l = r :: others ->
  exists y,
    yearsInRole (ResumeParser.determinePrimaryRole l m) = Some y /\
    0 <= y /\
    (forall t e, In (t, e) m -> expYears e <= y) /\
    ((y = 0 /\ type (ResumeParser.determinePrimaryRole l m) = General) \/
     (0 < y /\
      exists before e after,
        m = (before ++ (type (ResumeParser.determinePrimaryRole l m), e) :: after)%list /\
        expYears e = y /\
        forall u e', In (u, e') before -> expYears e' < y)).
Proof.
  intros ->. unfold ResumeParser.determinePrimaryRole.
  pose proof (most_experienced m 0 General) as H.
  destruct (fold_left _ m (0, General)) as [y t].
  destruct H as [Hy [Hall Hcase]].
  exists y. cbn [yearsInRole type].
  split; [reflexivity|]. split; [exact Hy|]. split; [exact Hall|].
  destruct Hcase as [[-> ->]|Hbest]; [now left | now right].
Qed.

Lemma determinePrimaryRole_most_years_witness :
  (exists y,
     yearsInRole (ResumeParser.determinePrimaryRole
                    [Role "Data Engineer" (Some 3) None None]
                    [(Engineering, Exp 3 ["Data Engineer"]); (Data, Exp 3 ["Data Engineer"])])
     = Some y /\ 0 <= y) /\ True.
Proof.
  split; [|exact I].
  destruct (determinePrimaryRole_most_years
              [Role "Data Engineer" (Some 3) None None]
              [(Engineering, Exp 3 ["Data Engineer"]); (Data, Exp 3 ["Data Engineer"])]
              (Role "Data Engineer" (Some 3) None None) [] eq_refl)
    as [y [Hy [Hpos _]]].
  exists y. split; assumption.
Defined.

(** ** Seniority *)

Lemma firstIndicator_none (normalizedText : string) :
  noIndicator normalizedText = true ->
  ResumeParser.firstIndicator normalizedText ResumeParser.seniorityIndicators = None.
Proof.
  unfold noIndicator.
  generalize ResumeParser.seniorityIndicators as tiers.
  induction tiers as [|[level indicators] tiers IH]; simpl; intros H; [reflexivity|].
  apply andb_true_iff in H. destruct H as [H1 H2].
  apply negb_true_iff in H1. rewrite H1. now apply IH.
Qed.

(** X23.  The seniority of the extracted profile follows the indicator
    phrases before the years: a text with "intern" in it, inside another
    word too, is of entry level, and a text with "senior" in it is never of
    manager level, whatever its roles; only a text without any indicator is
    classed by its total years, up to 2 entry, up to 5 mid, up to 10
    senior, above that manager. *)
Theorem seniority_by_indicators (currentYear : Z) (text : string) :
  let p := ResumeParser.extractInformation currentYear text in
  (includes (toLowerCase text) "intern" = true -> seniorityLevel p = entry) /\
  (includes (toLowerCase text) "senior" = true -> seniorityLevel p <> manager) /\
  (noIndicator (toLowerCase text) = true ->
   seniorityLevel p =
     if totalYearsExperience p <=? 2 then entry
     else if totalYearsExperience p <=? 5 then mid
     else if totalYearsExperience p <=? 10 then senior
     else manager).
Proof.
  intros p. unfold p, ResumeParser.extractInformation.
  cbn [seniorityLevel totalYearsExperience].
  unfold ResumeParser.determineSeniorityLevel.
  split; [|split].
  - intros H. cbn [ResumeParser.firstIndicator ResumeParser.seniorityIndicators existsb].
    rewrite H. reflexivity.
  - intros H. cbn [ResumeParser.firstIndicator ResumeParser.seniorityIndicators existsb].
    rewrite H. cbn [orb].
    repeat match goal with
           | |- context [if ?b then _ else _] => destruct b
           end; discriminate.
  - intros H. now rewrite (firstIndicator_none _ H).
Qed.

Lemma seniority_by_indicators_witness :
  seniorityLevel
    (ResumeParser.extractInformation 2026 "Director of International Sales 2001 - 2021")
  = entry /\ True.
Proof.
  split; [|exact I].
  apply (proj1 (seniority_by_indicators 2026
                  "Director of International Sales 2001 - 2021")).
  vm_compute. reflexivity.
Defined.

(** ** The confidence of a scored job *)

(** X24.  Every scored job carries its posting unchanged, the total as its
    match score, and a confidence from 10 to 95. *)
Theorem scoreJob_confidence (p : Profile.t) (j : JobMatcher.Job) :
  let s := JobMatcher.scoreJob p j in
  JobMatcher.job s = j /\
  JobMatcher.matchScore s = JobMatcher.total (JobMatcher.scores s) /\
  JobMatcher.scores s = JobMatcher.calculateMatchScore p j /\
  10 <= JobMatcher.confidence s <= 95.
Proof.
  intros s. unfold s, JobMatcher.scoreJob.
  cbn [JobMatcher.job JobMatcher.matchScore JobMatcher.scores JobMatcher.confidence].
  repeat split; try reflexivity.
  - assert (Ht : (8 <= JobMatcher.total (JobMatcher.calculateMatchScore p j))%Q).
    { pose proof (calculateRoleScore_range p j) as Hr.
      pose proof (calculateExperienceScore_range p j) as He.
      pose proof (calculateContentScore_range p j) as Hc.
      rewrite calculateMatchScore_total.
      set (k := 40 * JobMatcher.calculateRoleScore p j
                + 35 * JobMatcher.calculateExperienceScore p j
                + 25 * JobMatcher.calculateContentScore p j) in *.
      assert (Hk : 800 <= k) by (subst k; lia).
      rewrite Zle_Qle in Hk. change (inject_Z 800) with 800%Q in Hk.
      assert (Hdiv : (inject_Z k / 100 == inject_Z k * (1 # 100))%Q) by reflexivity.
      rewrite Hdiv. lra. }
    pose proof (calculateConfidence_monotone (scores_with_total 8)
                  (JobMatcher.calculateMatchScore p j) Ht) as Hm.
    change (JobMatcher.calculateConfidence (scores_with_total 8)) with 10 in Hm.
    exact Hm.
  - apply confidence_thresholds.
Qed.

(** ** Generated descriptions and the content score *)

Lemma join_includes (sep : string) (l : list string) (s : string) :
  In s l -> includes (join sep l) s = true.
Proof.
  induction l as [|w ws IH]; intros H; [contradiction|].
  destruct ws as [|w' ws].
  - destruct H as [<-|[]]. simpl. apply includes_refl.
  - rewrite join_cons. destruct H as [<-|H].
    + apply includes_prefix, prefix_append.
    + apply includes_spec.
      destruct (proj1 (includes_spec _ _) (IH H)) as [before [after E]].
      exists (w ++ sep ++ before), after.
      rewrite E. now rewrite !append_assoc.
Qed.

Lemma skillsPhrase_includes (skills : list string) (s : string) :
  In s (firstn 3 skills) -> includes (JobSearch.skillsPhrase skills) s = true.
Proof.
  intros H. unfold JobSearch.skillsPhrase.
  pose proof (join_includes ", " _ _ H) as Hj.
  destruct (String.eqb_spec (join ", " (firstn 3 skills)) "") as [E|E]; [|exact Hj].
  rewrite E in Hj.
  destruct s; [reflexivity|discriminate].
Qed.

Lemma includes_app_r (a b s : string) :
  includes b s = true -> includes (a ++ b) s = true.
Proof.
  rewrite !includes_spec. intros [before [after ->]].
  exists (a ++ before), after. now rewrite append_assoc.
Qed.

Lemma generateJobDescription_includes (title company : string)
  (skills : list string) (s : string) :
  In s (firstn 3 skills) ->
  includes (JobSearch.generateJobDescription title company skills) s = true.
Proof.
  intros H.
  unfold JobSearch.generateJobDescription.
  repeat match goal with
         | |- includes (append ?a ?b) _ = true => apply (includes_app_r a b)
         end.
  apply includes_transitive
    with (t := "Experience with " ++ JobSearch.skillsPhrase skills).
  - apply join_includes. unfold JobSearch.requirements. cbn [firstn In].
    left. reflexivity.
  - apply includes_app_r. now apply skillsPhrase_includes.
Qed.

Lemma countIncluded_shift (text : string) (l : list string) (n : Z) :
  fold_left (fun n s => if includes text s then n + 1 else n) l n
  = n + JobMatcher.countIncluded text l.
Proof.
  unfold JobMatcher.countIncluded.
  revert n. induction l as [|s l IH]; intros n; simpl; [lia|].
  destruct (includes text s).
  - rewrite (IH (n + 1)), (IH 1). lia.
  - apply IH.
Qed.

Lemma countIncluded_app (text : string) (l l' : list string) :
  JobMatcher.countIncluded text (l ++ l')
  = JobMatcher.countIncluded text l + JobMatcher.countIncluded text l'.
Proof.
  unfold JobMatcher.countIncluded at 1.
  rewrite fold_left_app.
  apply countIncluded_shift.
Qed.

Lemma countIncluded_all (text : string) (l : list string) :
  (forall s, In s l -> includes text s = true) ->
  JobMatcher.countIncluded text l = Z.of_nat (List.length l).
Proof.
  induction l as [|s l IH]; intros H; [reflexivity|].
  change (s :: l) with ([s] ++ l)%list.
  rewrite countIncluded_app, IH by (intros; apply H; now right).
  unfold JobMatcher.countIncluded at 1. cbn [fold_left].
  rewrite (H s) by now left.
  cbn [List.length app]. lia.
Qed.

(** X25.  A posting described by [generateJobDescription] from the
    candidate's technical skills names each of their first three skills, so
    the content score finds each of them in the posting: the number of
    matched skills is at least three, or the number of skills when there
    are fewer. *)
Theorem generated_description_matches_skills (p : Profile.t) (j : JobMatcher.Job)
  (company : string) :
  JobMatcher.description j
  = Some (JobSearch.generateJobDescription (JobMatcher.title j) company
            (technical (skills p))) ->
  (forall s, In s (firstn 3 (technical (skills p))) ->
     includes (JobMatcher.textOf j) (toLowerCase s) = true) /\
  Z.min 3 (Z.of_nat (List.length (technical (skills p))))
  <= JobMatcher.countIncluded (JobMatcher.textOf j)
       (map toLowerCase (technical (skills p))).
Proof.
  intros Hd.
  assert (Hin : forall s, In s (firstn 3 (technical (skills p))) ->
                          includes (JobMatcher.textOf j) (toLowerCase s) = true).
  { intros s Hs. unfold JobMatcher.textOf, JobMatcher.descriptionOf. rewrite Hd.
    apply includes_spec.
    pose proof (toLowerCase_includes _ _
                  (generateJobDescription_includes (JobMatcher.title j) company _ _ Hs))
      as Hl.
    destruct (proj1 (includes_spec _ _) Hl) as [before [after E]].
    exists (toLowerCase (JobMatcher.title j) ++ " " ++ before), after.
    rewrite E. now rewrite !append_assoc. }
  split; [exact Hin|].
  rewrite <- (firstn_skipn 3 (technical (skills p))) at 2.
  rewrite map_app, countIncluded_app.
  rewrite countIncluded_all.
  - pose proof (countIncluded_nonneg (JobMatcher.textOf j)
                  (map toLowerCase (skipn 3 (technical (skills p))))) as Hn.
    rewrite length_map, length_firstn. lia.
  - intros s Hs. apply in_map_iff in Hs. destruct Hs as [s' [<- Hs']].
    now apply Hin.
Qed.

Lemma generated_description_matches_skills_witness :
  Z.min 3 4
  <= JobMatcher.countIncluded
       (JobMatcher.textOf
          (JobMatcher.MkJob "Data Engineer" "Snowflake" ""
             (Some (JobSearch.generateJobDescription "Data Engineer" "Snowflake"
                      ["python"; "sql"; "spark"; "kafka"]))
             "" "" "" ""))
       (map toLowerCase ["python"; "sql"; "spark"; "kafka"])
  /\ True.
Proof.
  split; [|exact I].
  exact (proj2 (generated_description_matches_skills
                  (MkProfile "" [] [] 0 (MkSkills ["python"; "sql"; "spark"; "kafka"] [] [])
                     mid [] None [])
                  (JobMatcher.MkJob "Data Engineer" "Snowflake" ""
                     (Some (JobSearch.generateJobDescription "Data Engineer" "Snowflake"
                              ["python"; "sql"; "spark"; "kafka"]))
                     "" "" "" "")
                  "Snowflake" eq_refl)).
Defined.

(** ** Searching, then matching *)

Lemma filters_NoDup {A K : Type} (k : A -> K) (f g : A -> bool) (l : list A) :
  (forall x, f x = true -> g x = false) ->
  NoDup (map k l) ->
  NoDup (map k (filter f l ++ filter g l)).
Proof.
  intros Hfg. induction l as [|x l IH]; intros Hnd; [constructor|].
  inversion Hnd as [|y ys Hx Hl]; subst.
  specialize (IH Hl).
  assert (Hsub : forall y, In y (map k (filter f l ++ filter g l)) -> In y (map k l)).
  { intros y Hy. apply in_map_iff in Hy. destruct Hy as [z [<- Hz]].
    apply in_map. apply in_app_or in Hz.
    destruct Hz as [Hz|Hz]; apply filter_In in Hz; tauto. }
  simpl. destruct (f x) eqn:Ef.
  - rewrite (Hfg x Ef). simpl. constructor; [|exact IH].
    intros Hin. apply Hx. now apply Hsub.
  - destruct (g x) eqn:Eg; [|exact IH].
    eapply Permutation_NoDup.
    + apply Permutation_map. apply Permutation_middle.
    + simpl. constructor; [|exact IH].
      intros Hin. apply Hx. now apply Hsub.
Qed.

Lemma matchJobs_jobs (p : Profile.t) (jobs : list JobMatcher.Job) :
  Permutation jobs (map JobMatcher.job (JobMatcher.all (JobMatcher.matchJobs p jobs))).
Proof.
  rewrite matchJobs_all.
  eapply perm_trans;
    [|apply Permutation_map, sort_permutation].
  rewrite map_map. cbn [JobMatcher.scoreJob JobMatcher.job].
  rewrite map_id. apply Permutation_refl.
Qed.

(** X26.  Matching what a search returned, as the analysis of a resume
    does: the list [all] holds the searched postings, each once, and no two
    postings shown as recommended or worth exploring have the same title
    and company, letter case apart. *)
Theorem searched_matches_distinct
  (linkedin jsearch adzunaId adzunaKey : option string)
  (searchLinkedIn searchJSearch searchAdzuna :
     list string -> ResumeParser.Outcome (list JobMatcher.Job))
  (getMockJobs : Profile.t -> list JobMatcher.Job) (p : Profile.t) :
  let jobs :=
    JobSearch.searchJobs linkedin jsearch adzunaId adzunaKey
      searchLinkedIn searchJSearch searchAdzuna getMockJobs p in
  let m := JobMatcher.matchJobs p jobs in
  Permutation jobs (map JobMatcher.job (JobMatcher.all m)) /\
  NoDup (map JobSearch.keyOf (map JobMatcher.job (JobMatcher.all m))) /\
  NoDup (map JobSearch.keyOf
           (map JobMatcher.job (JobMatcher.recommended m ++ JobMatcher.worthExploring m))).
Proof.
  intros jobs m.
  assert (Hjobs : NoDup (map JobSearch.keyOf jobs)).
  { unfold jobs, JobSearch.searchJobs, JobSearch.deduplicateJobs.
    apply keepUnseen_NoDup. }
  assert (Hall : NoDup (map JobSearch.keyOf (map JobMatcher.job (JobMatcher.all m)))).
  { eapply Permutation_NoDup; [|exact Hjobs].
    apply Permutation_map, matchJobs_jobs. }
  split; [apply matchJobs_jobs|]. split; [exact Hall|].
  rewrite map_map in *.
  unfold m, JobMatcher.matchJobs in *.
  cbn [JobMatcher.recommended JobMatcher.worthExploring JobMatcher.all] in *.
  apply filters_NoDup; [|exact Hall].
  intros x Hx. apply andb_true_iff in Hx. destruct Hx as [H90 _].
  apply Z.leb_le in H90.
  apply andb_false_iff. right. apply Z.ltb_ge. exact H90.
Qed.

(** ** [parse] *)

(** *** Texts without letters *)

Lemma allCodeUnits_complete (c : ascii) : In c allCodeUnits.
Proof.
  unfold allCodeUnits. rewrite <- (ascii_nat_embedding c).
  apply in_map, in_seq. pose proof (nat_ascii_bounded c). lia.
Qed.

Lemma letterFree_append (a b : string) :
  letterFree (a ++ b) = (letterFree a && letterFree b)%bool.
Proof.
  induction a as [|c a IH]; cbn [letterFree String.append]; [reflexivity|].
  now rewrite IH, andb_assoc.
Qed.

Lemma letterFree_includes (s t : string) :
  includes s t = true -> letterFree s = true -> letterFree t = true.
Proof.
  intros H Hs. apply includes_spec in H. destruct H as [before [after ->]].
  rewrite !letterFree_append in Hs.
  apply andb_true_iff in Hs. destruct Hs as [_ Hs].
  apply andb_true_iff in Hs. tauto.
Qed.

Lemma isLetter_lowerChar (c : ascii) : isLetter (lowerChar c) = isLetter c.
Proof.
  destruct c as [[] [] [] [] [] [] [] []]; reflexivity.
Qed.

Lemma letterFree_toLowerCase (s : string) :
  letterFree (toLowerCase s) = letterFree s.
Proof.
  unfold toLowerCase.
  induction s as [|c s IH]; cbn [smap letterFree]; [reflexivity|].
  now rewrite IH, isLetter_lowerChar.
Qed.

(** A run of a pattern that takes a letter starts before a letter. *)
Lemma steps_takesLetter (r : regex) (a b : mstate) :
  steps r a b -> takesLetter r = true -> letterFree (rest a) = false.
Proof.
  induction 1 as [a|p pv c s cs Hp|r1 r2 a b c H1 IH1 H2 IH2|r1 r2 a b H IH
                 |r1 r2 a b H IH|g r a|g r a b c H1 IH1 H2 IH2|n r a b H IH|a Hb];
    cbn [takesLetter]; intros Ht; try discriminate.
  - cbn [rest letterFree].
    rewrite forallb_forall in Ht.
    specialize (Ht c (allCodeUnits_complete c)).
    rewrite Hp in Ht. cbn [implb] in Ht. now rewrite Ht.
  - apply orb_true_iff in Ht. destruct Ht as [Ht|Ht]; [now apply IH1|].
    apply steps_consumed in H1. rewrite H1, letterFree_append.
    rewrite (IH2 Ht). apply andb_false_r.
  - apply andb_true_iff in Ht. now apply IH.
  - apply andb_true_iff in Ht. now apply IH.
  - now apply IH.
Qed.

Lemma search_letterFree (r : regex) (s : string) (p : option ascii) (i : nat) :
  takesLetter r = true -> letterFree s = true -> search r p s i = None.
Proof.
  intros Hr Hs.
  destruct (search r p s i) as [res|] eqn:E; [|reflexivity].
  apply search_found in E. destruct E as [before [a [Hsplit [Hsteps _]]]].
  apply steps_takesLetter in Hsteps; [|exact Hr].
  rewrite Hsplit, letterFree_append, Hsteps, andb_false_r in Hs. discriminate.
Qed.

Lemma matchAll_letterFree (r : regex) (s : string) :
  takesLetter r = true -> letterFree s = true -> matchAll r s = [].
Proof.
  intros Hr Hs. unfold matchAll. cbn [matchAllFrom].
  now rewrite search_letterFree.
Qed.

Lemma test_letterFree (r : regex) (s : string) :
  takesLetter r = true -> letterFree s = true -> test r s = false.
Proof.
  intros Hr Hs. unfold test, exec. now rewrite search_letterFree.
Qed.

Lemma flat_map_nil {A B : Type} (f : A -> list B) (l : list A) :
  (forall x, In x l -> f x = []) -> flat_map f l = [].
Proof.
  induction l as [|x l IH]; intros H; [reflexivity|].
  cbn [flat_map]. rewrite (H x) by now left.
  apply IH. intros y Hy. apply H. now right.
Qed.

(** A term with a letter does not stand in a text without one. *)
Lemma includes_letterFree (s t : string) :
  letterFree s = true -> letterFree t = false -> includes s t = false.
Proof.
  intros Hs Ht. destruct (includes s t) eqn:E; [|reflexivity].
  rewrite (letterFree_includes s t E Hs) in Ht. discriminate.
Qed.

(** Every phrase and every pattern the parser looks for needs a letter. *)
Lemma lexicon_with_letters :
  forallb (fun role => negb (letterFree role)) ResumeParser.roleTitles = true /\
  forallb takesLetter ResumeParser.rolePatterns = true /\
  forallb (fun skill => takesLetter (ResumeParser.skillPattern skill))
    ResumeParser.technicalSkills = true /\
  forallb
    (fun '(_, indicators) => forallb (fun i => negb (letterFree i)) indicators)
    ResumeParser.seniorityIndicators = true /\
  forallb takesLetter ResumeParser.degreePatterns = true /\
  takesLetter ResumeParser.capitalizedPattern = true.
Proof.
  repeat split; vm_compute; reflexivity.
Qed.

Lemma lexiconCandidates_letterFree (currentYear : Z) (text : string) :
  letterFree text = true -> ResumeParser.lexiconCandidates currentYear text = [].
Proof.
  intros Ht. unfold ResumeParser.lexiconCandidates.
  apply flat_map_nil. intros line Hline.
  apply flat_map_nil. intros role Hrole.
  rewrite includes_letterFree; [reflexivity| |].
  - apply (letterFree_includes _ _ (trim_includes _)).
    rewrite letterFree_toLowerCase.
    apply (letterFree_includes _ _ (split_includes _ _ _ Hline) Ht).
  - destruct lexicon_with_letters as [H _].
    rewrite forallb_forall in H. apply negb_true_iff. now apply H.
Qed.

Lemma patternCandidates_letterFree (text : string) :
  letterFree text = true -> ResumeParser.patternCandidates text = [].
Proof.
  intros Ht. unfold ResumeParser.patternCandidates.
  apply flat_map_nil. intros pattern Hp.
  destruct lexicon_with_letters as [_ [H _]].
  rewrite forallb_forall in H.
  now rewrite matchAll_letterFree by auto.
Qed.

Lemma extractSkills_letterFree (normalizedText : string) :
  letterFree normalizedText = true ->
  ResumeParser.extractSkills normalizedText = MkSkills [] [] [].
Proof.
  intros Ht. unfold ResumeParser.extractSkills.
  rewrite flat_map_nil; [reflexivity|].
  intros skill Hs.
  destruct lexicon_with_letters as [_ [_ [H _]]].
  rewrite forallb_forall in H.
  now rewrite test_letterFree by auto.
Qed.

Lemma noIndicator_letterFree (normalizedText : string) :
  letterFree normalizedText = true -> noIndicator normalizedText = true.
Proof.
  intros Ht. unfold noIndicator.
  destruct lexicon_with_letters as [_ [_ [_ [H _]]]].
  rewrite forallb_forall in *.
  intros [level indicators] Hin. specialize (H _ Hin). cbn beta iota in H.
  rewrite forallb_forall in H.
  apply negb_true_iff.
  destruct (existsb _ indicators) eqn:E; [|reflexivity].
  apply existsb_exists in E. destruct E as [i [Hi E]].
  specialize (H i Hi). apply negb_true_iff in H.
  now rewrite includes_letterFree in E.
Qed.

Lemma degrees_letterFree (normalizedText : string) (pattern : regex) :
  letterFree normalizedText = true ->
  In pattern ResumeParser.degreePatterns ->
  matchAll pattern normalizedText = [].
Proof.
  intros Ht Hp.
  destruct lexicon_with_letters as [_ [_ [_ [_ [H _]]]]].
  rewrite forallb_forall in H.
  apply matchAll_letterFree; auto.
Qed.

(** In a text without letters nothing is found: the profile is the one of
    defaults. *)
Lemma extractInformation_letterFree (currentYear : Z) (text : string) :
  letterFree text = true ->
  ResumeParser.extractInformation currentYear text = emptyProfile text.
Proof.
  intros Ht.
  assert (Hn : letterFree (toLowerCase text) = true)
    by now rewrite letterFree_toLowerCase.
  unfold ResumeParser.extractInformation, ResumeParser.extractRoles.
  rewrite lexiconCandidates_letterFree, patternCandidates_letterFree by exact Ht.
  cbn [app fold_left].
  change (ResumeParser.calculateExperienceByRole text []) with (@nil (RoleType * Experience)).
  rewrite extractSkills_letterFree by exact Hn.
  unfold ResumeParser.determineSeniorityLevel.
  rewrite (firstIndicator_none _ (noIndicator_letterFree _ Hn)).
  unfold ResumeParser.extractEducation.
  rewrite (flat_map_nil _ ResumeParser.degreePatterns)
    by (intros pattern Hp; now rewrite degrees_letterFree).
  unfold ResumeParser.extractKeywords.
  destruct lexicon_with_letters as [_ [_ [_ [_ [_ Hk]]]]].
  rewrite (matchAll_letterFree _ _ Hk Ht).
  reflexivity.
Qed.

(** *** The spread of [extractEducation] *)

Lemma matchAllFrom_length (r : regex) (fuel : nat) :
  forall (p : option ascii) (s : string) (i : nat),
    (List.length (matchAllFrom fuel r p s i) <= fuel)%nat.
Proof.
  induction fuel as [|fuel IH]; intros p s i; cbn [matchAllFrom]; [apply Nat.le_refl|].
  destruct (search r p s i) as [res|]; [|cbn [List.length]; lia].
  destruct (matched res); destruct (rest (final res)) as [|c s'];
    cbn [List.length]; try lia;
    match goal with
    | |- context [matchAllFrom fuel r ?p' ?s' ?i'] =>
        specialize (IH p' s' i'); lia
    end.
Qed.

(** A pattern has at most one match for each code unit of the text, and
    one more. *)
Lemma matchAll_length (r : regex) (s : string) :
  (List.length (matchAll r s) <= S (String.length s))%nat.
Proof.
  apply matchAllFrom_length.
Qed.

Lemma spreads_short (maxArguments : nat) (normalizedText : string) :
  (String.length normalizedText < maxArguments)%nat ->
  ResumeParser.spreads maxArguments normalizedText = true.
Proof.
  intros H. unfold ResumeParser.spreads.
  apply forallb_forall. intros pattern _.
  apply Nat.leb_le.
  pose proof (matchAll_length pattern normalizedText). lia.
Qed.

Lemma unique_nil (l : list string) : ResumeParser.unique l = [] -> l = [].
Proof.
  intros H. destruct l as [|x l]; [reflexivity|].
  assert (Hx : In x (ResumeParser.unique (x :: l))) by (apply unique_In; now left).
  rewrite H in Hx. contradiction.
Qed.

Lemma flat_map_nil_inv {A B : Type} (f : A -> list B) (l : list A) :
  flat_map f l = [] -> forall x, In x l -> f x = [].
Proof.
  induction l as [|y l IH]; intros H x Hx; [contradiction|].
  cbn [flat_map] in H. apply app_eq_nil in H. destruct H as [Hy Hl].
  destruct Hx as [<-|Hx]; [exact Hy | now apply IH].
Qed.

(** Without a degree in the text there is nothing to spread. *)
Lemma spreads_no_degree (maxArguments : nat) (normalizedText : string) :
  ResumeParser.extractEducation normalizedText = [] ->
  ResumeParser.spreads maxArguments normalizedText = true.
Proof.
  intros H. unfold ResumeParser.extractEducation in H.
  apply unique_nil in H.
  unfold ResumeParser.spreads. apply forallb_forall. intros pattern Hp.
  apply (flat_map_nil_inv _ _ H) in Hp.
  apply map_eq_nil in Hp. rewrite Hp. reflexivity.
Qed.

Lemma spreads_letterFree (maxArguments : nat) (normalizedText : string) :
  letterFree normalizedText = true ->
  ResumeParser.spreads maxArguments normalizedText = true.
Proof.
  intros H. unfold ResumeParser.spreads.
  apply forallb_forall. intros pattern Hp.
  now rewrite degrees_letterFree.
Qed.

(** What [parse] does with the outcome of the decoder. *)
Lemma parse_decoded (currentYear : Z) (extname : string -> string)
  (parsePDF parseDOCX parseTXT : string -> ResumeParser.Outcome string)
  (maxArguments : nat) (filePath : string) :
  let ext := toLowerCase (extname filePath) in
  ResumeParser.parse currentYear extname parsePDF parseDOCX parseTXT maxArguments filePath =
  match decoderFor parsePDF parseDOCX parseTXT ext with
  | None => ResumeParser.Thrown ("Unsupported file format: " ++ ext)
  | Some decode =>
      match decode filePath with
      | ResumeParser.Returned text =>
          ResumeParser.extractInformationOutcome currentYear maxArguments text
      | ResumeParser.Thrown error => ResumeParser.Thrown error
      end
  end.
Proof.
  intros ext. unfold ResumeParser.parse, decoderFor. fold ext.
  destruct (String.eqb ext ".pdf"); [reflexivity|].
  destruct (String.eqb ext ".docx"); [reflexivity|].
  destruct (String.eqb ext ".txt"); reflexivity.
Qed.

(** C8, as stated, fails: the empty text of a supported file is not an
    error, [parse] returns the profile of defaults for it. *)
Lemma parse_empty_counterexample :
  ResumeParser.parse 2026 (fun _ => ".txt")
    (fun _ => ResumeParser.Thrown "unused") (fun _ => ResumeParser.Thrown "unused")
    (fun _ => ResumeParser.Returned "") 1000 "resume.txt"
  = ResumeParser.Returned (emptyProfile "").
Proof.
  vm_compute. reflexivity.
Qed.

(** C8, amended.  [parse] fails when the format is unsupported and when the
    decoder of the format fails.  An empty text is not an error.  When the
    decoder returns a text, [parse] returns the complete profile
    [extractInformation] builds of it, with the text as [rawText] and with a
    primary role, in each of these cases: the text has fewer code units than
    a call takes arguments; no degree is found in it; it has no letter, the
    empty text for one, and then the profile is the one of defaults,
    whatever the engine's limit.  Whenever [parse] returns, it returns that
    profile.  What the spread of more matches than a call takes does is not
    part of this statement. *)
Theorem parse_outcomes (currentYear : Z) (extname : string -> string)
  (parsePDF parseDOCX parseTXT : string -> ResumeParser.Outcome string)
  (maxArguments : nat) (filePath : string) :
  let ext := toLowerCase (extname filePath) in
  let outcome :=
    ResumeParser.parse currentYear extname parsePDF parseDOCX parseTXT
      maxArguments filePath in
  (decoderFor parsePDF parseDOCX parseTXT ext = None ->
   outcome = ResumeParser.Thrown ("Unsupported file format: " ++ ext)) /\
  (forall decode error,
      decoderFor parsePDF parseDOCX parseTXT ext = Some decode ->
      decode filePath = ResumeParser.Thrown error ->
      outcome = ResumeParser.Thrown error) /\
  (forall decode text,
      decoderFor parsePDF parseDOCX parseTXT ext = Some decode ->
      decode filePath = ResumeParser.Returned text ->
      let p := ResumeParser.extractInformation currentYear text in
      ((String.length text < maxArguments)%nat -> outcome = ResumeParser.Returned p) /\
      (education p = [] -> outcome = ResumeParser.Returned p) /\
      (letterFree text = true -> outcome = ResumeParser.Returned (emptyProfile text)) /\
      (forall p', outcome = ResumeParser.Returned p' -> p' = p) /\
      rawText p = text /\ primaryRole p <> None).
Proof.
  intros ext outcome.
  assert (Hout := parse_decoded currentYear extname parsePDF parseDOCX parseTXT
                    maxArguments filePath).
  cbv zeta in Hout. fold ext outcome in Hout.
  split; [|split].
  - intros Hd. now rewrite Hd in Hout.
  - intros decode error Hd He. now rewrite Hd, He in Hout.
  - intros decode text Hd Ht p.
    rewrite Hd, Ht in Hout. unfold ResumeParser.extractInformationOutcome in Hout.
    fold p in Hout.
    split; [|split; [|split; [|split; [|split]]]].
    + intros Hlen. rewrite Hout, spreads_short; [reflexivity|].
      unfold toLowerCase. now rewrite smap_length.
    + intros Hed. rewrite Hout, spreads_no_degree; [reflexivity | exact Hed].
    + intros Hfree. rewrite Hout, spreads_letterFree.
      * unfold p. now rewrite extractInformation_letterFree.
      * now rewrite letterFree_toLowerCase.
    + intros p' Hp'. rewrite Hout in Hp'.
      destruct (ResumeParser.spreads maxArguments (toLowerCase text));
        [now injection Hp' | discriminate].
    + reflexivity.
    + discriminate.
Qed.

Lemma parse_outcomes_witness :
  ResumeParser.parse 2026 (fun _ => ".TXT")
    (fun _ => ResumeParser.Thrown "unused") (fun _ => ResumeParser.Thrown "unused")
    (fun _ => ResumeParser.Returned "2019 - 2023: +1 555 0100") 0 "resume.TXT"
  = ResumeParser.Returned (emptyProfile "2019 - 2023: +1 555 0100") /\ True.
Proof.
  split; [|exact I].
  refine (proj1 (proj2 (proj2
    (proj2 (proj2 (parse_outcomes 2026 (fun _ => ".TXT")
       (fun _ => ResumeParser.Thrown "unused") (fun _ => ResumeParser.Thrown "unused")
       (fun _ => ResumeParser.Returned "2019 - 2023: +1 555 0100") 0 "resume.TXT"))
       (fun _ => ResumeParser.Returned "2019 - 2023: +1 555 0100")
       "2019 - 2023: +1 555 0100" eq_refl eq_refl))) eq_refl).
Defined.

(** The spread on a text with more degrees than a call takes, here with a
    limit of two arguments: [parse] throws. *)
Example parse_spread_overflow :
  ResumeParser.parse 2026 (fun _ => ".txt")
    (fun _ => ResumeParser.Thrown "unused") (fun _ => ResumeParser.Thrown "unused")
    (fun _ => ResumeParser.Returned "BS Engineering, BA Design, BS Physics")
    2 "resume.txt"
  = ResumeParser.Thrown "RangeError: Maximum call stack size exceeded" /\
  List.length
    (matchAll (hd Eps ResumeParser.degreePatterns)
       (toLowerCase "BS Engineering, BA Design, BS Physics")) = 3%nat.
Proof.
  vm_compute. split; reflexivity.
Qed.
